(** * ESXi on-box host upgrade: a shallow embedding and its properties

    The development follows [esxi_onbox_upgrade_v4.py] (the revised script)
    and [upgrade-script.py] (the original script).

    - Text is [string]: a sequence of characters with code points below 256.
      The Python string methods the scripts call are written out in
      [Module Py] for that range.
    - The ESXi shell is a state type [Host] with a transition
      [exec : string -> Host -> string * Host] (what [os.popen(cmd).read()]
      returns, and what the command did to the host) and
      [elapse : nat -> Host -> Host] (what happens to the host while the
      script sleeps).
    - A script function of the source is a computation [M A]: it takes the
      host, and gives back a result, the host afterwards and the trace of
      the shell commands and sleeps it performed.  A result is a value, a
      [sys.exit(n)], or an uncaught exception.
    - [getvms] of the original script is given a host object instead; its
      one call of [send_command] is a function from the command to the
      answer.
    - [print] calls are not modelled. *)

From Stdlib Require Import String Ascii List Bool Arith Lia DecimalString
  DecimalNat Sorted.
Import ListNotations.
Open Scope string_scope.
Open Scope list_scope.
Open Scope nat_scope.

(** String concatenation, Python's [+] on [str]. *)
Infix "+++" := String.append (right associativity, at level 60).

(* ================================================================= *)
(** ** Python string methods used by the scripts *)

Module Py.

Definition code (c : ascii) : nat := nat_of_ascii c.

Definition between (lo hi n : nat) : bool := (lo <=? n) && (n <=? hi).

(** [str.isspace] on one character: TAB..CR, FS..US, space, NEL, NBSP. *)
Definition isspace (c : ascii) : bool :=
  let n := code c in
  between 9 13 n || between 28 32 n || (n =? 133) || (n =? 160).

(** The line boundaries of [str.splitlines]: LF, VT, FF, CR, FS, GS, RS, NEL. *)
Definition islinebreak (c : ascii) : bool :=
  let n := code c in
  between 10 13 n || between 28 30 n || (n =? 133).

(** [str.isdigit] on one character: 0-9 and the superscripts 2, 3, 1. *)
Definition isdigit_char (c : ascii) : bool :=
  let n := code c in
  between 48 57 n || (n =? 178) || (n =? 179) || (n =? 185).

(** [str.lower] on one character: A-Z and the upper-case letters of the
    upper half (all of 0xC0..0xDE but the multiplication sign). *)
Definition lower_char (c : ascii) : ascii :=
  let n := code c in
  if between 65 90 n || (between 192 222 n && negb (n =? 215))
  then ascii_of_nat (n + 32) else c.

Fixpoint lower (s : string) : string :=
  match s with
  | EmptyString => EmptyString
  | String c r => String (lower_char c) (lower r)
  end.

Fixpoint lstrip (s : string) : string :=
  match s with
  | EmptyString => EmptyString
  | String c r => if isspace c then lstrip r else s
  end.

Fixpoint rstrip (s : string) : string :=
  match s with
  | EmptyString => EmptyString
  | String c r =>
      match rstrip r with
      | EmptyString => if isspace c then EmptyString else String c EmptyString
      | r' => String c r'
      end
  end.

(** [s.strip()] *)
Definition strip (s : string) : string := rstrip (lstrip s).

(** [s.replace(c, '')] for a one-character [c]. *)
Fixpoint remove (c : ascii) (s : string) : string :=
  match s with
  | EmptyString => EmptyString
  | String d r => if Ascii.eqb d c then remove c r else String d (remove c r)
  end.

(** [s.split(c)] for a one-character separator [c]: never empty. *)
Fixpoint split (sep : ascii) (s : string) : list string :=
  match s with
  | EmptyString => [EmptyString]
  | String c r =>
      if Ascii.eqb c sep then EmptyString :: split sep r
      else match split sep r with
           | x :: xs => String c x :: xs
           | [] => [String c EmptyString]
           end
  end.

(** [s.splitlines()]: CR LF is one boundary, and a boundary at the very end
    opens no further line. *)
Fixpoint splitlines (s : string) : list string :=
  match s with
  | EmptyString => []
  | String c r =>
      if islinebreak c then
        EmptyString ::
          match r with
          | String d r' =>
              if Ascii.eqb c "013" && Ascii.eqb d "010"
              then splitlines r' else splitlines r
          | EmptyString => []
          end
      else match splitlines r with
           | x :: xs => String c x :: xs
           | [] => [String c EmptyString]
           end
  end.

(** [s.startswith(p)] *)
Fixpoint startswith (p s : string) : bool :=
  match p with
  | EmptyString => true
  | String a p' =>
      match s with
      | EmptyString => false
      | String b s' => Ascii.eqb a b && startswith p' s'
      end
  end.

(** [needle in hay]: [hay] has [needle] at its start or further on. *)
Fixpoint contains (needle hay : string) : bool :=
  startswith needle hay
  || match hay with
     | EmptyString => false
     | String _ r => contains needle r
     end.

Fixpoint all_chars (p : ascii -> bool) (s : string) : bool :=
  match s with
  | EmptyString => true
  | String c r => p c && all_chars p r
  end.

(** [s.isdigit()]: false on the empty string. *)
Definition isdigit (s : string) : bool :=
  match s with
  | EmptyString => false
  | _ => all_chars isdigit_char s
  end.

(** [str(n)] and ["{0}".format(n)] for a non-negative [int]. *)
Definition str_of_nat (n : nat) : string :=
  NilEmpty.string_of_uint (Nat.to_uint n).

(** Truth value of a string: [if s:] *)
Definition truthy (s : string) : bool :=
  match s with EmptyString => false | _ => true end.

(** [s.rstrip(c)] and [s.strip(c)] for a one-character set [c]. *)
Fixpoint lstrip_char (c : ascii) (s : string) : string :=
  match s with
  | EmptyString => EmptyString
  | String d r => if Ascii.eqb d c then lstrip_char c r else s
  end.

Fixpoint rstrip_char (c : ascii) (s : string) : string :=
  match s with
  | EmptyString => EmptyString
  | String d r =>
      match rstrip_char c r with
      | EmptyString => if Ascii.eqb d c then EmptyString else String d EmptyString
      | r' => String d r'
      end
  end.

Definition strip_char (c : ascii) (s : string) : string :=
  rstrip_char c (lstrip_char c s).

(** Whether [int(s)] succeeds (CPython 3.6 to 3.10).  [int] skips blanks
    at both ends, but fewer than [str.strip] does: TAB..CR and the space,
    and NEL and NBSP (which it first turns into spaces, as it does in a
    text that is not ASCII); the separators FS..US are not skipped.  Then
    comes one optional sign, then decimal digits with single underscores
    between them.  [digits_from prev s] reads the rest of the digits, [prev]
    telling whether the character before was a digit. *)
Definition isdecimal_char (c : ascii) : bool := between 48 57 (code c).

Definition int_isspace (c : ascii) : bool :=
  let n := code c in
  between 9 13 n || (n =? 32) || (n =? 133) || (n =? 160).

Fixpoint int_lstrip (s : string) : string :=
  match s with
  | EmptyString => EmptyString
  | String c r => if int_isspace c then int_lstrip r else s
  end.

Fixpoint int_rstrip (s : string) : string :=
  match s with
  | EmptyString => EmptyString
  | String c r =>
      match int_rstrip r with
      | EmptyString => if int_isspace c then EmptyString else String c EmptyString
      | r' => String c r'
      end
  end.

Fixpoint digits_from (prev_digit : bool) (s : string) : bool :=
  match s with
  | EmptyString => prev_digit
  | String c r =>
      if isdecimal_char c then digits_from true r
      else if Ascii.eqb c "_" then prev_digit && digits_from false r
      else false
  end.

Definition int_parses (s : string) : bool :=
  match int_rstrip (int_lstrip s) with
  | String c r =>
      if Ascii.eqb c "+" || Ascii.eqb c "-" then digits_from false r
      else digits_from false (String c r)
  | EmptyString => false
  end.

End Py.

Definition LF : string := String "010" EmptyString.
Definition NL : ascii := "010"%char.
Definition QUOTE : ascii := "034"%char.
Definition APOSTROPHE : ascii := "'"%char.

(* ================================================================= *)
(** ** Results, events and the insertion-ordered dictionary *)

(** The exceptions the scripts can raise and never catch. *)
Inductive exn := IndexError | TypeError | KeyError.

(** How a call ends: it returns, it calls [sys.exit], or it raises. *)
Inductive res (A : Type) :=
| Val (a : A)
| Exit (status : nat)
| Raise (e : exn).
Arguments Val {A} a.
Arguments Exit {A} status.
Arguments Raise {A} e.

(** What the script does to the outside: a shell command with the text it
    got back, or a sleep. *)
Inductive event :=
| Cmd (command output : string)
| Sleep (seconds : nat).

(** The exit status of the process for the result of the top level. *)
Definition exit_status (r : res unit) : nat :=
  match r with
  | Val _ => 0
  | Exit n => n
  | Raise _ => 1
  end.

(** A [dict] with [str] keys: pairs in insertion order, keys distinct. *)
Definition dict (V : Type) : Type := list (string * V).

Fixpoint dict_set {V} (d : dict V) (k : string) (v : V) : dict V :=
  match d with
  | [] => [(k, v)]
  | (k', v') :: rest =>
      if String.eqb k' k then (k', v) :: rest else (k', v') :: dict_set rest k v
  end.

Fixpoint dict_get {V} (d : dict V) (k : string) : option V :=
  match d with
  | [] => None
  | (k', v') :: rest => if String.eqb k' k then Some v' else dict_get rest k
  end.

(** [for k in d] visits the keys in insertion order. *)
Definition keys {V} (d : dict V) : list string := map fst d.

(** [x[1]] on a list. *)
Definition item (l : list string) (i : nat) : res string :=
  match nth_error l i with
  | Some x => Val x
  | None => Raise IndexError
  end.

(* ================================================================= *)
(** ** A small simulated host

    Used to run the scripts on concrete inputs.  The configuration fixes
    what the host answers and which requests it obeys; the state is the
    list of the workloads that are powered on and the maintenance flag. *)

Record sim_config := {
  files : string;            (* the answer of [ls -l] *)
  vm_list : string;          (* the answer of [vim-cmd vmsvc/getallvms ...] *)
  tools : string;            (* the answer of [vim-cmd vmsvc/get.guest] *)
  shutdown_obeyed : bool;    (* [power.shutdown] switches the workload off *)
  off_obeyed : bool;         (* [power.off] switches the workload off *)
  off_visible : bool;        (* the summary of a workload that is off has
                                its [powerState] line *)
  mm_obeyed : bool;          (* the host follows [set --enable true] *)
  mm_exit_obeyed : bool;     (* the host follows [set --enable false] *)
  upgrade_out : string       (* the answer of [esxcli software profile update] *)
}.

Record sim_state := {
  powered : list string;
  in_maintenance : bool
}.

Definition strip_prefix (p s : string) : option string :=
  if Py.startswith p s
  then Some (String.substring (String.length p) (String.length s - String.length p) s)
  else None.

Definition is_on (st : sim_state) (v : string) : bool :=
  existsb (String.eqb v) (powered st).

Definition switch_off (st : sim_state) (v : string) : sim_state :=
  {| powered := filter (fun w => negb (String.eqb v w)) (powered st);
     in_maintenance := in_maintenance st |}.

Definition switch_on (st : sim_state) (v : string) : sim_state :=
  {| powered := if is_on st v then powered st else powered st ++ [v];
     in_maintenance := in_maintenance st |}.

Definition summary_text (state : string) : string :=
  "(vim.vm.Summary) {" +++ LF +++
  "      powerState = " +++ String QUOTE state +++ String QUOTE "," +++ LF +++
  "}" +++ LF.

Definition guest_text (status : string) : string :=
  "(vim.vm.GuestInfo) {" +++ LF +++
  "   toolsStatus = " +++ String QUOTE status +++ String QUOTE "," +++ LF +++
  "}" +++ LF.

Definition sim_exec (c : sim_config) (cmd : string) (st : sim_state)
  : string * sim_state :=
  if String.eqb cmd "pwd" then ("/vmfs/volumes/datastore1" +++ LF, st)
  else if Py.startswith "ls -l " cmd then (files c, st)
  else if Py.startswith "vim-cmd vmsvc/getallvms" cmd then (vm_list c, st)
  else if Py.startswith "vim-cmd vmsvc/get.guest " cmd then (tools c, st)
  else if String.eqb cmd "esxcli system maintenanceMode get" then
    ((if in_maintenance st then "Enabled" else "Disabled") +++ LF, st)
  else if String.eqb cmd "esxcli system maintenanceMode set --enable true" then
    ("", {| powered := powered st;
            in_maintenance := if mm_obeyed c then true else in_maintenance st |})
  else if String.eqb cmd "esxcli system maintenanceMode set --enable false" then
    ("", {| powered := powered st;
            in_maintenance := if mm_exit_obeyed c then false else in_maintenance st |})
  else if Py.startswith "esxcli software profile update " cmd then (upgrade_out c, st)
  else
    match strip_prefix "vim-cmd vmsvc/get.summary " cmd with
    | Some v =>
        (if is_on st v then summary_text "poweredOn"
         else if off_visible c then summary_text "poweredOff"
         else "", st)
    | None =>
    match strip_prefix "vim-cmd vmsvc/power.shutdown " cmd with
    | Some v => ("", if shutdown_obeyed c then switch_off st v else st)
    | None =>
    match strip_prefix "vim-cmd vmsvc/power.off " cmd with
    | Some v => ("Powering off VM:" +++ LF, if off_obeyed c then switch_off st v else st)
    | None =>
    match strip_prefix "vim-cmd vmsvc/power.on " cmd with
    | Some v => ("Powering on VM:" +++ LF, switch_on st v)
    | None => ("", st)
    end end end end.

Definition sim_elapse (n : nat) (st : sim_state) : sim_state := st.

Definition package_listing : string :=
  "-rw-r--r-- 1 root root 612345678 Jan  1 00:00 VMware-ESXi-8.0U3-24022510-depot.zip" +++ LF.

Definition upgrade_done : string :=
  "Update Result" +++ LF +++
  "   Message: The update completed successfully, but the system needs to be rebooted for the changes to be effective." +++ LF +++
  "   Reboot Required: true" +++ LF.

Definition upgrade_no_reboot : string :=
  "Update Result" +++ LF +++
  "   Message: The update completed successfully." +++ LF +++
  "   Reboot Required: false" +++ LF.

(** A host that has the package, two workloads (1 and 2) with working
    tools, and does as it is told. *)
Definition good_host : sim_config := {|
  files := package_listing;
  vm_list := "1" +++ LF +++ "2" +++ LF;
  tools := guest_text "toolsOk";
  shutdown_obeyed := true;
  off_obeyed := true;
  off_visible := true;
  mm_obeyed := true;
  mm_exit_obeyed := true;
  upgrade_out := upgrade_done
|}.


(** A host without tools in its workloads that never enters maintenance
    mode. *)
Definition stuck_host : sim_config := {|
  files := package_listing;
  vm_list := "1" +++ LF +++ "2" +++ LF;
  tools := guest_text "toolsNotInstalled";
  shutdown_obeyed := true;
  off_obeyed := true;
  off_visible := true;
  mm_obeyed := false;
  mm_exit_obeyed := true;
  upgrade_out := upgrade_done
|}.

(** The same, with one workload, and the summary of a workload that is off
    has no [powerState] line. *)
Definition blind_host : sim_config := {|
  files := package_listing;
  vm_list := "1" +++ LF;
  tools := guest_text "toolsNotInstalled";
  shutdown_obeyed := true;
  off_obeyed := true;
  off_visible := false;
  mm_obeyed := false;
  mm_exit_obeyed := true;
  upgrade_out := upgrade_done
|}.

(** A host whose upgrade reports success without asking for a reboot, and
    where the summary of a workload that is off has no [powerState] line. *)
Definition half_done_host : sim_config := {|
  files := package_listing;
  vm_list := "1" +++ LF;
  tools := guest_text "toolsNotInstalled";
  shutdown_obeyed := true;
  off_obeyed := true;
  off_visible := false;
  mm_obeyed := true;
  mm_exit_obeyed := true;
  upgrade_out := upgrade_no_reboot
|}.

(** The same upgrade on a host that shows the workloads that are off. *)
Definition no_reboot_host : sim_config := {|
  files := package_listing;
  vm_list := "1" +++ LF;
  tools := guest_text "toolsNotInstalled";
  shutdown_obeyed := true;
  off_obeyed := true;
  off_visible := true;
  mm_obeyed := true;
  mm_exit_obeyed := true;
  upgrade_out := upgrade_no_reboot
|}.

(** A host whose workloads have working tools and ignore the graceful
    request. *)
Definition deaf_guest_host : sim_config := {|
  files := package_listing;
  vm_list := "1" +++ LF;
  tools := guest_text "toolsOk";
  shutdown_obeyed := false;
  off_obeyed := true;
  off_visible := true;
  mm_obeyed := true;
  mm_exit_obeyed := true;
  upgrade_out := upgrade_done
|}.

(** A host whose workloads have working tools, follow the graceful
    request, and show no [powerState] line once they are off. *)
Definition vanishing_host : sim_config := {|
  files := package_listing;
  vm_list := "1" +++ LF;
  tools := guest_text "toolsOk";
  shutdown_obeyed := true;
  off_obeyed := true;
  off_visible := false;
  mm_obeyed := true;
  mm_exit_obeyed := true;
  upgrade_out := upgrade_done
|}.

(** A host whose tools-status line and power-state line have no [=]. *)
Definition garbled_host : sim_config := {|
  files := package_listing;
  vm_list := "1" +++ LF;
  tools := "toolsStatus" +++ LF;
  shutdown_obeyed := true;
  off_obeyed := true;
  off_visible := true;
  mm_obeyed := true;
  mm_exit_obeyed := true;
  upgrade_out := upgrade_done
|}.

(** A host that answers the queries about a workload with nothing. *)
Definition mute_host : sim_config := {|
  files := package_listing;
  vm_list := "1" +++ LF;
  tools := "";
  shutdown_obeyed := true;
  off_obeyed := true;
  off_visible := false;
  mm_obeyed := true;
  mm_exit_obeyed := true;
  upgrade_out := upgrade_done
|}.

Definition all_off : sim_state :=
  {| powered := []; in_maintenance := false |}.

(** Workload 1 is running, workload 2 (if any) is off. *)
Definition one_running : sim_state :=
  {| powered := ["1"]; in_maintenance := false |}.

(** Hosts for the original script: its package, and an enumeration with
    the identifier and the name of each workload. *)
Definition legacy_package_listing : string :=
  "-rw-r--r-- 1 root root 412345678 Jan  1 00:00 VMware-ESXi-7.0U2c-18426014-depot.zip" +++ LF.

Definition legacy_host : sim_config := {|
  files := legacy_package_listing;
  vm_list := "1:web" +++ LF +++ "2:db" +++ LF;
  tools := guest_text "toolsOk";
  shutdown_obeyed := true;
  off_obeyed := true;
  off_visible := true;
  mm_obeyed := false;
  mm_exit_obeyed := true;
  upgrade_out := "[InstallationError]" +++ LF
|}.

(** The same with no [powerState] line in the summary of a workload that
    is off. *)
Definition legacy_blind_host : sim_config := {|
  files := legacy_package_listing;
  vm_list := "1:web" +++ LF +++ "2:db" +++ LF;
  tools := guest_text "toolsOk";
  shutdown_obeyed := true;
  off_obeyed := true;
  off_visible := false;
  mm_obeyed := false;
  mm_exit_obeyed := true;
  upgrade_out := "[InstallationError]" +++ LF
|}.

(** Workloads 1 and 2 are both running. *)
Definition both_running : sim_state :=
  {| powered := ["1"; "2"]; in_maintenance := false |}.

(** A host of the original script whose enumeration has a line that starts
    with the separator FS, which [str.strip] takes for a blank and [int]
    does not. *)
Definition legacy_fs_host : sim_config := {|
  files := legacy_package_listing;
  vm_list := String "028" "7:web" +++ LF;
  tools := guest_text "toolsOk";
  shutdown_obeyed := true;
  off_obeyed := true;
  off_visible := true;
  mm_obeyed := false;
  mm_exit_obeyed := true;
  upgrade_out := "[InstallationError]" +++ LF
|}.

(* ================================================================= *)
(** ** The scripts *)

Section Script.

Context {Host : Type}.
Variable exec : string -> Host -> string * Host.
Variable elapse : nat -> Host -> Host.

(** A script computation: result, host afterwards, trace. *)
Definition M (A : Type) : Type := Host -> res A * Host * list event.

Definition ret {A} (a : A) : M A := fun h => (Val a, h, []).

Definition bind {A B} (m : M A) (f : A -> M B) : M B := fun h =>
  match m h with
  | (Val a, h1, t1) =>
      match f a h1 with
      | (r, h2, t2) => (r, h2, t1 ++ t2)
      end
  | (Exit n, h1, t1) => (Exit n, h1, t1)
  | (Raise e, h1, t1) => (Raise e, h1, t1)
  end.

Notation "x <- m ;; k" := (bind m (fun x => k))
  (at level 61, m at next level, right associativity).
Notation "m ;; k" := (bind m (fun _ => k))
  (at level 61, right associativity).

(** A pure step that may raise. *)
Definition lift {A} (r : res A) : M A := fun h => (r, h, []).

(** [sys.exit(n)] *)
Definition sys_exit {A} (n : nat) : M A := fun h => (Exit n, h, []).

(** [sleep(n)] *)
Definition sleep (n : nat) : M unit := fun h => (Val tt, elapse n h, [Sleep n]).

(* ----------------------------------------------------------------- *)
(** *** esxi_onbox_upgrade_v4.py *)

Definition UPGRADE_FILENAME : string := "VMware-ESXi-8.0U3-24022510-depot.zip".
Definition UPGRADE_PROFILE : string := "ESXi-8.0U3-24022510-standard".
Definition MAINTENANCE_MODE_TIMEOUT : nat := 45.
Definition SHUTDOWN_TIMEOUT_PER_VM : nat := 10.

Definition sendcommand_onbox (command : string) : M string := fun h =>
  let (out, h') := exec command h in (Val out, h', [Cmd command out]).

(** The loop of [check_vmware_tools_status] over the lines of the output:
    the first line with the key decides, and [line.split("=")[1]] raises
    when that line has no [=]. *)
Fixpoint tools_status_in (lines : list string) : res (option string) :=
  match lines with
  | [] => Val None
  | line :: rest =>
      if Py.contains "toolsStatus" line then
        match item (Py.split "=" line) 1 with
        | Val field =>
            Val (Some (Py.strip (Py.remove "," (Py.remove QUOTE field))))
        | Exit n => Exit n
        | Raise e => Raise e
        end
      else tools_status_in rest
  end.

Definition check_vmware_tools_status (vmid : string) : M (option string) :=
  let cmd := "vim-cmd vmsvc/get.guest " +++ vmid in
  output <- sendcommand_onbox cmd ;;
  lift (tools_status_in (Py.splitlines output)).

Definition poweroffvm_onbox (vmid : string) : M string :=
  let cmd := "vim-cmd vmsvc/power.off " +++ vmid in
  resp <- sendcommand_onbox cmd ;;
  ret resp.

(** The loop of [getvmpowerstate_onbox] over [resp.split('\n')]. *)
Fixpoint power_state_in (lines : list string) : res string :=
  match lines with
  | [] => Val "unknown"
  | line :: rest =>
      if Py.contains "powerState" line then
        match item (Py.split "=" line) 1 with
        | Val field => Val (Py.strip (Py.remove "," (Py.remove QUOTE field)))
        | Exit n => Exit n
        | Raise e => Raise e
        end
      else power_state_in rest
  end.

Definition getvmpowerstate_onbox (vm : string) : M string :=
  let cmd := "vim-cmd vmsvc/get.summary " +++ vm in
  resp <- sendcommand_onbox cmd ;;
  lift (power_state_in (Py.split NL resp)).

(** [for _ in range(attempts)] of [graceful_shutdown_onbox], with the
    [return False] after it. *)
Fixpoint await_power_off (vmid : string) (attempts : nat) : M bool :=
  match attempts with
  | 0 => ret false
  | S n =>
      ps <- getvmpowerstate_onbox vmid ;;
      if negb (String.eqb ps "poweredOn") then ret true
      else (sleep 1 ;; await_power_off vmid n)
  end.

Definition graceful_shutdown_onbox (vmid : string) : M bool :=
  let cmd := "vim-cmd vmsvc/power.shutdown " +++ vmid in
  resp <- sendcommand_onbox cmd ;;
  await_power_off vmid SHUTDOWN_TIMEOUT_PER_VM.

(** [status and status.lower() in ("toolsok", "toolsold")] *)
Definition tools_usable (status : option string) : bool :=
  match status with
  | None => false
  | Some s =>
      Py.truthy s
      && (String.eqb (Py.lower s) "toolsok" || String.eqb (Py.lower s) "toolsold")
  end.

Definition shutdownvm_onbox (vmid : string) : M unit :=
  status <- check_vmware_tools_status vmid ;;
  if tools_usable status then
    ok <- graceful_shutdown_onbox vmid ;;
    if negb ok then (poweroffvm_onbox vmid ;; ret tt) else ret tt
  else (poweroffvm_onbox vmid ;; ret tt).

(** The loop of [getvms_onbox] over the lines, filling the dictionary. *)
Fixpoint collect_vms (lines : list string) (vms : dict string) : dict string :=
  match lines with
  | [] => vms
  | line :: rest =>
      let vmid := Py.strip line in
      if Py.isdigit vmid then collect_vms rest (dict_set vms vmid vmid)
      else collect_vms rest vms
  end.

Definition getvms_onbox : M (dict string) :=
  resp <- sendcommand_onbox "vim-cmd vmsvc/getallvms | tail -n+2 | awk '{print $1}'" ;;
  if negb (Py.truthy (Py.strip resp)) then ret []
  else ret (collect_vms (Py.split NL (Py.strip resp)) []).

(** [for i in range(attempts)] of the two branches of
    [maintenancemode_onbox], with the [return False] after it. *)
Fixpoint await_maintenance (wanted : string) (attempts : nat) : M bool :=
  match attempts with
  | 0 => ret false
  | S n =>
      out <- sendcommand_onbox "esxcli system maintenanceMode get" ;;
      let mm_status := Py.strip out in
      if String.eqb (Py.lower mm_status) wanted then ret true
      else (sleep 1 ;; await_maintenance wanted n)
  end.

Definition maintenancemode_onbox (enable : bool) : M bool :=
  if enable then
    sendcommand_onbox "esxcli system maintenanceMode set --enable true" ;;
    await_maintenance "enabled" MAINTENANCE_MODE_TIMEOUT
  else
    sendcommand_onbox "esxcli system maintenanceMode set --enable false" ;;
    await_maintenance "disabled" 5.

Definition upgradehost_onbox (full_path_to_zip : string) : M string :=
  let cmd := "esxcli software profile update -p " +++ UPGRADE_PROFILE
             +++ " -d '" +++ full_path_to_zip +++ "'" in
  resp <- sendcommand_onbox cmd ;;
  ret resp.

Definition reboothost_onbox : M nat :=
  sendcommand_onbox "reboot now" ;;
  ret 0.

Definition poweron_onbox (vm : string) : M unit :=
  let cmd := "vim-cmd vmsvc/power.on " +++ vm in
  resp <- sendcommand_onbox cmd ;;
  ret tt.

(** The text of the auto-start registration, the [format] call of [main]. *)
Definition cmd_auto_start (vmid : string) (auto_vm_power_on_sequence : nat) : string :=
  "vim-cmd hostsvc/autostartmanager/update_autostartentry " +++ vmid +++ " "
  +++ String QUOTE "PowerOn" +++ String QUOTE " "
  +++ String QUOTE "15" +++ String QUOTE " "
  +++ String QUOTE (Py.str_of_nat auto_vm_power_on_sequence) +++ String QUOTE " "
  +++ String QUOTE "systemDefault" +++ String QUOTE " "
  +++ String QUOTE "systemDefault" +++ String QUOTE " "
  +++ String QUOTE "systemDefault" +++ String QUOTE "".

(** Step 5 of [main]: [for vmid in vms], carrying
    [auto_vm_power_on_sequence]. *)
Fixpoint power_down_loop (vmids : list string) (auto_vm_power_on_sequence : nat)
  : M unit :=
  match vmids with
  | [] => ret tt
  | vmid :: rest =>
      power_state <- getvmpowerstate_onbox vmid ;;
      if String.eqb power_state "poweredOn" then
        sendcommand_onbox (cmd_auto_start vmid auto_vm_power_on_sequence) ;;
        shutdownvm_onbox vmid ;;
        power_down_loop rest (auto_vm_power_on_sequence + 1)
      else power_down_loop rest auto_vm_power_on_sequence
  end.

(** The re-power loop, written twice in [main] (after a failed entry into
    maintenance mode and after a failed upgrade): [for vmid in vms]. *)
Fixpoint repower_loop (vmids : list string) : M unit :=
  match vmids with
  | [] => ret tt
  | vmid :: rest =>
      power_state <- getvmpowerstate_onbox vmid ;;
      (if String.eqb power_state "poweredOff" then poweron_onbox vmid else ret tt) ;;
      repower_loop rest
  end.

Definition upgrade_succeeded (upgrade_resp : string) : bool :=
  Py.contains "The update completed successfully" upgrade_resp
  && Py.contains "Reboot Required: true" upgrade_resp.

Definition main : M unit :=
  out <- sendcommand_onbox "pwd" ;;
  let remotepath := Py.strip out in
  directory_contents <- sendcommand_onbox ("ls -l '" +++ remotepath +++ "'") ;;
  (if negb (Py.contains UPGRADE_FILENAME directory_contents)
   then sys_exit 1 else ret tt) ;;
  let full_path_to_zip := remotepath +++ "/" +++ UPGRADE_FILENAME in
  sendcommand_onbox "vim-cmd hostsvc/enable_ssh" ;;
  sendcommand_onbox "vim-cmd hostsvc/autostartmanager/enable_autostart 1" ;;
  vms <- getvms_onbox ;;
  sleep 1 ;;
  (match vms with
   | [] => ret tt
   | _ => power_down_loop (keys vms) 1
   end) ;;
  mm_ok <- maintenancemode_onbox true ;;
  (if negb mm_ok then (repower_loop (keys vms) ;; sys_exit 2) else ret tt) ;;
  upgrade_resp <- upgradehost_onbox full_path_to_zip ;;
  if upgrade_succeeded upgrade_resp then
    maintenancemode_onbox false ;;
    reboothost_onbox ;;
    ret tt
  else
    maintenancemode_onbox false ;;
    repower_loop (keys vms) ;;
    sys_exit 3.

(* ----------------------------------------------------------------- *)
(** *** upgrade-script.py

    The functions of the original script that its top level calls; a name
    the revised script has too carries the prefix [legacy_]. *)

(** [d[k]], raising [KeyError] on a missing key. *)
Definition subscript {V} (d : dict V) (k : string) : res V :=
  match dict_get d k with
  | Some v => Val v
  | None => Raise KeyError
  end.

(** The loop of the original [getvms_onbox]: [host] and [vmid] are both
    [i.split(':')[0]], kept when [int(vmid)] does not raise. *)
Fixpoint legacy_collect_vms (lines : list string) (vms : dict string) : dict string :=
  match lines with
  | [] => vms
  | i :: rest =>
      let host := hd EmptyString (Py.split ":" i) in
      let vmid := hd EmptyString (Py.split ":" i) in
      if Py.int_parses vmid then legacy_collect_vms rest (dict_set vms host vmid)
      else legacy_collect_vms rest vms
  end.

(** The original [getvms_onbox] returns [''] ([None] here) on an empty
    answer and a dictionary otherwise. *)
Definition legacy_getvms_onbox : M (option (dict string)) :=
  resp <- sendcommand_onbox
            ("vim-cmd vmsvc/getallvms | tail -n+2 | awk '{print $1"
             +++ String QUOTE ":" +++ String QUOTE "$2}'") ;;
  if String.eqb resp "" then ret None
  else ret (Some (legacy_collect_vms (Py.split NL resp) [])).

Definition legacy_poweroffvm_onbox (vm : string) : M string :=
  resp <- sendcommand_onbox ("vim-cmd vmsvc/power.off " +++ vm) ;;
  ret resp.

(** The original [getvmpowerstate_onbox] falls off its end, returning
    [None], when no line has the key. *)
Fixpoint legacy_power_state_in (lines : list string) : res (option string) :=
  match lines with
  | [] => Val None
  | i :: rest =>
      if Py.contains "powerState" i then
        match item (Py.split "=" i) 1 with
        | Val field =>
            Val (Some (Py.strip (Py.remove "," (Py.remove QUOTE field))))
        | Exit n => Exit n
        | Raise e => Raise e
        end
      else legacy_power_state_in rest
  end.

Definition legacy_getvmpowerstate_onbox (vm : string) : M (option string) :=
  resp <- sendcommand_onbox ("vim-cmd vmsvc/get.summary " +++ vm) ;;
  lift (legacy_power_state_in (Py.split NL resp)).

Definition legacy_upgradehost_onbox (path : string) : M unit :=
  sendcommand_onbox
    ("esxcli software profile update -p ESXi-7.0U2c-18426014-standard -d '"
     +++ path +++ "'") ;;
  ret tt.

Definition legacy_maintenancemode_onbox (state : bool) : M unit :=
  if state then
    sendcommand_onbox "esxcli system maintenanceMode set --enable true" ;; ret tt
  else
    sendcommand_onbox "esxcli system maintenanceMode set --enable false" ;; ret tt.

Definition legacy_reboothost_onbox : M nat :=
  sendcommand_onbox "reboot now" ;;
  ret 0.

(** [for i in vms: powerstate[vms[i]] = getvmpowerstate_onbox(vms[i])] *)
Fixpoint legacy_powerstate_loop (vms : dict string) (ks : list string)
    (powerstate : dict (option string)) : M (dict (option string)) :=
  match ks with
  | [] => ret powerstate
  | i :: rest =>
      vmid <- lift (subscript vms i) ;;
      ps <- legacy_getvmpowerstate_onbox vmid ;;
      legacy_powerstate_loop vms rest (dict_set powerstate vmid ps)
  end.

(** [for i in powerstate: print(powerstate[i] + "\n")]: the sum raises
    [TypeError] on [None]. *)
Fixpoint legacy_print_loop (powerstate : dict (option string)) (ks : list string)
  : M unit :=
  match ks with
  | [] => ret tt
  | i :: rest =>
      ps <- lift (subscript powerstate i) ;;
      match ps with
      | Some _ => legacy_print_loop powerstate rest
      | None => lift (Raise TypeError)
      end
  end.

(** [for index, i in enumerate(powerstate.keys())], carrying
    [auto_vm_power_on_sequence]. *)
Fixpoint legacy_power_down_loop (vms : dict string)
    (powerstate : dict (option string)) (ks : list string)
    (auto_vm_power_on_sequence : nat) : M unit :=
  match ks with
  | [] => ret tt
  | i :: rest =>
      ps <- lift (subscript powerstate i) ;;
      match ps with
      | Some "poweredOn" =>
          vmid <- lift (subscript vms i) ;;
          sendcommand_onbox (cmd_auto_start vmid auto_vm_power_on_sequence) ;;
          legacy_poweroffvm_onbox i ;;
          legacy_power_down_loop vms powerstate rest (auto_vm_power_on_sequence + 1)
      | _ => legacy_power_down_loop vms powerstate rest auto_vm_power_on_sequence
      end
  end.

Definition legacy_main : M unit :=
  out <- sendcommand_onbox "pwd" ;;
  let remotepath := Py.rstrip out in
  let remotepath := "'" +++ remotepath +++ "/'" in
  let file_name := "VMware-ESXi-7.0U2c-18426014-depot.zip" in
  directory_contents <- sendcommand_onbox ("ls -l " +++ remotepath) ;;
  (if Py.contains file_name directory_contents then ret tt else sys_exit 0) ;;
  let remotepath := Py.rstrip_char APOSTROPHE remotepath in
  let remotepath := Py.strip_char APOSTROPHE remotepath in
  let remotepath := remotepath +++ file_name in
  sendcommand_onbox "vim-cmd hostsvc/enable_ssh" ;;
  sendcommand_onbox "vim-cmd hostsvc/autostartmanager/enable_autostart 1" ;;
  vms <- legacy_getvms_onbox ;;
  sleep 1 ;;
  powerstate <-
    match vms with
    | None => ret []
    | Some d =>
        powerstate <- legacy_powerstate_loop d (keys d) [] ;;
        legacy_print_loop powerstate (keys powerstate) ;;
        ret powerstate
    end ;;
  sleep 1 ;;
  match vms with
  | None => ret tt
  | Some d => legacy_power_down_loop d powerstate (keys powerstate) 1
  end ;;
  sleep 1 ;;
  legacy_maintenancemode_onbox true ;;
  sleep 1 ;;
  legacy_upgradehost_onbox remotepath ;;
  legacy_maintenancemode_onbox false ;;
  legacy_reboothost_onbox ;;
  ret tt.

(* ----------------------------------------------------------------- *)
(** *** Reading a run *)

Definition outcome {A} (x : res A * Host * list event) : res A := fst (fst x).
Definition final {A} (x : res A * Host * list event) : Host := snd (fst x).
Definition trace {A} (x : res A * Host * list event) : list event := snd x.

Arguments outcome {A} x : simpl never.
Arguments final {A} x : simpl never.
Arguments trace {A} x : simpl never.

Definition raised {A} (r : res A) : bool :=
  match r with Raise _ => true | _ => false end.

(** The commands of a trace, in order. *)
Definition commands (t : list event) : list string :=
  flat_map (fun e => match e with Cmd c _ => [c] | Sleep _ => [] end) t.

(** What the host answered to the command [c], in order. *)
Definition answers (c : string) (t : list event) : list string :=
  flat_map (fun e => match e with
                     | Cmd c' o => if String.eqb c' c then [o] else []
                     | Sleep _ => []
                     end) t.

Definition issued (c : string) (t : list event) : Prop := In c (commands t).

Fixpoint last_opt {A} (l : list A) : option A :=
  match l with
  | [] => None
  | [x] => Some x
  | _ :: r => last_opt r
  end.

(** The texts of the commands. *)
Definition summary_cmd (v : string) : string := "vim-cmd vmsvc/get.summary " +++ v.
Definition guest_cmd (v : string) : string := "vim-cmd vmsvc/get.guest " +++ v.
Definition shutdown_cmd (v : string) : string := "vim-cmd vmsvc/power.shutdown " +++ v.
Definition poweroff_cmd (v : string) : string := "vim-cmd vmsvc/power.off " +++ v.
Definition poweron_cmd (v : string) : string := "vim-cmd vmsvc/power.on " +++ v.
Definition getallvms_cmd : string :=
  "vim-cmd vmsvc/getallvms | tail -n+2 | awk '{print $1}'".
Definition ls_cmd (remotepath : string) : string := "ls -l '" +++ remotepath +++ "'".
Definition mm_enable_cmd : string := "esxcli system maintenanceMode set --enable true".
Definition mm_disable_cmd : string := "esxcli system maintenanceMode set --enable false".
Definition mm_get_cmd : string := "esxcli system maintenanceMode get".
Definition reboot_cmd : string := "reboot now".
Definition upgrade_cmd (full_path_to_zip : string) : string :=
  "esxcli software profile update -p " +++ UPGRADE_PROFILE
  +++ " -d '" +++ full_path_to_zip +++ "'".

Definition is_upgrade_cmd (c : string) : bool :=
  Py.startswith "esxcli software profile update " c.
Definition is_autostart_cmd (c : string) : bool :=
  Py.startswith "vim-cmd hostsvc/autostartmanager/update_autostartentry " c.
Definition is_poweron_cmd (c : string) : bool :=
  Py.startswith "vim-cmd vmsvc/power.on " c.

(** The commands that shut a workload down, enter or leave maintenance
    mode, upgrade or reboot. *)
Definition is_risky_cmd (c : string) : bool :=
  Py.startswith "vim-cmd vmsvc/power.shutdown " c
  || Py.startswith "vim-cmd vmsvc/power.off " c
  || Py.startswith "esxcli system maintenanceMode set " c
  || is_upgrade_cmd c
  || String.eqb c reboot_cmd.

(** The answers of the upgrade command. *)
Definition upgrade_answers (t : list event) : list string :=
  flat_map (fun e => match e with
                     | Cmd c o => if is_upgrade_cmd c then [o] else []
                     | Sleep _ => []
                     end) t.

(** What [getvmpowerstate_onbox] and [check_vmware_tools_status] make of an
    answer. *)
Definition power_state_of (answer : string) : res string :=
  power_state_in (Py.split NL answer).
Definition tools_status_of (answer : string) : res (option string) :=
  tools_status_in (Py.splitlines answer).

(** The first and the last power state read for a workload in a trace. *)
Definition first_reading (v : string) (t : list event) : option (res string) :=
  option_map power_state_of (hd_error (answers (summary_cmd v) t)).
Definition last_reading (v : string) (t : list event) : option (res string) :=
  option_map power_state_of (last_opt (answers (summary_cmd v) t)).

Definition reads (s : string) (r : option (res string)) : bool :=
  match r with
  | Some (Val s') => String.eqb s' s
  | _ => false
  end.

(** The dictionary [getvms_onbox] builds from the answer of the
    enumeration. *)
Definition vms_of (resp : string) : dict string :=
  if negb (Py.truthy (Py.strip resp)) then []
  else collect_vms (Py.split NL (Py.strip resp)) [].

(** The workloads of a run, in discovery order: the keys of the dictionary
    built from the enumeration the trace records. *)
Definition discovered (t : list event) : list string :=
  match answers getallvms_cmd t with
  | resp :: _ => keys (vms_of resp)
  | [] => []
  end.

(** The restore set of a run: the discovered workloads whose first power
    state read in the run, the one of step 5 of [main], is [poweredOn]. *)
Definition restore_set (t : list event) : list string :=
  filter (fun v => reads "poweredOn" (first_reading v t)) (discovered t).

(** Entry into maintenance mode was requested and no poll of the run
    answered [enabled]. *)
Definition mm_entry_timed_out (t : list event) : bool :=
  existsb (String.eqb mm_enable_cmd) (commands t)
  && forallb (fun o => negb (String.eqb (Py.lower (Py.strip o)) "enabled"))
       (answers mm_get_cmd t).


(** [e] comes before every event of [t] that satisfies [Q]. *)
Definition preceded_by (P Q : event -> Prop) (t : list event) : Prop :=
  forall pre e post, t = pre ++ e :: post -> Q e ->
    exists e', In e' pre /\ P e'.

(** The directory listing [main] looks the package up in. *)
Definition listing_of (h0 : Host) : string :=
  let (out, h1) := exec "pwd" h0 in
  fst (exec (ls_cmd (Py.strip out)) h1).

(** The same for the original script. *)
Definition legacy_listing_of (h0 : Host) : string :=
  let (out, h1) := exec "pwd" h0 in
  fst (exec ("ls -l " +++ "'" +++ Py.rstrip out +++ "/'") h1).

(** What [main] ends with after the re-power loop: [sys.exit(n)] when the
    loop came to its end. *)
Definition then_exit (r : res unit) (n : nat) : res unit :=
  match r with
  | Val _ => Exit n
  | Exit k => Exit k
  | Raise e => Raise e
  end.

(** The events of the three phases of [main]. *)
Inductive down_event (vms : list string) : event -> Prop :=
| down_summary v o : In v vms -> down_event vms (Cmd (summary_cmd v) o)
| down_autostart v n o : In v vms -> down_event vms (Cmd (cmd_auto_start v n) o)
| down_guest v o : In v vms -> down_event vms (Cmd (guest_cmd v) o)
| down_shutdown v o : In v vms -> down_event vms (Cmd (shutdown_cmd v) o)
| down_off v o : In v vms -> down_event vms (Cmd (poweroff_cmd v) o)
| down_sleep : down_event vms (Sleep 1).

Inductive mm_event : bool -> event -> Prop :=
| mm_enable o : mm_event true (Cmd mm_enable_cmd o)
| mm_disable o : mm_event false (Cmd mm_disable_cmd o)
| mm_get enable o : mm_event enable (Cmd mm_get_cmd o)
| mm_sleep enable : mm_event enable (Sleep 1).

Inductive repower_event (vms : list string) : event -> Prop :=
| repower_summary v o : In v vms -> repower_event vms (Cmd (summary_cmd v) o)
| repower_on v o : In v vms -> repower_event vms (Cmd (poweron_cmd v) o).

(** The first steps of [main], up to the [sleep(1)] after the enumeration:
    the path of the package, the dictionary, the host and the trace. *)
Inductive prologue (h0 : Host) : string -> dict string -> Host -> list event -> Prop :=
| prologue_intro out h1 listing h2 o3 h3 o4 h4 resp h5 :
    exec "pwd" h0 = (out, h1) ->
    exec (ls_cmd (Py.strip out)) h1 = (listing, h2) ->
    Py.contains UPGRADE_FILENAME listing = true ->
    exec "vim-cmd hostsvc/enable_ssh" h2 = (o3, h3) ->
    exec "vim-cmd hostsvc/autostartmanager/enable_autostart 1" h3 = (o4, h4) ->
    exec getallvms_cmd h4 = (resp, h5) ->
    prologue h0 (Py.strip out +++ "/" +++ UPGRADE_FILENAME) (vms_of resp)
      (elapse 1 h5)
      [Cmd "pwd" out; Cmd (ls_cmd (Py.strip out)) listing;
       Cmd "vim-cmd hostsvc/enable_ssh" o3;
       Cmd "vim-cmd hostsvc/autostartmanager/enable_autostart 1" o4;
       Cmd getallvms_cmd resp; Sleep 1].

(** The five ways through [main]. *)
Inductive main_path (h0 : Host) : res unit * Host * list event -> Prop :=
| path_no_package out h1 listing h2 :
    exec "pwd" h0 = (out, h1) ->
    exec (ls_cmd (Py.strip out)) h1 = (listing, h2) ->
    Py.contains UPGRADE_FILENAME listing = false ->
    main_path h0 (Exit 1, h2, [Cmd "pwd" out; Cmd (ls_cmd (Py.strip out)) listing])
| path_power_down_raises path vms h t e hd td :
    prologue h0 path vms h t ->
    power_down_loop (keys vms) 1 h = (Raise e, hd, td) ->
    main_path h0 (Raise e, hd, t ++ td)
| path_no_maintenance path vms h t hd td he te rr hr tr :
    prologue h0 path vms h t ->
    power_down_loop (keys vms) 1 h = (Val tt, hd, td) ->
    maintenancemode_onbox true hd = (Val false, he, te) ->
    repower_loop (keys vms) he = (rr, hr, tr) ->
    main_path h0 (then_exit rr 2, hr, t ++ td ++ te ++ tr)
| path_reboot path vms h t hd td he te uout hu b hx tx ro hz :
    prologue h0 path vms h t ->
    power_down_loop (keys vms) 1 h = (Val tt, hd, td) ->
    maintenancemode_onbox true hd = (Val true, he, te) ->
    exec (upgrade_cmd path) he = (uout, hu) ->
    upgrade_succeeded uout = true ->
    maintenancemode_onbox false hu = (Val b, hx, tx) ->
    exec reboot_cmd hx = (ro, hz) ->
    main_path h0 (Val tt, hz,
                  t ++ td ++ te ++ [Cmd (upgrade_cmd path) uout] ++ tx
                    ++ [Cmd reboot_cmd ro])
| path_rollback path vms h t hd td he te uout hu b hx tx rr hr tr :
    prologue h0 path vms h t ->
    power_down_loop (keys vms) 1 h = (Val tt, hd, td) ->
    maintenancemode_onbox true hd = (Val true, he, te) ->
    exec (upgrade_cmd path) he = (uout, hu) ->
    upgrade_succeeded uout = false ->
    maintenancemode_onbox false hu = (Val b, hx, tx) ->
    repower_loop (keys vms) hx = (rr, hr, tr) ->
    main_path h0 (then_exit rr 3, hr,
                  t ++ td ++ te ++ [Cmd (upgrade_cmd path) uout] ++ tx ++ tr).

(** [ons] polls that read [poweredOn], each followed by its sleep. *)
Definition polls_on (v : string) (ons : list string) : list event :=
  flat_map (fun a => [Cmd (summary_cmd v) a; Sleep 1]) ons.

(** The three ways the wait can end, with the trace of each. *)
Inductive await_end (v : string) (n : nat) (ons : list string)
  : res bool -> list event -> Prop :=
| await_exhausted :
    length ons = n -> await_end v n ons (Val false) []
| await_observed a s :
    length ons < n -> power_state_of a = Val s -> s <> "poweredOn" ->
    await_end v n ons (Val true) [Cmd (summary_cmd v) a]
| await_raised a :
    length ons < n -> power_state_of a = Raise IndexError ->
    await_end v n ons (Raise IndexError) [Cmd (summary_cmd v) a].

(** Polls of the maintenance state that missed, each with its sleep. *)
Definition mm_misses (misses : list string) : list event :=
  flat_map (fun a => [Cmd mm_get_cmd a; Sleep 1]) misses.

(** The two ways the wait for the maintenance state can end. *)
Inductive mm_end (wanted : string) (n : nat) (misses : list string)
  : res bool -> list event -> Prop :=
| mm_exhausted :
    length misses = n -> mm_end wanted n misses (Val false) []
| mm_observed a :
    length misses < n -> Py.lower (Py.strip a) = wanted ->
    mm_end wanted n misses (Val true) [Cmd mm_get_cmd a].

(** Every power-on of a trace comes right after a reading of
    [poweredOff] for the same workload. *)
Definition guarded (t : list event) : Prop :=
  forall pre v o post, t = pre ++ Cmd (poweron_cmd v) o :: post ->
    exists pre' out, pre = pre' ++ [Cmd (summary_cmd v) out]
                     /\ power_state_of out = Val "poweredOff".

(** The events of [shutdownvm_onbox] for one workload. *)
Inductive quiesce_event (v : string) : event -> Prop :=
| quiesce_guest o : quiesce_event v (Cmd (guest_cmd v) o)
| quiesce_shutdown o : quiesce_event v (Cmd (shutdown_cmd v) o)
| quiesce_summary o : quiesce_event v (Cmd (summary_cmd v) o)
| quiesce_off o : quiesce_event v (Cmd (poweroff_cmd v) o)
| quiesce_sleep : quiesce_event v (Sleep 1).

(** The auto-start registration of a workload, and the commands that shut
    it down: the query of its tools status, with which [shutdownvm_onbox]
    begins, the graceful request and the forced power-off. *)
Definition registers (v : string) (e : event) : Prop :=
  exists n o, e = Cmd (cmd_auto_start v n) o.

Definition quiesces (v : string) (e : event) : Prop :=
  exists o, e = Cmd (guest_cmd v) o \/ e = Cmd (shutdown_cmd v) o
            \/ e = Cmd (poweroff_cmd v) o.

(** The auto-start registrations of a trace, in order. *)
Definition registrations (t : list event) : list string :=
  flat_map (fun e => match e with
                     | Cmd c _ => if is_autostart_cmd c then [c] else []
                     | Sleep _ => []
                     end) t.

(** The registrations that give the workloads [vs] the priorities [n],
    [n+1], ... in this order. *)
Definition registrations_from (vs : list string) (n : nat) : list string :=
  map (fun p => cmd_auto_start (fst p) (snd p)) (combine vs (seq n (length vs))).

(** The workloads of [vs] whose first reading in [t] is [poweredOn]. *)
Definition found_on (vs : list string) (t : list event) : list string :=
  filter (fun v => reads "poweredOn" (first_reading v t)) vs.

(** The events of the first steps of [main]. *)
Inductive prologue_event : event -> Prop :=
| prologue_pwd o : prologue_event (Cmd "pwd" o)
| prologue_ls remotepath o : prologue_event (Cmd (ls_cmd remotepath) o)
| prologue_ssh o : prologue_event (Cmd "vim-cmd hostsvc/enable_ssh" o)
| prologue_autostart o :
    prologue_event (Cmd "vim-cmd hostsvc/autostartmanager/enable_autostart 1" o)
| prologue_getallvms o : prologue_event (Cmd getallvms_cmd o)
| prologue_sleep : prologue_event (Sleep 1).

(** The upgrade and the reboot. *)
Inductive upgrade_event : event -> Prop :=
| upgrade_intro path o : upgrade_event (Cmd (upgrade_cmd path) o).

Inductive reboot_event : event -> Prop :=
| reboot_intro o : reboot_event (Cmd reboot_cmd o).

(** [P] of a run that continues a trace [t1]. *)
Definition continued (P : res unit * Host * list event -> Prop)
    (t1 : list event) : res unit * Host * list event -> Prop :=
  fun x => P (outcome x, final x, t1 ++ trace x).

(** The first occurrences of the elements of a list, in order. *)
Fixpoint first_occurrences (l : list string) : list string :=
  match l with
  | [] => []
  | x :: r => x :: filter (fun y => negb (String.eqb y x)) (first_occurrences r)
  end.

(** [y] is not among [seen]. *)
Definition unseen (seen : list string) (y : string) : bool :=
  negb (existsb (String.eqb y) seen).

(** The identifiers an enumeration answer offers: its lines, stripped, that
    [isdigit] accepts. *)
Definition offered_ids (resp : string) : list string :=
  filter Py.isdigit (map Py.strip (Py.split NL (Py.strip resp))).

(** Whether the character [c] occurs in [s]. *)
Fixpoint has_char (c : ascii) (s : string) : bool :=
  match s with
  | EmptyString => false
  | String d r => Ascii.eqb d c || has_char c r
  end.

(** A value as the two readers return it: trimmed, without double quote
    and without comma. *)
Definition clean_value (s : string) : Prop :=
  Py.strip s = s /\ has_char QUOTE s = false /\ has_char "," s = false.

(** [s] does not begin with a blank. *)
Definition starts_clean (s : string) : bool :=
  match s with
  | EmptyString => true
  | String c _ => negb (Py.isspace c)
  end.

(** What the two readers make of the first line that has the key: the
    text between the first and the second [=], without quotes and commas,
    trimmed; or [IndexError] when the line has no [=]. *)
Definition field_of (line : string) : res string :=
  match nth_error (Py.split "=" line) 1 with
  | Some field => Val (Py.strip (Py.remove "," (Py.remove QUOTE field)))
  | None => Raise IndexError
  end.

(** The number of sleeps of a trace. *)
Definition sleeps (t : list event) : nat :=
  length (filter (fun e => match e with Sleep _ => true | Cmd _ _ => false end) t).

(** [e] is an upgrade command. *)
Definition upgrades (e : event) : Prop :=
  exists c o, e = Cmd c o /\ is_upgrade_cmd c = true.

(** The package and the commands of the original script. *)
Definition legacy_file_name : string := "VMware-ESXi-7.0U2c-18426014-depot.zip".
Definition legacy_getallvms_cmd : string :=
  "vim-cmd vmsvc/getallvms | tail -n+2 | awk '{print $1"
  +++ String QUOTE ":" +++ String QUOTE "$2}'".
Definition legacy_ls_cmd (out : string) : string :=
  "ls -l " +++ "'" +++ Py.rstrip out +++ "/'".
Definition legacy_upgrade_cmd (path : string) : string :=
  "esxcli software profile update -p ESXi-7.0U2c-18426014-standard -d '"
  +++ path +++ "'".
Definition is_poweroff_cmd (c : string) : bool :=
  Py.startswith "vim-cmd vmsvc/power.off " c.

(** The path the original script upgrades from, made of the answer of
    [pwd]: quoted for the listing, then unquoted by the two strips. *)
Definition legacy_path_of (out : string) : string :=
  Py.strip_char APOSTROPHE
    (Py.rstrip_char APOSTROPHE ("'" +++ Py.rstrip out +++ "/'"))
  +++ legacy_file_name.

(** What the original [getvms_onbox] and [getvmpowerstate_onbox] make of
    an answer. *)
Definition legacy_vms_of (resp : string) : option (dict string) :=
  if String.eqb resp "" then None
  else Some (legacy_collect_vms (Py.split NL resp) []).
Definition legacy_power_state_of (answer : string) : res (option string) :=
  legacy_power_state_in (Py.split NL answer).

(** The two steps of the original top level that go through the
    workloads: the readings with their printing, and the power-off. *)
Definition legacy_read_phase (vms : option (dict string))
  : M (dict (option string)) :=
  match vms with
  | None => ret []
  | Some d =>
      powerstate <- legacy_powerstate_loop d (keys d) [] ;;
      legacy_print_loop powerstate (keys powerstate) ;;
      ret powerstate
  end.

Definition legacy_down_phase (vms : option (dict string))
    (powerstate : dict (option string)) : M unit :=
  match vms with
  | None => ret tt
  | Some d => legacy_power_down_loop d powerstate (keys powerstate) 1
  end.

(** The first steps of the original top level, up to the [sleep(1)] after
    the enumeration. *)
Inductive legacy_prologue (h0 : Host)
  : string -> option (dict string) -> Host -> list event -> Prop :=
| legacy_prologue_intro out h1 listing h2 o3 h3 o4 h4 resp h5 :
    exec "pwd" h0 = (out, h1) ->
    exec (legacy_ls_cmd out) h1 = (listing, h2) ->
    Py.contains legacy_file_name listing = true ->
    exec "vim-cmd hostsvc/enable_ssh" h2 = (o3, h3) ->
    exec "vim-cmd hostsvc/autostartmanager/enable_autostart 1" h3 = (o4, h4) ->
    exec legacy_getallvms_cmd h4 = (resp, h5) ->
    legacy_prologue h0 (legacy_path_of out) (legacy_vms_of resp) (elapse 1 h5)
      [Cmd "pwd" out; Cmd (legacy_ls_cmd out) listing;
       Cmd "vim-cmd hostsvc/enable_ssh" o3;
       Cmd "vim-cmd hostsvc/autostartmanager/enable_autostart 1" o4;
       Cmd legacy_getallvms_cmd resp; Sleep 1].

(** Its last steps: maintenance mode, the upgrade, the reboot. *)
Inductive legacy_epilogue (path : string) (h : Host)
  : Host -> list event -> Prop :=
| legacy_epilogue_intro o1 h1 o2 h2 o3 h3 o4 h4 :
    exec mm_enable_cmd (elapse 1 h) = (o1, h1) ->
    exec (legacy_upgrade_cmd path) (elapse 1 h1) = (o2, h2) ->
    exec mm_disable_cmd h2 = (o3, h3) ->
    exec reboot_cmd h3 = (o4, h4) ->
    legacy_epilogue path h h4
      [Sleep 1; Cmd mm_enable_cmd o1; Sleep 1;
       Cmd (legacy_upgrade_cmd path) o2; Cmd mm_disable_cmd o3;
       Cmd reboot_cmd o4].

(** The three ways through the original top level. *)
Inductive legacy_path (h0 : Host) : res unit * Host * list event -> Prop :=
| legacy_no_package out h1 listing h2 :
    exec "pwd" h0 = (out, h1) ->
    exec (legacy_ls_cmd out) h1 = (listing, h2) ->
    Py.contains legacy_file_name listing = false ->
    legacy_path h0 (Exit 0, h2, [Cmd "pwd" out; Cmd (legacy_ls_cmd out) listing])
| legacy_reading_raises path vms h t e hp tp :
    legacy_prologue h0 path vms h t ->
    legacy_read_phase vms h = (Raise e, hp, tp) ->
    legacy_path h0 (Raise e, hp, t ++ tp)
| legacy_completes path vms h t ps hp tp hd td hz te :
    legacy_prologue h0 path vms h t ->
    legacy_read_phase vms h = (Val ps, hp, tp) ->
    legacy_down_phase vms ps (elapse 1 hp) = (Val tt, hd, td) ->
    legacy_epilogue path hd hz te ->
    legacy_path h0 (Val tt, hz, t ++ tp ++ [Sleep 1] ++ td ++ te).

(** The events of the phases of the original top level. *)
Inductive legacy_prologue_event : event -> Prop :=
| legacy_event_pwd o : legacy_prologue_event (Cmd "pwd" o)
| legacy_event_ls out o : legacy_prologue_event (Cmd (legacy_ls_cmd out) o)
| legacy_event_ssh o : legacy_prologue_event (Cmd "vim-cmd hostsvc/enable_ssh" o)
| legacy_event_autostart o :
    legacy_prologue_event
      (Cmd "vim-cmd hostsvc/autostartmanager/enable_autostart 1" o)
| legacy_event_getallvms o : legacy_prologue_event (Cmd legacy_getallvms_cmd o)
| legacy_event_sleep : legacy_prologue_event (Sleep 1).

Inductive legacy_read_event (vms : list string) : event -> Prop :=
| legacy_event_summary v o :
    In v vms -> legacy_read_event vms (Cmd (summary_cmd v) o).

Inductive legacy_down_event (vms : list string) : event -> Prop :=
| legacy_event_register v n o :
    In v vms -> legacy_down_event vms (Cmd (cmd_auto_start v n) o)
| legacy_event_off v o :
    In v vms -> legacy_down_event vms (Cmd (poweroff_cmd v) o).

Inductive legacy_epilogue_event : event -> Prop :=
| legacy_event_mm_enable o : legacy_epilogue_event (Cmd mm_enable_cmd o)
| legacy_event_upgrade path o : legacy_epilogue_event (Cmd (legacy_upgrade_cmd path) o)
| legacy_event_mm_disable o : legacy_epilogue_event (Cmd mm_disable_cmd o)
| legacy_event_reboot o : legacy_epilogue_event (Cmd reboot_cmd o)
| legacy_event_pause : legacy_epilogue_event (Sleep 1).

(** Whether the original script read [poweredOn] for a key of its table. *)
Definition legacy_on (powerstate : dict (option string)) (k : string) : bool :=
  match dict_get powerstate k with
  | Some (Some s) => String.eqb s "poweredOn"
  | _ => false
  end.

(** The same read off a trace: the first answer to the summary of [v]. *)
Definition legacy_reads_on (v : string) (t : list event) : bool :=
  match hd_error (answers (summary_cmd v) t) with
  | Some a =>
      match legacy_power_state_of a with
      | Val (Some s) => String.eqb s "poweredOn"
      | _ => false
      end
  | None => false
  end.

(** The workloads of a run of the original script, in discovery order. *)
Definition legacy_discovered (t : list event) : list string :=
  match answers legacy_getallvms_cmd t with
  | resp :: _ =>
      match legacy_vms_of resp with
      | Some d => keys d
      | None => []
      end
  | [] => []
  end.

(** What the original power-off loop sends for the workloads [vs]: for
    each its registration, with the priorities [n], [n+1], ..., and then its
    power-off. *)
Definition legacy_down_commands (vs : list string) (n : nat) : list string :=
  flat_map (fun p => [cmd_auto_start (fst p) (snd p); poweroff_cmd (fst p)])
    (combine vs (seq n (length vs))).

(** Every key of the dictionary is mapped to itself. *)
Definition self_keyed (d : dict string) : Prop :=
  forall k v, In (k, v) d -> v = k.

(** The table of the original script has a power state for [k]. *)
Definition legacy_known (powerstate : dict (option string)) (k : string) : bool :=
  match dict_get powerstate k with
  | Some (Some _) => true
  | _ => false
  end.

(** The keys the loops of the original top level go through. *)
Definition workloads_of (vms : option (dict string)) : list string :=
  match vms with
  | Some d => keys d
  | None => []
  end.


(** The loop of [getvms] of the original script, the variant that is given
    a host object: the name is [i.split(':')[1]] and the identifier
    [i.split(':')[0]]; only [int(vmid)] is inside the [try], so a line
    without colon raises [IndexError]. *)
Fixpoint getvms_loop (lines : list string) (vms : dict string) : res (dict string) :=
  match lines with
  | [] => Val vms
  | i :: rest =>
      match item (Py.split ":" i) 1 with
      | Val host =>
          let vmid := hd EmptyString (Py.split ":" i) in
          if Py.int_parses vmid then getvms_loop rest (dict_set vms host vmid)
          else getvms_loop rest vms
      | Exit n => Exit n
      | Raise e => Raise e
      end
  end.

(** [getvms(host)]: [send_command] is the method of the host object, called
    once; the result is [''] ([None] here) or the dictionary. *)
Definition getvms (send_command : string -> string) : res (option (dict string)) :=
  let resp := send_command legacy_getallvms_cmd in
  if String.eqb resp "" then Val None
  else match getvms_loop (Py.split NL resp) [] with
       | Val vms => Val (Some vms)
       | Exit n => Exit n
       | Raise e => Raise e
       end.


(** The commands of [main] that name no workload; [out] is the answer of
    [pwd], the one text of the host that gets into a command. *)
Inductive host_cmd (out : string) : string -> Prop :=
| host_pwd : host_cmd out "pwd"
| host_ls : host_cmd out (ls_cmd (Py.strip out))
| host_ssh : host_cmd out "vim-cmd hostsvc/enable_ssh"
| host_autostart :
    host_cmd out "vim-cmd hostsvc/autostartmanager/enable_autostart 1"
| host_getallvms : host_cmd out getallvms_cmd
| host_mm_enable : host_cmd out mm_enable_cmd
| host_mm_disable : host_cmd out mm_disable_cmd
| host_mm_get : host_cmd out mm_get_cmd
| host_upgrade :
    host_cmd out (upgrade_cmd (Py.strip out +++ "/" +++ UPGRADE_FILENAME))
| host_reboot : host_cmd out reboot_cmd.

(** The commands of [main] that name the workload [v]. *)
Inductive workload_cmd (v : string) : string -> Prop :=
| workload_summary : workload_cmd v (summary_cmd v)
| workload_register n : workload_cmd v (cmd_auto_start v n)
| workload_guest : workload_cmd v (guest_cmd v)
| workload_shutdown : workload_cmd v (shutdown_cmd v)
| workload_off : workload_cmd v (poweroff_cmd v)
| workload_on : workload_cmd v (poweron_cmd v).

(** An event of [main]: a sleep, a command of the host, or a command for
    one of the workloads [vs]. *)
Definition known (out : string) (vs : list string) (e : event) : Prop :=
  match e with
  | Cmd c _ => host_cmd out c \/ exists v, In v vs /\ workload_cmd v c
  | Sleep _ => True
  end.

(** Reading a registration back from its text, independently of how the
    scripts format it.  [number_of s] is the number a non-empty string of
    decimal digits writes. *)
Fixpoint decimal_value (acc : nat) (s : string) : option nat :=
  match s with
  | EmptyString => Some acc
  | String c r =>
      if Py.isdecimal_char c then decimal_value (10 * acc + (Py.code c - 48)) r
      else None
  end.

Definition number_of (s : string) : option nat :=
  match s with
  | EmptyString => None
  | _ => decimal_value 0 s
  end.

(** The priority a registration writes: the number between the fifth and
    the sixth double quote of the command. *)
Definition registered_priority (c : string) : option nat :=
  match nth_error (Py.split QUOTE c) 5 with
  | Some p => number_of p
  | None => None
  end.

(** The pieces of a registration of the workload [v] between its double
    quotes, the priority being written [p]. *)
Definition registration_fields (v p : string) : list string :=
  ["vim-cmd hostsvc/autostartmanager/update_autostartentry " +++ v +++ " ";
   "PowerOn"; " "; "15"; " "; p; " ";
   "systemDefault"; " "; "systemDefault"; " "; "systemDefault"; EmptyString].

Definition same_fields (l1 l2 : list string) : bool :=
  if list_eq_dec string_dec l1 l2 then true else false.

(** The command [c] registers the workload [v] with the priority [n]. *)
Definition registration_of (c v : string) (n : nat) : bool :=
  match nth_error (Py.split QUOTE c) 5 with
  | Some p =>
      same_fields (Py.split QUOTE c) (registration_fields v p)
      && match number_of p with
         | Some m => m =? n
         | None => false
         end
  | None => false
  end.

(** The pieces [l] with [sep] between them. *)
Fixpoint join (sep : ascii) (l : list string) : string :=
  match l with
  | [] => EmptyString
  | [x] => x
  | x :: r => x +++ String sep (join sep r)
  end.

(** The workloads of a run of the original script whose summary read
    [poweredOn], in discovery order. *)
Definition legacy_found_on (t : list event) : list string :=
  filter (fun v => legacy_reads_on v t) (legacy_discovered t).

(* ================================================================= *)
(** ** Properties *)

(* ----------------------------------------------------------------- *)
(** *** Lists and traces *)

Lemma commands_app t1 t2 : commands (t1 ++ t2) = commands t1 ++ commands t2.
Proof. apply flat_map_app. Qed.

Lemma answers_app c t1 t2 : answers c (t1 ++ t2) = answers c t1 ++ answers c t2.
Proof. apply flat_map_app. Qed.

Lemma upgrade_answers_app t1 t2 :
  upgrade_answers (t1 ++ t2) = upgrade_answers t1 ++ upgrade_answers t2.
Proof. apply flat_map_app. Qed.

Lemma issued_app c t1 t2 : issued c (t1 ++ t2) <-> issued c t1 \/ issued c t2.
Proof. unfold issued. rewrite commands_app. apply in_app_iff. Qed.

Lemma issued_cmd c o t : In (Cmd c o) t -> issued c t.
Proof.
  unfold issued, commands. intros H. apply in_flat_map.
  exists (Cmd c o). split; [assumption | left; reflexivity].
Qed.

Lemma issued_inv c t : issued c t -> exists o, In (Cmd c o) t.
Proof.
  unfold issued, commands. intros H. apply in_flat_map in H.
  destruct H as [[c' o|n] [Hin Hc]]; simpl in Hc; [|contradiction].
  destruct Hc as [<-|[]]. exists o. assumption.
Qed.

Lemma in_answers c o t : In o (answers c t) <-> In (Cmd c o) t.
Proof.
  unfold answers. rewrite in_flat_map. split.
  - intros [[c' o'|n] [Hin Ho]]; simpl in Ho; [|contradiction].
    destruct (String.eqb_spec c' c) as [->|]; [|contradiction].
    destruct Ho as [<-|[]]. assumption.
  - intros Hin. exists (Cmd c o). split; [assumption|].
    simpl. rewrite String.eqb_refl. left; reflexivity.
Qed.

Lemma last_opt_snoc {A} (l : list A) x : last_opt (l ++ [x]) = Some x.
Proof.
  induction l as [|y l IH]; [reflexivity|].
  simpl. rewrite IH. destruct (l ++ [x]) eqn:E; [|reflexivity].
  destruct l; discriminate.
Qed.

Lemma last_opt_app {A} (l1 l2 : list A) :
  l2 <> [] -> last_opt (l1 ++ l2) = last_opt l2.
Proof.
  intros H. destruct (exists_last H) as [l [x ->]].
  rewrite app_assoc, !last_opt_snoc. reflexivity.
Qed.

(** A property of all events of a trace empties a projection that no such
    event feeds. *)
Lemma flat_map_nil_on {B} (P : event -> Prop) (f : event -> list B) t :
  Forall P t -> (forall e, P e -> f e = []) -> flat_map f t = [].
Proof.
  intros Ht Hf. induction Ht as [|e t He _ IH]; [reflexivity|].
  simpl. rewrite (Hf e He), IH. reflexivity.
Qed.

(** Where an event of [t1 ++ t2] sits. *)
Lemma app_eq_mid {A} (t1 t2 pre post : list A) (e : A) :
  t1 ++ t2 = pre ++ e :: post ->
  (exists mid, t1 = pre ++ e :: mid /\ post = mid ++ t2)
  \/ (exists mid, pre = t1 ++ mid /\ t2 = mid ++ e :: post).
Proof.
  revert pre. induction t1 as [|x t1 IH]; intros pre H.
  - right. exists pre. split; [reflexivity | exact H].
  - destruct pre as [|y pre]; simpl in H; injection H as -> H.
    + left. exists t1. split; [reflexivity | symmetry; exact H].
    + destruct (IH pre H) as [[mid [-> ->]]|[mid [-> ->]]].
      * left. exists mid. split; reflexivity.
      * right. exists mid. split; reflexivity.
Qed.

Lemma preceded_by_app P Q t1 t2 :
  preceded_by P Q t1 -> preceded_by P Q t2 -> preceded_by P Q (t1 ++ t2).
Proof.
  intros H1 H2 pre e post Heq HQ.
  destruct (app_eq_mid _ _ _ _ _ Heq) as [[mid [E1 _]]|[mid [-> E2]]].
  - exact (H1 _ _ _ E1 HQ).
  - destruct (H2 _ _ _ E2 HQ) as [e' [Hin HP]].
    exists e'. split; [apply in_or_app; right; exact Hin | exact HP].
Qed.

Lemma preceded_by_none P Q t :
  Forall (fun e => ~ Q e) t -> preceded_by P Q t.
Proof.
  intros H pre e post -> HQ. rewrite Forall_forall in H.
  exfalso. apply (H e); [apply in_or_app; right; left; reflexivity | exact HQ].
Qed.

(* ----------------------------------------------------------------- *)
(** *** Running the steps *)

Lemma bind_val {A B} (m : M A) (f : A -> M B) h a h1 t1 :
  m h = (Val a, h1, t1) ->
  bind m f h = (outcome (f a h1), final (f a h1), t1 ++ trace (f a h1)).
Proof.
  intros E. unfold bind, outcome, final, trace. rewrite E.
  destruct (f a h1) as [[r h2] t2]. reflexivity.
Qed.

Lemma bind_exit {A B} (m : M A) (f : A -> M B) h n h1 t1 :
  m h = (Exit n, h1, t1) -> bind m f h = (Exit n, h1, t1).
Proof. intros E. unfold bind. rewrite E. reflexivity. Qed.

Lemma bind_raise {A B} (m : M A) (f : A -> M B) h e h1 t1 :
  m h = (Raise e, h1, t1) -> bind m f h = (Raise e, h1, t1).
Proof. intros E. unfold bind. rewrite E. reflexivity. Qed.

Lemma outcome_triple {A} (r : res A) (h : Host) (t : list event) :
  outcome (r, h, t) = r.
Proof. reflexivity. Qed.

Lemma final_triple {A} (r : res A) (h : Host) (t : list event) :
  final (r, h, t) = h.
Proof. reflexivity. Qed.

Lemma trace_triple {A} (r : res A) (h : Host) (t : list event) :
  trace (r, h, t) = t.
Proof. reflexivity. Qed.

Ltac triples := rewrite ?outcome_triple, ?final_triple, ?trace_triple.

Lemma triple_eta {A} (x : res A * Host * list event) :
  x = (outcome x, final x, trace x).
Proof. destruct x as [[r h] t]. reflexivity. Qed.

Lemma run_sendcommand c h :
  sendcommand_onbox c h
  = (Val (fst (exec c h)), snd (exec c h), [Cmd c (fst (exec c h))]).
Proof. unfold sendcommand_onbox. destruct (exec c h). reflexivity. Qed.

Lemma power_state_in_cases lines :
  (exists s, power_state_in lines = Val s)
  \/ power_state_in lines = Raise IndexError.
Proof.
  induction lines as [|line rest IH]; simpl.
  - left. eexists. reflexivity.
  - destruct (Py.contains "powerState" line); [|exact IH].
    unfold item. destruct (nth_error (Py.split "=" line) 1).
    + left. eexists. reflexivity.
    + right. reflexivity.
Qed.

Lemma tools_status_in_cases lines :
  (exists s, tools_status_in lines = Val s)
  \/ tools_status_in lines = Raise IndexError.
Proof.
  induction lines as [|line rest IH]; simpl.
  - left. eexists. reflexivity.
  - destruct (Py.contains "toolsStatus" line); [|exact IH].
    unfold item. destruct (nth_error (Py.split "=" line) 1).
    + left. eexists. reflexivity.
    + right. reflexivity.
Qed.

Lemma run_getvmpowerstate v h :
  getvmpowerstate_onbox v h
  = (power_state_of (fst (exec (summary_cmd v) h)),
     snd (exec (summary_cmd v) h),
     [Cmd (summary_cmd v) (fst (exec (summary_cmd v) h))]).
Proof.
  unfold getvmpowerstate_onbox, bind, lift, power_state_of.
  rewrite run_sendcommand. reflexivity.
Qed.

Lemma run_check_tools v h :
  check_vmware_tools_status v h
  = (tools_status_of (fst (exec (guest_cmd v) h)),
     snd (exec (guest_cmd v) h),
     [Cmd (guest_cmd v) (fst (exec (guest_cmd v) h))]).
Proof.
  unfold check_vmware_tools_status, bind, lift, tools_status_of.
  rewrite run_sendcommand. reflexivity.
Qed.

Lemma run_poweroff v h :
  poweroffvm_onbox v h
  = (Val (fst (exec (poweroff_cmd v) h)), snd (exec (poweroff_cmd v) h),
     [Cmd (poweroff_cmd v) (fst (exec (poweroff_cmd v) h))]).
Proof.
  unfold poweroffvm_onbox, bind, ret. rewrite run_sendcommand. reflexivity.
Qed.

Lemma run_poweron v h :
  poweron_onbox v h
  = (Val tt, snd (exec (poweron_cmd v) h),
     [Cmd (poweron_cmd v) (fst (exec (poweron_cmd v) h))]).
Proof.
  unfold poweron_onbox, bind, ret. rewrite run_sendcommand. reflexivity.
Qed.

(* ----------------------------------------------------------------- *)
(** *** Waiting for a workload to go off *)

Lemma await_power_off_S v n h :
  await_power_off v (S n) h
  = let out := fst (exec (summary_cmd v) h) in
    let h1 := snd (exec (summary_cmd v) h) in
    match power_state_of out with
    | Val ps =>
        if negb (String.eqb ps "poweredOn")
        then (Val true, h1, [Cmd (summary_cmd v) out])
        else let x := await_power_off v n (elapse 1 h1) in
             (outcome x, final x, Cmd (summary_cmd v) out :: Sleep 1 :: trace x)
    | Exit k => (Exit k, h1, [Cmd (summary_cmd v) out])
    | Raise e => (Raise e, h1, [Cmd (summary_cmd v) out])
    end.
Proof.
  simpl. unfold bind at 1. rewrite run_getvmpowerstate.
  destruct (power_state_of (fst (exec (summary_cmd v) h))) as [ps|k|e];
    try reflexivity.
  destruct (negb (String.eqb ps "poweredOn")); [reflexivity|].
  unfold bind, sleep, outcome, final, trace.
  destruct (await_power_off v n _) as [[r h2] t2]. reflexivity.
Qed.

Lemma await_power_off_shape v n : forall h,
  exists ons tail,
    trace (await_power_off v n h) = polls_on v ons ++ tail
    /\ Forall (fun a => power_state_of a = Val "poweredOn") ons
    /\ await_end v n ons (outcome (await_power_off v n h)) tail.
Proof.
  induction n as [|n IH]; intros h.
  - exists [], []. repeat split; [constructor | constructor; reflexivity].
  - rewrite await_power_off_S. cbv zeta.
    set (out := fst (exec (summary_cmd v) h)).
    set (h1 := snd (exec (summary_cmd v) h)).
    destruct (power_state_in_cases (Py.split NL out)) as [[s Hs]|Hr];
      fold (power_state_of out) in *.
    + rewrite Hs. destruct (String.eqb_spec s "poweredOn") as [->|Hne]; simpl.
      * destruct (IH (elapse 1 h1)) as [ons [tail [Ht [Hall Hend]]]].
        exists (out :: ons), tail. unfold trace at 1, outcome at 1; simpl.
        rewrite Ht. repeat split.
        -- constructor; assumption.
        -- destruct Hend.
           ++ apply await_exhausted. simpl. congruence.
           ++ eapply await_observed; eauto. simpl. lia.
           ++ eapply await_raised; eauto. simpl. lia.
      * exists [], [Cmd (summary_cmd v) out]. repeat split; [constructor|].
        eapply await_observed; eauto. simpl. lia.
    + rewrite Hr. exists [], [Cmd (summary_cmd v) out].
      repeat split; [constructor|]. apply await_raised; [simpl; lia | exact Hr].
Qed.

Lemma run_graceful v h :
  graceful_shutdown_onbox v h
  = let x := await_power_off v SHUTDOWN_TIMEOUT_PER_VM (snd (exec (shutdown_cmd v) h)) in
    (outcome x, final x,
     Cmd (shutdown_cmd v) (fst (exec (shutdown_cmd v) h)) :: trace x).
Proof.
  unfold graceful_shutdown_onbox. cbv zeta.
  erewrite bind_val by apply run_sendcommand. reflexivity.
Qed.

Lemma run_shutdownvm v h :
  shutdownvm_onbox v h
  = let hg := snd (exec (guest_cmd v) h) in
    let eg := Cmd (guest_cmd v) (fst (exec (guest_cmd v) h)) in
    match tools_status_of (fst (exec (guest_cmd v) h)) with
    | Val status =>
        if tools_usable status then
          let g := graceful_shutdown_onbox v hg in
          match outcome g with
          | Val false =>
              (Val tt, snd (exec (poweroff_cmd v) (final g)),
               eg :: trace g
                 ++ [Cmd (poweroff_cmd v) (fst (exec (poweroff_cmd v) (final g)))])
          | Val true => (Val tt, final g, eg :: trace g)
          | Exit k => (Exit k, final g, eg :: trace g)
          | Raise e => (Raise e, final g, eg :: trace g)
          end
        else
          (Val tt, snd (exec (poweroff_cmd v) hg),
           [eg; Cmd (poweroff_cmd v) (fst (exec (poweroff_cmd v) hg))])
    | Exit k => (Exit k, hg, [eg])
    | Raise e => (Raise e, hg, [eg])
    end.
Proof.
  unfold shutdownvm_onbox. unfold bind at 1. rewrite run_check_tools. cbv zeta.
  destruct (tools_status_of (fst (exec (guest_cmd v) h))) as [status|k|e];
    try reflexivity.
  destruct (tools_usable status).
  - unfold bind at 1.
    destruct (graceful_shutdown_onbox v _) as [[[[|]|k|e] hg'] tg];
      unfold outcome, final, trace; simpl; try reflexivity.
    + unfold ret. rewrite app_nil_r. reflexivity.
    + unfold bind. rewrite run_poweroff. unfold ret. simpl. reflexivity.
  - unfold bind. rewrite run_poweroff. reflexivity.
Qed.

Lemma answers_polls_on v ons : answers (summary_cmd v) (polls_on v ons) = ons.
Proof.
  induction ons as [|a ons IH]; [reflexivity|].
  simpl. rewrite String.eqb_refl. simpl. f_equal. exact IH.
Qed.

Lemma await_end_tail_answers v n ons r tail :
  await_end v n ons r tail ->
  length (ons ++ answers (summary_cmd v) tail) <= n.
Proof.
  intros H. rewrite length_app.
  destruct H; simpl; try rewrite String.eqb_refl; simpl; lia.
Qed.

Lemma preceded_after (P Q : event -> Prop) pre0 e0 rest :
  P e0 -> Forall (fun e => ~ Q e) (pre0 ++ [e0]) ->
  preceded_by P Q (pre0 ++ e0 :: rest).
Proof.
  intros HP Hno pre e post Heq HQ.
  replace (pre0 ++ e0 :: rest) with ((pre0 ++ [e0]) ++ rest) in Heq
    by (rewrite <- app_assoc; reflexivity).
  destruct (app_eq_mid _ _ _ _ _ Heq) as [[mid [E1 _]]|[mid [-> _]]].
  - rewrite Forall_forall in Hno. exfalso. apply (Hno e); [|exact HQ].
    rewrite E1. apply in_or_app. right. left. reflexivity.
  - exists e0. split; [|exact HP].
    apply in_or_app. left. apply in_or_app. right. left. reflexivity.
Qed.

Lemma shutdownvm_graceful_first v h status :
  tools_status_of (fst (exec (guest_cmd v) h)) = Val status ->
  tools_usable status = true ->
  exists og os rest,
    trace (shutdownvm_onbox v h)
    = Cmd (guest_cmd v) og :: Cmd (shutdown_cmd v) os :: rest.
Proof.
  intros Hs Hu. rewrite run_shutdownvm. cbv zeta. rewrite Hs, Hu.
  rewrite run_graceful. cbv zeta.
  destruct (await_power_off v SHUTDOWN_TIMEOUT_PER_VM
              (snd (exec (shutdown_cmd v) (snd (exec (guest_cmd v) h)))))
    as [[[[|]|k|e] ha] ta];
    unfold outcome, final, trace; simpl; do 3 eexists; reflexivity.
Qed.

Lemma graceful_shape v h :
  exists o ons tail,
    trace (graceful_shutdown_onbox v h)
    = Cmd (shutdown_cmd v) o :: polls_on v ons ++ tail
    /\ Forall (fun a => power_state_of a = Val "poweredOn") ons
    /\ await_end v SHUTDOWN_TIMEOUT_PER_VM ons
         (outcome (graceful_shutdown_onbox v h)) tail.
Proof.
  rewrite run_graceful. cbv zeta.
  destruct (await_power_off_shape v SHUTDOWN_TIMEOUT_PER_VM
              (snd (exec (shutdown_cmd v) h))) as [ons [tail [Ht [Ha He]]]].
  exists (fst (exec (shutdown_cmd v) h)), ons, tail.
  unfold trace at 1, outcome at 1; cbn [fst snd]. rewrite Ht. auto.
Qed.

(** C4: with usable tools (status [toolsOk] or [toolsOld]) the graceful
    request comes before any forced power-off of [shutdownvm_onbox]; with any
    other status, or none, the forced power-off follows the status query at
    once and no graceful request is made. *)
Theorem shutdown_graceful_before_forced v h status :
  outcome (check_vmware_tools_status v h) = Val status ->
  (tools_usable status = true ->
   preceded_by (fun e => exists o, e = Cmd (shutdown_cmd v) o)
               (fun e => exists w o, e = Cmd (poweroff_cmd w) o)
               (trace (shutdownvm_onbox v h)))
  /\ (tools_usable status = false ->
      (exists og oo,
         trace (shutdownvm_onbox v h)
         = [Cmd (guest_cmd v) og; Cmd (poweroff_cmd v) oo])
      /\ ~ issued (shutdown_cmd v) (trace (shutdownvm_onbox v h)))
  /\ tools_usable (Some "toolsOk") = true
  /\ tools_usable (Some "toolsOld") = true
  /\ tools_usable (Some "toolsNotInstalled") = false
  /\ tools_usable (Some "toolsNotRunning") = false
  /\ tools_usable None = false.
Proof.
  rewrite run_check_tools. unfold outcome; simpl. intros Hs.
  split; [|split; [|repeat split]].
  - intros Hu.
    destruct (shutdownvm_graceful_first v h status Hs Hu) as [og [os [rest ->]]].
    apply (preceded_after _ _ [Cmd (guest_cmd v) og]); [eexists; reflexivity|].
    repeat constructor; intros [w [o H]]; discriminate H.
  - intros Hu. rewrite run_shutdownvm. cbv zeta. rewrite Hs, Hu.
    unfold trace; simpl. split; [do 2 eexists; reflexivity|].
    unfold issued; simpl. intros [H|[H|[]]]; discriminate H.
Qed.

(** C5: the graceful path sends the shutdown request and then reads the
    power state at most 10 times, sleeping one second after each reading of
    [poweredOn]; it returns [True] at the first reading that is anything else
    ([unknown] included) and [False] after 10 readings of [poweredOn]; and
    [shutdownvm_onbox] then forces the power-off. *)
Theorem graceful_shutdown_bounded_polling v h h0 status :
  let g := graceful_shutdown_onbox v h in
  (exists o ons tail,
      trace g = Cmd (shutdown_cmd v) o :: polls_on v ons ++ tail
      /\ Forall (fun a => power_state_of a = Val "poweredOn") ons
      /\ await_end v 10 ons (outcome g) tail)
  /\ length (answers (summary_cmd v) (trace g)) <= 10
  /\ (power_state_of (fst (exec (summary_cmd v) (snd (exec (shutdown_cmd v) h))))
      = Val "unknown" -> outcome g = Val true)
  /\ (snd (exec (guest_cmd v) h0) = h ->
      outcome (check_vmware_tools_status v h0) = Val status ->
      tools_usable status = true ->
      outcome g = Val false ->
      outcome (shutdownvm_onbox v h0) = Val tt
      /\ exists og oo,
           trace (shutdownvm_onbox v h0)
           = Cmd (guest_cmd v) og :: trace g ++ [Cmd (poweroff_cmd v) oo]).
Proof.
  intros g. pose proof (graceful_shape v h) as Hshape. fold g in Hshape.
  split; [exact Hshape|]. split; [|split].
  - destruct Hshape as [o [ons [tail [-> [_ He]]]]].
    change (Cmd (shutdown_cmd v) o :: polls_on v ons ++ tail)
      with ([Cmd (shutdown_cmd v) o] ++ polls_on v ons ++ tail).
    rewrite !answers_app, answers_polls_on.
    replace (answers (summary_cmd v) [Cmd (shutdown_cmd v) o]) with (@nil string)
      by reflexivity.
    simpl. eapply await_end_tail_answers. exact He.
  - intros Hu. subst g. rewrite run_graceful. cbv zeta.
    unfold SHUTDOWN_TIMEOUT_PER_VM. rewrite await_power_off_S. cbv zeta.
    rewrite Hu. reflexivity.
  - rewrite run_check_tools. unfold outcome at 1; simpl.
    intros Hh Hs Hu Hg. rewrite run_shutdownvm. cbv zeta.
    rewrite Hs, Hu, Hh. fold g. rewrite Hg.
    unfold outcome, trace; simpl. split; [reflexivity|].
    do 2 eexists. reflexivity.
Qed.

(* ----------------------------------------------------------------- *)
(** *** Maintenance mode *)

Lemma await_maintenance_S wanted n h :
  await_maintenance wanted (S n) h
  = let out := fst (exec mm_get_cmd h) in
    let h1 := snd (exec mm_get_cmd h) in
    if String.eqb (Py.lower (Py.strip out)) wanted
    then (Val true, h1, [Cmd mm_get_cmd out])
    else let x := await_maintenance wanted n (elapse 1 h1) in
         (outcome x, final x, Cmd mm_get_cmd out :: Sleep 1 :: trace x).
Proof.
  simpl. unfold bind at 1. rewrite run_sendcommand. cbv zeta.
  fold mm_get_cmd.
  destruct (String.eqb (Py.lower (Py.strip (fst (exec mm_get_cmd h)))) wanted);
    [reflexivity|].
  unfold bind, sleep, outcome, final, trace.
  destruct (await_maintenance wanted n _) as [[r h2] t2]. reflexivity.
Qed.

Lemma await_maintenance_shape wanted n : forall h,
  exists misses tail,
    trace (await_maintenance wanted n h) = mm_misses misses ++ tail
    /\ Forall (fun a => Py.lower (Py.strip a) <> wanted) misses
    /\ mm_end wanted n misses (outcome (await_maintenance wanted n h)) tail.
Proof.
  induction n as [|n IH]; intros h.
  - exists [], []. repeat split; [constructor | constructor; reflexivity].
  - rewrite await_maintenance_S. cbv zeta.
    set (out := fst (exec mm_get_cmd h)).
    set (h1 := snd (exec mm_get_cmd h)).
    destruct (String.eqb_spec (Py.lower (Py.strip out)) wanted) as [Heq|Hne].
    + exists [], [Cmd mm_get_cmd out]. repeat split; [constructor|].
      apply mm_observed; [simpl; lia | exact Heq].
    + destruct (IH (elapse 1 h1)) as [misses [tail [Ht [Hall Hend]]]].
      exists (out :: misses), tail.
      unfold trace at 1, outcome at 1; cbn [fst snd].
      rewrite Ht. repeat split.
      * constructor; assumption.
      * destruct Hend.
        -- apply mm_exhausted. simpl. congruence.
        -- apply mm_observed; [simpl; lia | assumption].
Qed.

Lemma run_maintenancemode (enable : bool) (h : Host) :
  let c : string := if enable then mm_enable_cmd else mm_disable_cmd in
  let x := await_maintenance (if enable then "enabled" else "disabled")
             (if enable then MAINTENANCE_MODE_TIMEOUT else 5)
             (snd (exec c h)) in
  maintenancemode_onbox enable h
  = (outcome x, final x, Cmd c (fst (exec c h)) :: trace x).
Proof.
  destruct enable; cbv zeta; unfold maintenancemode_onbox;
    erewrite bind_val by apply run_sendcommand; reflexivity.
Qed.

Lemma answers_mm_misses misses : answers mm_get_cmd (mm_misses misses) = misses.
Proof.
  induction misses as [|a l IH]; [reflexivity|].
  simpl. f_equal. exact IH.
Qed.

(** The shape of a run of [maintenancemode_onbox]: the request, the polls
    that missed, and the end of the wait. *)
Lemma maintenancemode_shape (enable : bool) (h : Host) :
  let wanted : string := if enable then "enabled" else "disabled" in
  let n : nat := if enable then MAINTENANCE_MODE_TIMEOUT else 5 in
  let c : string := if enable then mm_enable_cmd else mm_disable_cmd in
  exists o misses tail,
    trace (maintenancemode_onbox enable h) = Cmd c o :: mm_misses misses ++ tail
    /\ Forall (fun a => Py.lower (Py.strip a) <> wanted) misses
    /\ mm_end wanted n misses (outcome (maintenancemode_onbox enable h)) tail.
Proof.
  cbv zeta. rewrite run_maintenancemode. cbv zeta.
  match goal with
  | |- context [await_maintenance ?w ?n ?h1] =>
      destruct (await_maintenance_shape w n h1) as [misses [tail [Ht [Ha He]]]]
  end.
  eexists _, misses, tail.
  unfold trace at 1, outcome at 1; cbn [fst snd]. rewrite Ht. auto.
Qed.

Lemma maintenancemode_returns (enable : bool) (h : Host) :
  exists b, outcome (maintenancemode_onbox enable h) = Val b.
Proof.
  destruct (maintenancemode_shape enable h) as [o [misses [tail [_ [_ He]]]]].
  destruct He; eexists; reflexivity.
Qed.

Lemma mm_misses_events enable misses :
  Forall (mm_event enable) (mm_misses misses).
Proof.
  induction misses as [|a l IH]; [constructor|].
  simpl. repeat constructor. exact IH.
Qed.

Lemma maintenancemode_events (enable : bool) (h : Host) :
  Forall (mm_event enable) (trace (maintenancemode_onbox enable h)).
Proof.
  destruct (maintenancemode_shape enable h) as [o [misses [tail [-> [_ He]]]]].
  constructor; [destruct enable; constructor|].
  apply Forall_app. split; [apply mm_misses_events|].
  destruct He; repeat constructor.
Qed.

(** The answers to the polls of a run: the misses, then the hit if any. *)
Lemma maintenancemode_answers (enable : bool) (h : Host) :
  let wanted : string := if enable then "enabled" else "disabled" in
  let x := maintenancemode_onbox enable h in
  (outcome x = Val true ->
   exists a, In a (answers mm_get_cmd (trace x))
             /\ Py.lower (Py.strip a) = wanted)
  /\ (outcome x = Val false ->
      Forall (fun a => Py.lower (Py.strip a) <> wanted)
             (answers mm_get_cmd (trace x))
      /\ length (answers mm_get_cmd (trace x))
         = if enable then MAINTENANCE_MODE_TIMEOUT else 5)
  /\ length (answers mm_get_cmd (trace x))
     <= if enable then MAINTENANCE_MODE_TIMEOUT else 5.
Proof.
  cbv zeta.
  destruct (maintenancemode_shape enable h) as [o [misses [tail [Ht [Ha He]]]]].
  rewrite Ht.
  assert (E : answers mm_get_cmd
                (Cmd (if enable then mm_enable_cmd else mm_disable_cmd) o
                   :: mm_misses misses ++ tail)
              = misses ++ answers mm_get_cmd tail).
  { change (Cmd ?c o :: ?l) with ([Cmd c o] ++ l).
    rewrite !answers_app, answers_mm_misses. destruct enable; reflexivity. }
  rewrite E. clear E Ht.
  destruct He as [Hlen|a Hlen Hhit]; (split; [|split]).
  - discriminate.
  - intros _. simpl. rewrite app_nil_r. split; assumption.
  - simpl. rewrite app_nil_r. lia.
  - intros _. exists a. split; [|exact Hhit].
    apply in_or_app. right. simpl. left. reflexivity.
  - discriminate.
  - rewrite length_app. simpl. lia.
Qed.

(* ----------------------------------------------------------------- *)
(** *** The command texts *)

Lemma eqb_summary_cmd v w :
  String.eqb (summary_cmd v) (summary_cmd w) = String.eqb v w.
Proof. reflexivity. Qed.

Lemma eqb_poweron_cmd v w :
  String.eqb (poweron_cmd v) (poweron_cmd w) = String.eqb v w.
Proof. reflexivity. Qed.

Lemma summary_cmd_inj v w : summary_cmd v = summary_cmd w -> v = w.
Proof.
  intros H. apply String.eqb_eq. rewrite <- eqb_summary_cmd.
  apply String.eqb_eq. exact H.
Qed.

Lemma poweron_cmd_inj v w : poweron_cmd v = poweron_cmd w -> v = w.
Proof.
  intros H. apply String.eqb_eq. rewrite <- eqb_poweron_cmd.
  apply String.eqb_eq. exact H.
Qed.

Lemma guest_cmd_inj v w : guest_cmd v = guest_cmd w -> v = w.
Proof.
  intros H. apply String.eqb_eq.
  change (String.eqb (guest_cmd v) (guest_cmd w) = true).
  apply String.eqb_eq. exact H.
Qed.

Lemma shutdown_cmd_inj v w : shutdown_cmd v = shutdown_cmd w -> v = w.
Proof.
  intros H. apply String.eqb_eq.
  change (String.eqb (shutdown_cmd v) (shutdown_cmd w) = true).
  apply String.eqb_eq. exact H.
Qed.

Lemma poweroff_cmd_inj v w : poweroff_cmd v = poweroff_cmd w -> v = w.
Proof.
  intros H. apply String.eqb_eq.
  change (String.eqb (poweroff_cmd v) (poweroff_cmd w) = true).
  apply String.eqb_eq. exact H.
Qed.

(* ----------------------------------------------------------------- *)
(** *** The re-power loop *)

Lemma repower_loop_cons v rest h :
  repower_loop (v :: rest) h
  = let out := fst (exec (summary_cmd v) h) in
    let h1 := snd (exec (summary_cmd v) h) in
    match power_state_of out with
    | Val ps =>
        if String.eqb ps "poweredOff" then
          let x := repower_loop rest (snd (exec (poweron_cmd v) h1)) in
          (outcome x, final x,
           Cmd (summary_cmd v) out
             :: Cmd (poweron_cmd v) (fst (exec (poweron_cmd v) h1)) :: trace x)
        else
          let x := repower_loop rest h1 in
          (outcome x, final x, Cmd (summary_cmd v) out :: trace x)
    | Exit k => (Exit k, h1, [Cmd (summary_cmd v) out])
    | Raise e => (Raise e, h1, [Cmd (summary_cmd v) out])
    end.
Proof.
  simpl. unfold bind at 1. rewrite run_getvmpowerstate. cbv zeta.
  destruct (power_state_of (fst (exec (summary_cmd v) h))) as [ps|k|e];
    try reflexivity.
  destruct (String.eqb ps "poweredOff").
  - unfold bind at 1. rewrite run_poweron.
    destruct (repower_loop rest _) as [[r h2] t2].
    unfold outcome, final, trace. reflexivity.
  - unfold bind at 1. unfold ret at 1.
    destruct (repower_loop rest _) as [[r h2] t2].
    unfold outcome, final, trace. reflexivity.
Qed.

Lemma repower_loop_result vms : forall h,
  outcome (repower_loop vms h) = Val tt
  \/ outcome (repower_loop vms h) = Raise IndexError.
Proof.
  induction vms as [|v rest IH]; intros h; [left; reflexivity|].
  rewrite repower_loop_cons. cbv zeta.
  destruct (power_state_in_cases (Py.split NL (fst (exec (summary_cmd v) h))))
    as [[s Hs]|Hr]; fold (power_state_of (fst (exec (summary_cmd v) h))) in *.
  - rewrite Hs. destruct (String.eqb s "poweredOff"); apply IH.
  - rewrite Hr. right. reflexivity.
Qed.

Lemma repower_loop_events vms all : forall h,
  incl vms all -> Forall (repower_event all) (trace (repower_loop vms h)).
Proof.
  induction vms as [|v rest IH]; intros h Hincl; [constructor|].
  assert (Hv : In v all) by (apply Hincl; left; reflexivity).
  assert (Hrest : incl rest all) by (intros x Hx; apply Hincl; right; exact Hx).
  rewrite repower_loop_cons. cbv zeta.
  destruct (power_state_of (fst (exec (summary_cmd v) h))) as [ps|k|e];
    [|repeat constructor; exact Hv ..].
  destruct (String.eqb ps "poweredOff"); unfold trace at 1; cbn [snd];
    repeat (constructor; [constructor; exact Hv|]); apply IH; exact Hrest.
Qed.

(** The commands of a trace of one phase name only workloads of that
    phase. *)
Lemma repower_answers_other all t v :
  Forall (repower_event all) t -> ~ In v all ->
  answers (summary_cmd v) t = [] /\ ~ issued (poweron_cmd v) t.
Proof.
  intros Ht Hv. induction Ht as [|e t He _ [IH1 IH2]].
  - split; [reflexivity | intros []].
  - split.
    + change (e :: t) with ([e] ++ t). rewrite answers_app, IH1, app_nil_r.
      destruct He as [w o Hw|w o Hw]; simpl; [|reflexivity].
      destruct (String.eqb_spec w v) as [->|]; [contradiction | reflexivity].
    + change (e :: t) with ([e] ++ t). rewrite issued_app.
      intros [H|H]; [|exact (IH2 H)].
      destruct He as [w o Hw|w o Hw]; destruct H as [H|[]].
      * discriminate H.
      * apply poweron_cmd_inj in H. subst w. contradiction.
Qed.

Lemma guarded_app t1 t2 : guarded t1 -> guarded t2 -> guarded (t1 ++ t2).
Proof.
  intros H1 H2 pre v o post Heq.
  destruct (app_eq_mid _ _ _ _ _ Heq) as [[mid [E1 _]]|[mid [-> E2]]].
  - exact (H1 _ _ _ _ E1).
  - destruct (H2 _ _ _ _ E2) as [pre' [out [-> Hout]]].
    exists (t1 ++ pre'), out. split; [apply app_assoc | exact Hout].
Qed.

Lemma guarded_none t :
  Forall (fun e => forall v o, e <> Cmd (poweron_cmd v) o) t -> guarded t.
Proof.
  intros H pre v o post ->. rewrite Forall_forall in H.
  exfalso. apply (H (Cmd (poweron_cmd v) o)) with (v := v) (o := o);
    [apply in_or_app; right; left; reflexivity | reflexivity].
Qed.

Lemma guarded_pair v out o :
  power_state_of out = Val "poweredOff" ->
  guarded [Cmd (summary_cmd v) out; Cmd (poweron_cmd v) o].
Proof.
  intros Hout pre w o' post Heq.
  destruct pre as [|e1 [|e2 pre]]; simpl in Heq.
  - discriminate Heq.
  - injection Heq as <- <- _ _.
    exists [], out. split; [reflexivity | exact Hout].
  - injection Heq as _ _ Heq. destruct pre; discriminate Heq.
Qed.

Lemma repower_loop_guarded vms : forall h, guarded (trace (repower_loop vms h)).
Proof.
  induction vms as [|v rest IH]; intros h.
  - apply guarded_none. constructor.
  - rewrite repower_loop_cons. cbv zeta.
    destruct (power_state_of (fst (exec (summary_cmd v) h))) as [ps|k|e] eqn:Hps;
      [|apply guarded_none; repeat constructor; intros w o H; discriminate H ..].
    destruct (String.eqb_spec ps "poweredOff") as [->|Hne];
      unfold trace at 1; cbn [snd].
    + apply (guarded_app [_; _]); [apply guarded_pair; exact Hps | apply IH].
    + apply (guarded_app [_]); [|apply IH].
      apply guarded_none; repeat constructor; intros w o H; discriminate H.
Qed.

(** What the loop read for a workload it visits, and what it did: the
    workload is read once; it is powered on only on a reading of
    [poweredOff], and always then when the loop comes to its end. *)
Lemma repower_loop_readings vms : forall h v,
  NoDup vms -> In v vms ->
  (issued (poweron_cmd v) (trace (repower_loop vms h)) ->
   exists out, answers (summary_cmd v) (trace (repower_loop vms h)) = [out]
               /\ power_state_of out = Val "poweredOff")
  /\ (outcome (repower_loop vms h) = Val tt ->
      exists out, answers (summary_cmd v) (trace (repower_loop vms h)) = [out]
                  /\ (power_state_of out = Val "poweredOff" ->
                      issued (poweron_cmd v) (trace (repower_loop vms h)))).
Proof.
  induction vms as [|v0 rest IH]; intros h v Hnd Hin; [destruct Hin|].
  inversion Hnd as [|? ? Hnotin Hnd']; subst.
  rewrite repower_loop_cons. cbv zeta.
  set (out := fst (exec (summary_cmd v0) h)).
  set (h1 := snd (exec (summary_cmd v0) h)).
  destruct (String.eqb_spec v0 v) as [->|Hne].
  - (* the workload at the head *)
    assert (Hrest : forall h', answers (summary_cmd v) (trace (repower_loop rest h')) = []
                               /\ ~ issued (poweron_cmd v) (trace (repower_loop rest h'))).
    { intros h'. apply (repower_answers_other rest); [|exact Hnotin].
      apply repower_loop_events. apply incl_refl. }
    destruct (power_state_of out) as [ps|k|e] eqn:Hps.
    + destruct (String.eqb_spec ps "poweredOff") as [->|Hoff];
        unfold trace, outcome; cbn [fst snd];
        match goal with
        | |- context [repower_loop rest ?h'] =>
            destruct (Hrest h') as [Ha Hi]; unfold trace in Ha, Hi
        end.
      * split; intros _; exists out; simpl; rewrite String.eqb_refl, Ha.
        -- split; [reflexivity | exact Hps].
        -- split; [reflexivity|]. intros _. right. left. reflexivity.
      * split.
        -- intros [H|H]; [discriminate H | contradiction].
        -- intros _. exists out. simpl. rewrite String.eqb_refl, Ha.
           split; [reflexivity|]. intros H. rewrite H in Hps.
           injection Hps as <-. contradiction.
    + unfold trace, outcome; cbn [fst snd]. split.
      * intros [H|[]]. discriminate H.
      * discriminate.
    + unfold trace, outcome; cbn [fst snd]. split.
      * intros [H|[]]. discriminate H.
      * discriminate.
  - (* a workload further down *)
    destruct Hin as [Heq|Hin]; [contradiction|].
    assert (Hb : String.eqb v0 v = false) by (apply String.eqb_neq; exact Hne).
    destruct (power_state_of out) as [ps|k|e] eqn:Hps.
    + destruct (String.eqb ps "poweredOff");
        match goal with
        | |- context [repower_loop rest ?h'] =>
            destruct (IH h' v Hnd' Hin) as [I1 I2]
        end;
        unfold trace at 1 2, outcome at 1; cbn [fst snd];
        unfold trace at 2 4; cbn [snd]; unfold issued; simpl; rewrite Hb; simpl.
      * split.
        -- intros [H|[H|H]]; [discriminate H | | exact (I1 H)].
           apply poweron_cmd_inj in H. contradiction.
        -- intros Hv. destruct (I2 Hv) as [o [Ha Hi]]. exists o.
           split; [exact Ha|]. intros Ho. right. right. exact (Hi Ho).
      * split.
        -- intros [H|H]; [discriminate H | exact (I1 H)].
        -- intros Hv. destruct (I2 Hv) as [o [Ha Hi]]. exists o.
           split; [exact Ha|]. intros Ho. right. exact (Hi Ho).
    + unfold trace, outcome; cbn [fst snd]. split.
      * intros [H|[]]. discriminate H.
      * discriminate.
    + unfold trace, outcome; cbn [fst snd]. split.
      * intros [H|[]]. discriminate H.
      * discriminate.
Qed.

(* ----------------------------------------------------------------- *)
(** *** Shutting the workloads down *)

Lemma quiesce_down all v e : In v all -> quiesce_event v e -> down_event all e.
Proof. intros Hv He. destruct He; constructor; exact Hv. Qed.

Lemma graceful_events v h :
  Forall (quiesce_event v) (trace (graceful_shutdown_onbox v h)).
Proof.
  destruct (graceful_shape v h) as [o [ons [tail [-> [_ He]]]]].
  constructor; [constructor|].
  apply Forall_app. split.
  - clear He. induction ons as [|a ons IH]; [constructor|].
    simpl. constructor; [constructor|].
    constructor; [constructor | exact IH].
  - destruct He; repeat constructor.
Qed.

Lemma graceful_result v h :
  (exists b, outcome (graceful_shutdown_onbox v h) = Val b)
  \/ outcome (graceful_shutdown_onbox v h) = Raise IndexError.
Proof.
  destruct (graceful_shape v h) as [o [ons [tail [_ [_ He]]]]].
  destruct He; [left; eexists; reflexivity | left; eexists; reflexivity | right; reflexivity].
Qed.

Lemma shutdownvm_result v h :
  outcome (shutdownvm_onbox v h) = Val tt
  \/ outcome (shutdownvm_onbox v h) = Raise IndexError.
Proof.
  rewrite run_shutdownvm. cbv zeta.
  destruct (tools_status_in_cases (Py.splitlines (fst (exec (guest_cmd v) h))))
    as [[s Hs]|Hr]; fold (tools_status_of (fst (exec (guest_cmd v) h))) in *.
  - rewrite Hs. destruct (tools_usable s); [|left; reflexivity].
    destruct (graceful_result v (snd (exec (guest_cmd v) h))) as [[b Hb]|Hb];
      rewrite Hb; [destruct b; left; reflexivity | right; reflexivity].
  - rewrite Hr. right. reflexivity.
Qed.

Lemma shutdownvm_quiesce_events v h :
  Forall (quiesce_event v) (trace (shutdownvm_onbox v h)).
Proof.
  rewrite run_shutdownvm. cbv zeta.
  destruct (tools_status_of (fst (exec (guest_cmd v) h))) as [s|k|e];
    [|repeat constructor ..].
  destruct (tools_usable s); [|repeat constructor].
  pose proof (graceful_events v (snd (exec (guest_cmd v) h))) as Hg.
  destruct (outcome (graceful_shutdown_onbox v _)) as [[|]|k|e];
    triples; (constructor; [constructor|]); try exact Hg.
  apply Forall_app. split; [exact Hg | repeat constructor].
Qed.

Lemma shutdownvm_events all v h :
  In v all -> Forall (down_event all) (trace (shutdownvm_onbox v h)).
Proof.
  intros Hv. eapply Forall_impl; [|apply shutdownvm_quiesce_events].
  intros e. apply quiesce_down. exact Hv.
Qed.

Lemma power_down_loop_cons v rest n h :
  power_down_loop (v :: rest) n h
  = let out := fst (exec (summary_cmd v) h) in
    let h1 := snd (exec (summary_cmd v) h) in
    match power_state_of out with
    | Val ps =>
        if String.eqb ps "poweredOn" then
          let ea := Cmd (cmd_auto_start v n) (fst (exec (cmd_auto_start v n) h1)) in
          let s := shutdownvm_onbox v (snd (exec (cmd_auto_start v n) h1)) in
          match outcome s with
          | Val _ =>
              let x := power_down_loop rest (n + 1) (final s) in
              (outcome x, final x,
               Cmd (summary_cmd v) out :: ea :: trace s ++ trace x)
          | Exit k => (Exit k, final s, Cmd (summary_cmd v) out :: ea :: trace s)
          | Raise e => (Raise e, final s, Cmd (summary_cmd v) out :: ea :: trace s)
          end
        else
          let x := power_down_loop rest n h1 in
          (outcome x, final x, Cmd (summary_cmd v) out :: trace x)
    | Exit k => (Exit k, h1, [Cmd (summary_cmd v) out])
    | Raise e => (Raise e, h1, [Cmd (summary_cmd v) out])
    end.
Proof.
  cbn [power_down_loop]. unfold bind at 1. rewrite run_getvmpowerstate. cbv zeta.
  destruct (power_state_of (fst (exec (summary_cmd v) h))) as [ps|k|e];
    try reflexivity.
  destruct (String.eqb ps "poweredOn").
  - unfold bind at 1. rewrite run_sendcommand.
    unfold bind at 1.
    destruct (shutdownvm_onbox v _) as [[[[]|k|e] hs] ts];
      unfold outcome, final, trace; cbn [fst snd]; try reflexivity.
    destruct (power_down_loop rest (n + 1) hs) as [[r h2] t2]. reflexivity.
  - destruct (power_down_loop rest n _) as [[r h2] t2].
    unfold outcome, final, trace. reflexivity.
Qed.

Lemma power_down_loop_result vms : forall n h,
  outcome (power_down_loop vms n h) = Val tt
  \/ outcome (power_down_loop vms n h) = Raise IndexError.
Proof.
  induction vms as [|v rest IH]; intros n h; [left; reflexivity|].
  rewrite power_down_loop_cons. cbv zeta.
  destruct (power_state_in_cases (Py.split NL (fst (exec (summary_cmd v) h))))
    as [[s Hs]|Hr]; fold (power_state_of (fst (exec (summary_cmd v) h))) in *.
  - rewrite Hs. destruct (String.eqb s "poweredOn"); [|apply IH].
    match goal with
    | |- context [shutdownvm_onbox v ?h'] =>
        destruct (shutdownvm_result v h') as [Hv|Hv]; rewrite Hv
    end; [apply IH | right; reflexivity].
  - rewrite Hr. right. reflexivity.
Qed.

Lemma power_down_loop_events vms all : forall n h,
  incl vms all -> Forall (down_event all) (trace (power_down_loop vms n h)).
Proof.
  induction vms as [|v rest IH]; intros n h Hincl; [constructor|].
  assert (Hv : In v all) by (apply Hincl; left; reflexivity).
  assert (Hrest : incl rest all) by (intros x Hx; apply Hincl; right; exact Hx).
  rewrite power_down_loop_cons. cbv zeta.
  destruct (power_state_of (fst (exec (summary_cmd v) h))) as [ps|k|e];
    [|repeat constructor; exact Hv ..].
  destruct (String.eqb ps "poweredOn").
  - match goal with
    | |- context [shutdownvm_onbox v ?h'] =>
        pose proof (shutdownvm_events all v h' Hv) as Hs;
        destruct (outcome (shutdownvm_onbox v h')) as [[]|k|e]
    end;
      unfold trace at 1; cbn [snd];
      (constructor; [constructor; exact Hv|]);
      (constructor; [constructor; exact Hv|]); try exact Hs.
    apply Forall_app. split; [exact Hs | apply IH; exact Hrest].
  - unfold trace at 1; cbn [snd].
    constructor; [constructor; exact Hv | apply IH; exact Hrest].
Qed.

(** When the loop comes to its end, it has read every workload. *)
Lemma power_down_loop_reads_all vms : forall n h v,
  outcome (power_down_loop vms n h) = Val tt -> In v vms ->
  answers (summary_cmd v) (trace (power_down_loop vms n h)) <> [].
Proof.
  induction vms as [|v0 rest IH]; intros n h v Hval Hin; [destruct Hin|].
  revert Hval. rewrite power_down_loop_cons. cbv zeta.
  destruct (power_state_of (fst (exec (summary_cmd v0) h))) as [ps|k|e];
    [|discriminate ..].
  destruct (String.eqb_spec v0 v) as [->|Hne].
  - intros _.
    destruct (String.eqb ps "poweredOn");
      [destruct (outcome (shutdownvm_onbox v _)) as [[]|k|e]|];
      unfold trace at 1; cbn [snd]; simpl; rewrite String.eqb_refl; discriminate.
  - destruct Hin as [Heq|Hin]; [contradiction|].
    destruct (String.eqb ps "poweredOn").
    + destruct (outcome (shutdownvm_onbox v0 _)) as [[]|k|e]; [|discriminate ..].
      triples. intros Hval.
      pose proof (IH _ _ v Hval Hin) as Hrest.
      change (Cmd ?a ?b :: ?e :: ?l ++ ?r) with ((Cmd a b :: e :: l) ++ r).
      rewrite answers_app. intros H. apply app_eq_nil in H. tauto.
    + triples. intros Hval.
      pose proof (IH _ _ v Hval Hin) as Hrest.
      change (Cmd ?a ?b :: ?r) with ([Cmd a b] ++ r).
      rewrite answers_app. intros H. apply app_eq_nil in H. tauto.
Qed.

(* ----------------------------------------------------------------- *)
(** *** Auto-start registration *)

Lemma is_autostart_cmd_auto_start v n : is_autostart_cmd (cmd_auto_start v n) = true.
Proof. reflexivity. Qed.

Lemma is_autostart_summary v : is_autostart_cmd (summary_cmd v) = false.
Proof. reflexivity. Qed.

Lemma registrations_app t1 t2 :
  registrations (t1 ++ t2) = registrations t1 ++ registrations t2.
Proof. apply flat_map_app. Qed.

Lemma first_reading_skip v t1 t2 :
  answers (summary_cmd v) t1 = [] ->
  first_reading v (t1 ++ t2) = first_reading v t2.
Proof. intros H. unfold first_reading. rewrite answers_app, H. reflexivity. Qed.

Lemma first_reading_keep v t1 t2 :
  answers (summary_cmd v) t1 <> [] ->
  first_reading v (t1 ++ t2) = first_reading v t1.
Proof.
  intros H. unfold first_reading. rewrite answers_app.
  destruct (answers (summary_cmd v) t1); [contradiction | reflexivity].
Qed.

Lemma first_reading_head v out t :
  first_reading v (Cmd (summary_cmd v) out :: t) = Some (power_state_of out).
Proof. unfold first_reading. simpl. rewrite String.eqb_refl. reflexivity. Qed.

Lemma found_on_ext vs t t' :
  (forall v, In v vs -> first_reading v t = first_reading v t') ->
  found_on vs t = found_on vs t'.
Proof.
  intros H. unfold found_on. apply filter_ext_in.
  intros v Hv. rewrite (H v Hv). reflexivity.
Qed.

Lemma found_on_none vs t :
  (forall v, In v vs -> answers (summary_cmd v) t = []) -> found_on vs t = [].
Proof.
  intros H. unfold found_on. induction vs as [|v vs IH]; [reflexivity|].
  simpl. unfold first_reading at 1. rewrite (H v) by (left; reflexivity).
  simpl. apply IH. intros w Hw. apply H. right. exact Hw.
Qed.

Lemma quiesce_no_registration v t :
  Forall (quiesce_event v) t -> registrations t = [].
Proof.
  intros H. induction H as [|e t He _ IH]; [reflexivity|].
  change (e :: t) with ([e] ++ t). rewrite registrations_app, IH, app_nil_r.
  destruct He; reflexivity.
Qed.

Lemma quiesce_answers_other v w t :
  Forall (quiesce_event v) t -> v <> w -> answers (summary_cmd w) t = [].
Proof.
  intros H Hne. induction H as [|e t He _ IH]; [reflexivity|].
  change (e :: t) with ([e] ++ t). rewrite answers_app, IH, app_nil_r.
  destruct He; try reflexivity.
  simpl. destruct (String.eqb_spec v w); [contradiction | reflexivity].
Qed.

Lemma registrations_from_cons v vs n :
  registrations_from (v :: vs) n = cmd_auto_start v n :: registrations_from vs (n + 1).
Proof.
  unfold registrations_from. simpl. rewrite Nat.add_1_r. reflexivity.
Qed.

Lemma found_on_cons v vs t :
  found_on (v :: vs) t
  = if reads "poweredOn" (first_reading v t) then v :: found_on vs t
    else found_on vs t.
Proof. reflexivity. Qed.

Lemma reads_val s ps : reads s (Some (Val ps)) = String.eqb ps s.
Proof. reflexivity. Qed.

(** The registrations of the power-down loop: the workloads it found
    [poweredOn], in the order of the loop, with the priorities [n], [n+1],
    ... *)
Lemma power_down_loop_registrations vms : forall n h,
  NoDup vms ->
  registrations (trace (power_down_loop vms n h))
  = registrations_from (found_on vms (trace (power_down_loop vms n h))) n.
Proof.
  induction vms as [|v0 rest IH]; intros n h Hnd; [reflexivity|].
  inversion Hnd as [|? ? Hnotin Hnd']; subst.
  rewrite power_down_loop_cons. cbv zeta.
  set (out := fst (exec (summary_cmd v0) h)).
  set (h1 := snd (exec (summary_cmd v0) h)).
  assert (Hother : forall v, In v rest -> String.eqb v0 v = false).
  { intros v Hv. apply String.eqb_neq. intros ->. contradiction. }
  assert (Hone : forall v, In v rest ->
                 answers (summary_cmd v) [Cmd (summary_cmd v0) out] = []).
  { intros v Hv. simpl. rewrite (Hother v Hv). reflexivity. }
  destruct (power_state_of out) as [ps|k|e] eqn:Hps.
  - destruct (String.eqb_spec ps "poweredOn") as [->|Hoff].
    + set (ea := Cmd (cmd_auto_start v0 n) _).
      set (s := shutdownvm_onbox v0 _).
      pose proof (shutdownvm_quiesce_events v0
                    (snd (exec (cmd_auto_start v0 n) h1))) as Hq. fold s in Hq.
      assert (Hpre : forall v, In v rest ->
                 answers (summary_cmd v)
                   (Cmd (summary_cmd v0) out :: ea :: trace s) = []).
      { intros v Hv.
        change (Cmd ?a ?b :: ea :: ?l) with ([Cmd a b; ea] ++ l).
        rewrite answers_app, (quiesce_answers_other v0 v _ Hq).
        - simpl. rewrite (Hother v Hv). reflexivity.
        - intros ->. contradiction. }
      assert (Hreg : registrations (Cmd (summary_cmd v0) out :: ea :: trace s)
                     = [cmd_auto_start v0 n]).
      { change (Cmd ?a ?b :: ea :: ?l) with ([Cmd a b; ea] ++ l).
        rewrite registrations_app, (quiesce_no_registration v0 _ Hq).
        reflexivity. }
      destruct (outcome s) as [[]|k|e]; triples.
      * change (Cmd ?a ?b :: ea :: ?l ++ ?t) with ((Cmd a b :: ea :: l) ++ t).
        rewrite registrations_app, Hreg, found_on_cons.
        change ((Cmd ?a ?b :: ea :: ?l) ++ ?t) with (Cmd a b :: (ea :: l) ++ t) at 1.
        rewrite first_reading_head, Hps, reads_val, String.eqb_refl.
        cbn [app].
        rewrite (found_on_ext rest _ (trace (power_down_loop rest (n + 1) (final s))))
          by (intros v Hv;
              apply (first_reading_skip v (Cmd (summary_cmd v0) out :: ea :: trace s));
              apply Hpre; exact Hv).
        rewrite registrations_from_cons. f_equal. apply IH. exact Hnd'.
      * rewrite Hreg, found_on_cons, first_reading_head, Hps, reads_val.
        rewrite String.eqb_refl.
        rewrite found_on_none by exact Hpre. reflexivity.
      * rewrite Hreg, found_on_cons, first_reading_head, Hps, reads_val.
        rewrite String.eqb_refl.
        rewrite found_on_none by exact Hpre. reflexivity.
    + triples.
      rewrite found_on_cons, first_reading_head, Hps, reads_val.
      replace (String.eqb ps "poweredOn") with false
        by (symmetry; apply String.eqb_neq; exact Hoff).
      change (Cmd ?a ?b :: ?t) with ([Cmd a b] ++ t).
      rewrite registrations_app. change (registrations [_]) with (@nil string).
      rewrite (found_on_ext rest _ (trace (power_down_loop rest n h1)))
        by (intros v Hv; apply (first_reading_skip v [Cmd (summary_cmd v0) out]);
            apply Hone; exact Hv).
      apply IH. exact Hnd'.
  - triples. rewrite found_on_cons, first_reading_head, Hps.
    rewrite found_on_none by exact Hone. reflexivity.
  - triples. rewrite found_on_cons, first_reading_head, Hps.
    rewrite found_on_none by exact Hone. reflexivity.
Qed.

Lemma summary_not_quiesces v w o : ~ quiesces v (Cmd (summary_cmd w) o).
Proof. intros [o' [H|[H|H]]]; discriminate H. Qed.

Lemma registration_not_quiesces v w n o : ~ quiesces v (Cmd (cmd_auto_start w n) o).
Proof. intros [o' [H|[H|H]]]; discriminate H. Qed.

Lemma quiesce_event_other v0 v e :
  quiesce_event v0 e -> v0 <> v -> ~ quiesces v e.
Proof.
  intros He Hne [o [H|[H|H]]]; destruct He;
    try discriminate H; injection H as Hv _; contradiction.
Qed.

(** One round of the power-down loop: the reading, the registration, the
    shutdown. *)
Lemma round_registers_first v0 v out n oa ts :
  Forall (quiesce_event v0) ts ->
  preceded_by (registers v) (quiesces v)
    (Cmd (summary_cmd v0) out :: Cmd (cmd_auto_start v0 n) oa :: ts).
Proof.
  intros Hq. destruct (String.eqb_spec v0 v) as [->|Hne].
  - apply (preceded_after _ _ [Cmd (summary_cmd v) out]).
    + exists n, oa. reflexivity.
    + repeat constructor;
        [apply summary_not_quiesces | apply registration_not_quiesces].
  - apply preceded_by_none.
    constructor; [apply summary_not_quiesces|].
    constructor; [apply registration_not_quiesces|].
    eapply Forall_impl; [|exact Hq].
    intros e He. apply (quiesce_event_other v0 v e He Hne).
Qed.

Lemma power_down_loop_registers_first vms : forall n h v,
  preceded_by (registers v) (quiesces v) (trace (power_down_loop vms n h)).
Proof.
  induction vms as [|v0 rest IH]; intros n h v.
  - apply preceded_by_none. constructor.
  - rewrite power_down_loop_cons. cbv zeta.
    destruct (power_state_of (fst (exec (summary_cmd v0) h))) as [ps|k|e];
      [|apply preceded_by_none; repeat constructor; apply summary_not_quiesces ..].
    destruct (String.eqb ps "poweredOn").
    + match goal with
      | |- context [shutdownvm_onbox v0 ?h'] =>
          pose proof (shutdownvm_quiesce_events v0 h') as Hq;
          destruct (outcome (shutdownvm_onbox v0 h')) as [[]|k|e]
      end; triples; try (apply round_registers_first; exact Hq).
      change (Cmd ?a ?b :: ?e :: ?l ++ ?t) with ((Cmd a b :: e :: l) ++ t).
      apply preceded_by_app; [apply round_registers_first; exact Hq | apply IH].
    + triples. change (Cmd ?a ?b :: ?t) with ([Cmd a b] ++ t).
      apply preceded_by_app; [|apply IH].
      apply preceded_by_none. repeat constructor. apply summary_not_quiesces.
Qed.

(* ----------------------------------------------------------------- *)
(** *** The ways through [main] *)

Lemma bind_send {B} c (f : string -> M B) h :
  bind (sendcommand_onbox c) f h
  = (outcome (f (fst (exec c h)) (snd (exec c h))),
     final (f (fst (exec c h)) (snd (exec c h))),
     Cmd c (fst (exec c h)) :: trace (f (fst (exec c h)) (snd (exec c h)))).
Proof. erewrite bind_val by apply run_sendcommand. reflexivity. Qed.

Lemma bind_sleep {B} n (f : unit -> M B) h :
  bind (sleep n) f h
  = (outcome (f tt (elapse n h)), final (f tt (elapse n h)),
     Sleep n :: trace (f tt (elapse n h))).
Proof. erewrite bind_val by reflexivity. reflexivity. Qed.

Lemma bind_ret {A B} (a : A) (f : A -> M B) h : bind (ret a) f h = f a h.
Proof. unfold bind, ret. destruct (f a h) as [[r h2] t2]. reflexivity. Qed.

Lemma bind_then_exit (m : M unit) n h :
  bind m (fun _ => sys_exit n) h
  = (then_exit (outcome (m h)) n, final (m h), trace (m h)).
Proof.
  unfold bind, sys_exit. destruct (m h) as [[[[]|k|e] h1] t1];
    unfold outcome, final, trace; simpl; rewrite ?app_nil_r; reflexivity.
Qed.

Lemma bind_stop {A} (m : M A) (f : A -> M A) h :
  (forall a, outcome (m h) <> Val a) -> bind m f h = m h.
Proof.
  unfold bind, outcome. destruct (m h) as [[[a|k|e] h1] t1]; simpl; intros H;
    [exfalso; exact (H a eq_refl) | reflexivity | reflexivity].
Qed.

Lemma then_exit_not_val r n a : then_exit r n <> Val a.
Proof. destruct r; discriminate. Qed.

Lemma run_getvms h :
  getvms_onbox h
  = (Val (vms_of (fst (exec getallvms_cmd h))), snd (exec getallvms_cmd h),
     [Cmd getallvms_cmd (fst (exec getallvms_cmd h))]).
Proof.
  unfold getvms_onbox. rewrite bind_send. unfold vms_of.
  fold getallvms_cmd.
  destruct (negb (Py.truthy (Py.strip (fst (exec getallvms_cmd h)))));
    reflexivity.
Qed.

Lemma power_down_step (vms : dict string) :
  match vms with
  | [] => ret tt
  | _ => power_down_loop (keys vms) 1
  end = power_down_loop (keys vms) 1.
Proof. destruct vms; reflexivity. Qed.

(** Stepping through a [bind] without copying what follows it. *)
Lemma val_case {A} (m : M A) (f : A -> M unit) h a h1 t1
    (P : res unit * Host * list event -> Prop) :
  m h = (Val a, h1, t1) -> continued P t1 (f a h1) -> P (bind m f h).
Proof.
  intros E H. rewrite (bind_val m f h a h1 t1 E). exact H.
Qed.

Lemma send_case c (f : string -> M unit) h
    (P : res unit * Host * list event -> Prop) :
  continued P [Cmd c (fst (exec c h))] (f (fst (exec c h)) (snd (exec c h))) ->
  P (bind (sendcommand_onbox c) f h).
Proof. apply val_case. apply run_sendcommand. Qed.

Ltac finish_path :=
  cbv beta iota delta [continued outcome final trace fst snd].

Lemma main_paths h0 : main_path h0 (main h0).
Proof.
  unfold main.
  apply send_case. destruct (exec "pwd" h0) as [out h1] eqn:E1. cbn [fst snd].
  apply send_case. fold (ls_cmd (Py.strip out)).
  destruct (exec (ls_cmd (Py.strip out)) h1) as [listing h2] eqn:E2. cbn [fst snd].
  destruct (Py.contains UPGRADE_FILENAME listing) eqn:Hpkg; cbn [negb].
  2:{ rewrite bind_stop by (intros a; discriminate). unfold sys_exit. finish_path.
      eapply path_no_package; eassumption. }
  rewrite bind_ret.
  apply send_case.
  destruct (exec "vim-cmd hostsvc/enable_ssh" h2) as [o3 h3] eqn:E3. cbn [fst snd].
  apply send_case.
  destruct (exec "vim-cmd hostsvc/autostartmanager/enable_autostart 1" h3)
    as [o4 h4] eqn:E4. cbn [fst snd].
  eapply val_case; [apply run_getvms|].
  destruct (exec getallvms_cmd h4) as [resp h5] eqn:E5. cbn [fst snd].
  eapply val_case; [reflexivity|].
  rewrite power_down_step.
  assert (Hpro : prologue h0 (Py.strip out +++ "/" +++ UPGRADE_FILENAME)
                   (vms_of resp) (elapse 1 h5)
                   [Cmd "pwd" out; Cmd (ls_cmd (Py.strip out)) listing;
                    Cmd "vim-cmd hostsvc/enable_ssh" o3;
                    Cmd "vim-cmd hostsvc/autostartmanager/enable_autostart 1" o4;
                    Cmd getallvms_cmd resp; Sleep 1])
    by (econstructor; eassumption).
  set (vms := vms_of resp) in *.
  set (path := Py.strip out +++ "/" +++ UPGRADE_FILENAME) in *.
  destruct (power_down_loop (keys vms) 1 (elapse 1 h5)) as [[rd hd] td] eqn:Ed.
  pose proof (power_down_loop_result (keys vms) 1 (elapse 1 h5)) as Hrd.
  rewrite Ed, outcome_triple in Hrd.
  destruct Hrd as [-> | ->].
  2:{ rewrite (bind_raise _ _ _ _ _ _ Ed). finish_path.
      exact (path_power_down_raises h0 path vms (elapse 1 h5) _ _ _ _ Hpro Ed). }
  eapply val_case; [exact Ed|].
  destruct (maintenancemode_onbox true hd) as [[rm he] te] eqn:Em.
  pose proof (maintenancemode_returns true hd) as [b Hb].
  rewrite Em, outcome_triple in Hb. subst rm.
  eapply val_case; [exact Em|].
  destruct b; cbn [negb].
  - (* maintenance mode entered *)
    rewrite bind_ret. unfold upgradehost_onbox.
    eapply val_case;
      [rewrite bind_send; unfold ret; triples; reflexivity|].
    fold (upgrade_cmd path).
    destruct (exec (upgrade_cmd path) he) as [uout hu] eqn:Eu. cbn [fst snd].
    destruct (maintenancemode_onbox false hu) as [[rx hx] tx] eqn:Ex.
    pose proof (maintenancemode_returns false hu) as [b Hb].
    rewrite Ex, outcome_triple in Hb. subst rx.
    destruct (upgrade_succeeded uout) eqn:Hok.
    + eapply val_case; [exact Ex|].
      unfold reboothost_onbox.
      eapply val_case;
        [rewrite bind_send; unfold ret; triples; reflexivity|].
      fold reboot_cmd.
      destruct (exec reboot_cmd hx) as [ro hz] eqn:Ez. cbn [fst snd].
      unfold ret. finish_path.
      exact (path_reboot h0 path vms (elapse 1 h5) _ hd td he te uout hu b hx tx
               ro hz Hpro Ed Em Eu Hok Ex Ez).
    + eapply val_case; [exact Ex|].
      rewrite bind_then_exit.
      destruct (repower_loop (keys vms) hx) as [[rr hr] tr] eqn:Er. finish_path.
      exact (path_rollback h0 path vms (elapse 1 h5) _ hd td he te uout hu b hx tx
               rr hr tr Hpro Ed Em Eu Hok Ex Er).
  - (* the wait for maintenance mode timed out *)
    rewrite bind_stop
      by (intros a; rewrite bind_then_exit; triples; apply then_exit_not_val).
    rewrite bind_then_exit.
    destruct (repower_loop (keys vms) he) as [[rr hr] tr] eqn:Er. finish_path.
    exact (path_no_maintenance h0 path vms (elapse 1 h5) _ hd td he te rr hr tr
             Hpro Ed Em Er).
Qed.

(* ----------------------------------------------------------------- *)
(** *** The dictionary of the workloads *)

Lemma keys_dict_set {V} (d : dict V) k v :
  keys (dict_set d k v) = if in_dec string_dec k (keys d) then keys d else keys d ++ [k].
Proof.
  induction d as [|[k' v'] d IH]; simpl; [reflexivity|].
  destruct (String.eqb_spec k' k) as [->|Hne].
  - destruct (string_dec k k); [reflexivity | contradiction].
  - simpl. rewrite IH.
    destruct (string_dec k' k); [contradiction|].
    destruct (in_dec string_dec k (keys d)); reflexivity.
Qed.

Lemma dict_set_NoDup {V} (d : dict V) k v :
  NoDup (keys d) -> NoDup (keys (dict_set d k v)).
Proof.
  intros H. rewrite keys_dict_set.
  destruct (in_dec string_dec k (keys d)) as [|Hn]; [exact H|].
  apply NoDup_app; [exact H | repeat constructor; intros [] | ].
  intros x Hx [Hk|[]]. subst x. contradiction.
Qed.

Lemma collect_vms_NoDup lines : forall d,
  NoDup (keys d) -> NoDup (keys (collect_vms lines d)).
Proof.
  induction lines as [|line rest IH]; intros d H; simpl; [exact H|].
  destruct (Py.isdigit (Py.strip line)); apply IH; [apply dict_set_NoDup|];
    exact H.
Qed.

Lemma vms_of_NoDup resp : NoDup (keys (vms_of resp)).
Proof.
  unfold vms_of. destruct (negb (Py.truthy (Py.strip resp))).
  - constructor.
  - apply collect_vms_NoDup. constructor.
Qed.

(* ----------------------------------------------------------------- *)
(** *** What a segment of the trace of [main] cannot contain *)

Lemma answers_nil_on (P : event -> Prop) c t :
  Forall P t -> (forall e, P e -> answers c [e] = []) -> answers c t = [].
Proof.
  intros Ht Hf. apply (flat_map_nil_on P); [exact Ht|].
  intros e He. specialize (Hf e He). simpl in Hf. rewrite app_nil_r in Hf.
  exact Hf.
Qed.

Lemma upgrade_answers_nil_on (P : event -> Prop) t :
  Forall P t -> (forall e, P e -> upgrade_answers [e] = []) ->
  upgrade_answers t = [].
Proof.
  intros Ht Hf. apply (flat_map_nil_on P); [exact Ht|].
  intros e He. specialize (Hf e He). simpl in Hf. rewrite app_nil_r in Hf.
  exact Hf.
Qed.

Lemma registrations_nil_on (P : event -> Prop) t :
  Forall P t -> (forall e, P e -> registrations [e] = []) ->
  registrations t = [].
Proof.
  intros Ht Hf. apply (flat_map_nil_on P); [exact Ht|].
  intros e He. specialize (Hf e He). simpl in Hf. rewrite app_nil_r in Hf.
  exact Hf.
Qed.

Lemma not_issued_on (P : event -> Prop) c t :
  Forall P t -> (forall o, ~ P (Cmd c o)) -> ~ issued c t.
Proof.
  intros Ht Hf Hi. apply issued_inv in Hi. destruct Hi as [o Hi].
  rewrite Forall_forall in Ht. exact (Hf o (Ht _ Hi)).
Qed.

Lemma not_issued_app c t1 t2 :
  ~ issued c t1 -> ~ issued c t2 -> ~ issued c (t1 ++ t2).
Proof. rewrite issued_app. tauto. Qed.

Lemma down_segment vms n h r hd td :
  power_down_loop vms n h = (r, hd, td) -> Forall (down_event vms) td.
Proof.
  intros E. pose proof (power_down_loop_events vms vms n h (incl_refl _)) as H.
  rewrite E in H. exact H.
Qed.

Lemma mm_segment (enable : bool) h r h' t :
  maintenancemode_onbox enable h = (r, h', t) -> Forall (mm_event enable) t.
Proof.
  intros E. pose proof (maintenancemode_events enable h) as H.
  rewrite E in H. exact H.
Qed.

Lemma repower_segment vms h r h' t :
  repower_loop vms h = (r, h', t) -> Forall (repower_event vms) t.
Proof.
  intros E. pose proof (repower_loop_events vms vms h (incl_refl _)) as H.
  rewrite E in H. exact H.
Qed.

Lemma prologue_segment h0 path vms h t :
  prologue h0 path vms h t -> Forall prologue_event t.
Proof. intros H. destruct H. repeat constructor. Qed.

Lemma upgrade_segment path o : Forall upgrade_event [Cmd (upgrade_cmd path) o].
Proof. repeat constructor. Qed.

Lemma reboot_segment o : Forall reboot_event [Cmd reboot_cmd o].
Proof. repeat constructor. Qed.

(** The enumeration of the first steps, and the dictionary made of it. *)
Lemma prologue_discovered h0 path vms h t rest :
  prologue h0 path vms h t ->
  discovered (t ++ rest) = keys vms /\ NoDup (keys vms).
Proof.
  intros H. destruct H. split; [reflexivity | apply vms_of_NoDup].
Qed.

(** Segment facts are used through these tactics: [segments] collects the
    event class of every segment in the context, [quiet] empties the
    projections of the goal segment by segment, [unissued] shows that a
    command is not in a concatenation of segments. *)
Ltac segments :=
  repeat match goal with
    | E : prologue _ _ _ _ ?t |- _ =>
        lazymatch goal with
        | _ : Forall prologue_event t |- _ => fail
        | _ => pose proof (prologue_segment _ _ _ _ _ E)
        end
    | E : power_down_loop _ _ _ = (_, _, ?t) |- _ =>
        lazymatch goal with
        | _ : Forall (down_event _) t |- _ => fail
        | _ => pose proof (down_segment _ _ _ _ _ _ E)
        end
    | E : maintenancemode_onbox _ _ = (_, _, ?t) |- _ =>
        lazymatch goal with
        | _ : Forall (mm_event _) t |- _ => fail
        | _ => pose proof (mm_segment _ _ _ _ _ E)
        end
    | E : repower_loop _ _ = (_, _, ?t) |- _ =>
        lazymatch goal with
        | _ : Forall (repower_event _) t |- _ => fail
        | _ => pose proof (repower_segment _ _ _ _ _ E)
        end
    end.

Ltac class_cases :=
  let e := fresh "e" in let He := fresh "He" in
  intros e He; destruct He; reflexivity.

Ltac quiet :=
  repeat rewrite ?answers_app, ?upgrade_answers_app, ?registrations_app;
  repeat match goal with
    | H : Forall _ ?t |- context [answers ?c ?t] =>
        rewrite (answers_nil_on _ c t H) by class_cases
    | H : Forall _ ?t |- context [upgrade_answers ?t] =>
        rewrite (upgrade_answers_nil_on _ t H) by class_cases
    | H : Forall _ ?t |- context [registrations ?t] =>
        rewrite (registrations_nil_on _ t H) by class_cases
    end.

Ltac unissued :=
  repeat apply not_issued_app;
  solve [ match goal with
          | H : Forall _ ?t |- ~ issued _ ?t =>
              apply (not_issued_on _ _ _ H); let o := fresh in let C := fresh in
              intros o C; inversion C
          | |- ~ issued _ [Cmd _ _] =>
              let C := fresh in intros [C|[]]; discriminate C
          | |- ~ issued _ [] => intros []
          end ].

Ltac main_cases h0 :=
  let Hp := fresh "Hp" in
  pose proof (main_paths h0) as Hp;
  generalize dependent (main h0);
  let x := fresh "x" in intros x Hp; destruct Hp; triples; segments.

(* ----------------------------------------------------------------- *)
(** *** The package check *)

(** The revised script: a listing without the package name ends the run
    with status 1 after the two commands [pwd] and [ls -l], before any
    command that shuts a workload down, touches maintenance mode, upgrades
    or reboots. *)
Lemma main_missing_package_exits_1 h0 :
  Py.contains UPGRADE_FILENAME (listing_of h0) = false ->
  outcome (main h0) = Exit 1
  /\ exit_status (outcome (main h0)) = 1
  /\ commands (trace (main h0))
     = ["pwd"; ls_cmd (Py.strip (fst (exec "pwd" h0)))]
  /\ Forall (fun c => is_risky_cmd c = false) (commands (trace (main h0))).
Proof.
  unfold listing_of. intros Hmiss. unfold main.
  rewrite bind_send. destruct (exec "pwd" h0) as [out h1]. cbn [fst snd] in *.
  rewrite bind_send. fold (ls_cmd (Py.strip out)).
  rewrite Hmiss. cbn [negb].
  rewrite bind_stop by (intros a; discriminate). unfold sys_exit. triples.
  repeat split. repeat constructor.
Qed.

(** The original script: the same listing ends the run with status 0. *)
Lemma legacy_missing_package_exits_0 h0 :
  Py.contains "VMware-ESXi-7.0U2c-18426014-depot.zip" (legacy_listing_of h0) = false ->
  outcome (legacy_main h0) = Exit 0
  /\ exit_status (outcome (legacy_main h0)) = 0
  /\ commands (trace (legacy_main h0))
     = ["pwd"; "ls -l " +++ "'" +++ Py.rstrip (fst (exec "pwd" h0)) +++ "/'"].
Proof.
  unfold legacy_listing_of. intros Hmiss. unfold legacy_main.
  rewrite bind_send. destruct (exec "pwd" h0) as [out h1]. cbn [fst snd] in *.
  cbv zeta. rewrite bind_send.
  change ("ls -l " +++ "'" +++ Py.rstrip out +++ "/'")
    with ("ls -l " +++ "'" +++ Py.rstrip out +++ "/'") in *.
  rewrite Hmiss.
  rewrite bind_stop by (intros a; discriminate). unfold sys_exit. triples.
  repeat split.
Qed.

(* ----------------------------------------------------------------- *)
(** *** Re-powering *)

Lemma guarded_on (P : event -> Prop) t :
  Forall P t -> (forall v o, ~ P (Cmd (poweron_cmd v) o)) -> guarded t.
Proof.
  intros Ht Hf. apply guarded_none. eapply Forall_impl; [|exact Ht].
  intros e He v o ->. exact (Hf v o He).
Qed.

Ltac unguarded :=
  solve [ match goal with
          | H : Forall _ ?t |- guarded ?t =>
              apply (guarded_on _ _ H); let v := fresh in let o := fresh in
              let C := fresh in intros v o C; inversion C
          | |- guarded [Cmd _ _] =>
              apply guarded_none; repeat constructor;
              let v := fresh in let o := fresh in let C := fresh in
              intros v o C; discriminate C
          end ].

Lemma repower_segment_guarded vms h r h' t :
  repower_loop vms h = (r, h', t) -> guarded t.
Proof.
  intros E. pose proof (repower_loop_guarded vms h) as H.
  rewrite E in H. exact H.
Qed.

(** The last reading of a workload in a trace that ends with the re-power
    loop is the reading of that loop. *)
Lemma last_reading_snoc v pre t out :
  answers (summary_cmd v) t = [out] ->
  last_reading v (pre ++ t) = Some (power_state_of out).
Proof.
  intros H. unfold last_reading. rewrite answers_app, H, last_opt_snoc.
  reflexivity.
Qed.

(** In a trace [pre ++ t] whose end [t] is a run of the re-power loop and
    whose beginning has no power-on: a power-on is issued only for a
    workload whose last reading is [poweredOff], and, when the loop came to
    its end, for every workload of the loop with that last reading. *)
Lemma repower_tail vms h r h' t pre v :
  repower_loop vms h = (r, h', t) -> NoDup vms ->
  ~ issued (poweron_cmd v) pre ->
  (issued (poweron_cmd v) (pre ++ t) ->
   reads "poweredOff" (last_reading v (pre ++ t)) = true)
  /\ (r = Val tt -> In v vms ->
      reads "poweredOff" (last_reading v (pre ++ t)) = true ->
      issued (poweron_cmd v) (pre ++ t)).
Proof.
  intros E Hnd Hpre.
  pose proof (repower_segment _ _ _ _ _ E) as Hev.
  destruct (in_dec string_dec v vms) as [Hin|Hout].
  - pose proof (repower_loop_readings vms h v Hnd Hin) as [H1 H2].
    rewrite E in H1, H2. rewrite trace_triple in H1, H2.
    rewrite outcome_triple in H2. split.
    + rewrite issued_app. intros [Hi|Hi]; [contradiction|].
      destruct (H1 Hi) as [out [Ha Hout]].
      rewrite (last_reading_snoc v pre t out Ha), Hout. reflexivity.
    + intros -> _ Hr. destruct (H2 eq_refl) as [out [Ha Hi]].
      rewrite (last_reading_snoc v pre t out Ha) in Hr.
      apply issued_app. right. apply Hi.
      destruct (power_state_of out) as [s| |]; try discriminate Hr.
      simpl in Hr. apply String.eqb_eq in Hr. subst s. reflexivity.
  - destruct (repower_answers_other vms t v Hev Hout) as [_ Hno]. split.
    + rewrite issued_app. tauto.
    + intros _ Hin. contradiction.
Qed.

Lemma reads_exclusive s s' r : reads s r = true -> reads s' r = true -> s = s'.
Proof.
  destruct r as [[x| |]|]; simpl; try discriminate.
  intros H1 H2. apply String.eqb_eq in H1, H2. congruence.
Qed.

(** A run of [main] issues a power-on only for a workload whose last
    reading in the run is [poweredOff], and every power-on follows such a
    reading at once. *)
Lemma main_poweron_sound h0 :
  guarded (trace (main h0))
  /\ forall v, issued (poweron_cmd v) (trace (main h0)) ->
               reads "poweredOff" (last_reading v (trace (main h0))) = true.
Proof.
  main_cases h0.
  - split.
    + apply guarded_none. repeat constructor; intros v o C; discriminate C.
    + intros v [C|[C|[]]]; discriminate C.
  - split.
    + apply guarded_app; unguarded.
    + intros v Hi. exfalso. revert Hi. unissued.
  - destruct (prologue_discovered _ _ _ _ _ [] H) as [_ Hnd].
    split.
    + repeat apply guarded_app; try unguarded.
      eapply repower_segment_guarded; eassumption.
    + intros v. rewrite !app_assoc.
      eapply repower_tail; [eassumption | exact Hnd|].
      rewrite <- !app_assoc. unissued.
  - split.
    + repeat apply guarded_app; unguarded.
    + intros v Hi. exfalso. revert Hi. unissued.
  - destruct (prologue_discovered _ _ _ _ _ [] H) as [_ Hnd].
    split.
    + repeat apply guarded_app; try unguarded.
      eapply repower_segment_guarded; eassumption.
    + intros v. rewrite !app_assoc.
      eapply repower_tail; [eassumption | exact Hnd|].
      rewrite <- !app_assoc. unissued.
Qed.

(** C10: in a run of [main] every power-on command comes right after a
    reading of the power state of the same workload that is exactly
    [poweredOff]; a workload whose last reading is not [poweredOff], [unknown]
    for one, gets no power-on command, whether or not it is in the restore
    set. *)
Theorem poweron_only_after_powered_off_reading h0 v :
  guarded (trace (main h0))
  /\ (issued (poweron_cmd v) (trace (main h0)) ->
      reads "poweredOff" (last_reading v (trace (main h0))) = true)
  /\ (reads "unknown" (last_reading v (trace (main h0))) = true ->
      ~ issued (poweron_cmd v) (trace (main h0))).
Proof.
  destruct (main_poweron_sound h0) as [Hg Hs].
  split; [exact Hg|]. split; [apply Hs|].
  intros Hu Hi. pose proof (reads_exclusive _ _ _ Hu (Hs v Hi)) as C.
  discriminate C.
Qed.

Lemma repower_segment_result vms h rr h' t :
  repower_loop vms h = (rr, h', t) -> rr = Val tt \/ rr = Raise IndexError.
Proof.
  intros E. pose proof (repower_loop_result vms h) as H.
  rewrite E in H. exact H.
Qed.

Lemma restore_set_discovered v t : In v (restore_set t) -> In v (discovered t).
Proof. unfold restore_set. intros H. apply filter_In in H. tauto. Qed.

(** When the run ends with the status 2 or 3 the re-power loop came to its
    end: every discovered workload whose last reading is [poweredOff] got
    its power-on. *)
Lemma main_repower_complete h0 v :
  outcome (main h0) = Exit 2 \/ outcome (main h0) = Exit 3 ->
  In v (discovered (trace (main h0))) ->
  reads "poweredOff" (last_reading v (trace (main h0))) = true ->
  issued (poweron_cmd v) (trace (main h0)).
Proof.
  main_cases h0.
  - intros [C|C]; discriminate C.
  - intros [C|C]; discriminate C.
  - destruct (prologue_discovered _ _ _ _ _ (td ++ te ++ tr) H) as [Hd Hnd].
    rewrite Hd. intros Hex Hin.
    assert (Hrr : rr = Val tt).
    { match goal with
      | E : repower_loop _ _ = (rr, _, _) |- _ =>
          destruct (repower_segment_result _ _ _ _ _ E) as [->| ->]
      end; [reflexivity | destruct Hex as [C|C]; discriminate C]. }
    rewrite !app_assoc.
    eapply repower_tail; [eassumption | exact Hnd | | exact Hrr | exact Hin].
    rewrite <- !app_assoc. unissued.
  - intros [C|C]; discriminate C.
  - destruct (prologue_discovered _ _ _ _ _
                (td ++ te ++ [Cmd (upgrade_cmd path) uout] ++ tx ++ tr) H)
      as [Hd Hnd].
    rewrite Hd. intros Hex Hin.
    assert (Hrr : rr = Val tt).
    { match goal with
      | E : repower_loop _ _ = (rr, _, _) |- _ =>
          destruct (repower_segment_result _ _ _ _ _ E) as [->| ->]
      end; [reflexivity | destruct Hex as [C|C]; discriminate C]. }
    rewrite !app_assoc.
    eapply repower_tail; [eassumption | exact Hnd | | exact Hrr | exact Hin].
    rewrite <- !app_assoc.
    pose proof (upgrade_segment path uout). unissued.
Qed.

(** The re-power loop does not look at the restore set: on a failure path
    that ends with the status 2 or 3, a discovered workload, found running
    or not, gets a power-on command exactly when its power state, read by
    the re-power loop, is [poweredOff]. *)
Lemma rollback_powers_on_what_reads_off h0 v :
  outcome (main h0) = Exit 2 \/ outcome (main h0) = Exit 3 ->
  In v (discovered (trace (main h0))) ->
  (issued (poweron_cmd v) (trace (main h0))
   <-> reads "poweredOff" (last_reading v (trace (main h0))) = true).
Proof.
  intros Hex Hin. split.
  - apply (main_poweron_sound h0).
  - apply main_repower_complete; [exact Hex | exact Hin].
Qed.

(* ----------------------------------------------------------------- *)
(** *** The wait for maintenance mode times out *)

Lemma upgrade_answers_nil_commands t :
  upgrade_answers t = [] ->
  Forall (fun c => is_upgrade_cmd c = false) (commands t).
Proof.
  induction t as [|[c o|n] t IH]; simpl; intros H.
  - constructor.
  - destruct (is_upgrade_cmd c) eqn:E; [discriminate H|].
    constructor; [exact E | apply IH; exact H].
  - apply IH. exact H.
Qed.

Lemma existsb_unissued c t :
  ~ issued c t -> existsb (String.eqb c) (commands t) = false.
Proof.
  intros H. destruct (existsb (String.eqb c) (commands t)) eqn:E; [|reflexivity].
  exfalso. apply H. apply existsb_exists in E. destruct E as [x [Hin Hx]].
  apply String.eqb_eq in Hx. subst x. exact Hin.
Qed.

Lemma forallb_false_in {A} (f : A -> bool) a l :
  In a l -> f a = false -> forallb f l = false.
Proof.
  intros Hin Hf. destruct (forallb f l) eqn:E; [|reflexivity].
  rewrite forallb_forall in E. rewrite (E a Hin) in Hf. discriminate Hf.
Qed.

Lemma mm_entered_not_timed_out pre te post hd he :
  maintenancemode_onbox true hd = (Val true, he, te) ->
  mm_entry_timed_out (pre ++ te ++ post) = false.
Proof.
  intros E. destruct (maintenancemode_answers true hd) as [Hhit _].
  rewrite E in Hhit. triples. destruct (Hhit eq_refl) as [a [Hin Ha]].
  unfold mm_entry_timed_out. apply andb_false_iff. right.
  apply (forallb_false_in _ a).
  - rewrite !answers_app. apply in_or_app. right. apply in_or_app. left. exact Hin.
  - rewrite Ha. reflexivity.
Qed.

Lemma mm_timed_out_polls hd he te :
  maintenancemode_onbox true hd = (Val false, he, te) ->
  length (answers mm_get_cmd te) = MAINTENANCE_MODE_TIMEOUT.
Proof.
  intros E. destruct (maintenancemode_answers true hd) as [_ [Hmiss _]].
  rewrite E in Hmiss. triples. apply (Hmiss eq_refl).
Qed.

(** C3, as the code has it: when entry into maintenance mode was requested
    and none of the 45 polls answered [enabled], the run issues no upgrade
    command; unless a power-state answer makes the re-power loop raise, it
    ends with the status 2 after a power-on command for every workload of
    the restore set whose power state, read again, is [poweredOff]. *)
Theorem mm_timeout_rolls_back h0 :
  mm_entry_timed_out (trace (main h0)) = true ->
  Forall (fun c => is_upgrade_cmd c = false) (commands (trace (main h0)))
  /\ length (answers mm_get_cmd (trace (main h0))) = MAINTENANCE_MODE_TIMEOUT
  /\ (raised (outcome (main h0)) = false ->
      outcome (main h0) = Exit 2
      /\ exit_status (outcome (main h0)) = 2
      /\ forall v, In v (restore_set (trace (main h0))) ->
           reads "poweredOff" (last_reading v (trace (main h0))) = true ->
           issued (poweron_cmd v) (trace (main h0))).
Proof.
  pose proof (main_repower_complete h0) as Hcomplete. revert Hcomplete.
  main_cases h0; intros Hcomplete Hto.
  - discriminate Hto.
  - unfold mm_entry_timed_out in Hto.
    rewrite existsb_unissued in Hto by unissued. discriminate Hto.
  - split; [|split].
    + apply upgrade_answers_nil_commands. quiet. reflexivity.
    + quiet. simpl. rewrite app_nil_r. eapply mm_timed_out_polls; eassumption.
    + intros Hr.
      assert (Hrr : rr = Val tt).
      { match goal with
        | E : repower_loop _ _ = (rr, _, _) |- _ =>
            destruct (repower_segment_result _ _ _ _ _ E) as [->| ->]
        end; [reflexivity | discriminate Hr]. }
      subst rr. repeat split.
      intros v Hv. apply Hcomplete; [left; reflexivity|].
      apply restore_set_discovered. exact Hv.
  - rewrite (app_assoc t td) in Hto.
    erewrite mm_entered_not_timed_out in Hto by eassumption. discriminate Hto.
  - rewrite (app_assoc t td) in Hto.
    erewrite mm_entered_not_timed_out in Hto by eassumption. discriminate Hto.
Qed.

(* ----------------------------------------------------------------- *)
(** *** The verdict on the upgrade *)

Lemma upgrade_answers_one path o : upgrade_answers [Cmd (upgrade_cmd path) o] = [o].
Proof. reflexivity. Qed.

Lemma mm_exit_issued hu r hx tx :
  maintenancemode_onbox false hu = (r, hx, tx) -> issued mm_disable_cmd tx.
Proof.
  intros E. destruct (maintenancemode_shape false hu) as [o [m [tl [Ht _]]]].
  rewrite E, trace_triple in Ht. cbv zeta in Ht. rewrite Ht. left. reflexivity.
Qed.

Lemma upgrade_succeeded_markers out :
  upgrade_succeeded out = true
  <-> Py.contains "The update completed successfully" out = true
      /\ Py.contains "Reboot Required: true" out = true.
Proof. unfold upgrade_succeeded. apply andb_true_iff. Qed.

(** C2, as the code has it: the reboot command is issued exactly when the
    answer of the upgrade command has both markers; when the upgrade was run
    and a marker is missing, the run leaves maintenance mode and issues no
    reboot, and unless a power-state answer makes the re-power loop raise it
    ends with the status 3 after a power-on command for every workload of
    the restore set whose power state, read again, is [poweredOff]. *)
Theorem reboot_iff_both_markers h0 :
  (issued reboot_cmd (trace (main h0))
   <-> exists out, In out (upgrade_answers (trace (main h0)))
         /\ Py.contains "The update completed successfully" out = true
         /\ Py.contains "Reboot Required: true" out = true)
  /\ (forall out, In out (upgrade_answers (trace (main h0))) ->
        Py.contains "The update completed successfully" out = false
        \/ Py.contains "Reboot Required: true" out = false ->
        issued mm_disable_cmd (trace (main h0))
        /\ ~ issued reboot_cmd (trace (main h0))
        /\ (raised (outcome (main h0)) = false ->
            outcome (main h0) = Exit 3
            /\ exit_status (outcome (main h0)) = 3
            /\ forall v, In v (restore_set (trace (main h0))) ->
                 reads "poweredOff" (last_reading v (trace (main h0))) = true ->
                 issued (poweron_cmd v) (trace (main h0)))).
Proof.
  pose proof (main_repower_complete h0) as Hcomplete. revert Hcomplete.
  main_cases h0; intros Hcomplete.
  - split; [split|].
    + intros [C|[C|[]]]; discriminate C.
    + intros [uo [[] _]].
    + intros uo [].
  - quiet. split; [split|].
    + intros Hi. exfalso. revert Hi. unissued.
    + intros [uo [[] _]].
    + intros uo [].
  - quiet. split; [split|].
    + intros Hi. exfalso. revert Hi. unissued.
    + intros [uo [[] _]].
    + intros uo [].
  - quiet. rewrite upgrade_answers_one.
    change ([] ++ [] ++ [] ++ [uout] ++ [] ++ []) with [uout].
    match goal with
    | Hok : upgrade_succeeded _ = true |- _ =>
        apply upgrade_succeeded_markers in Hok; destruct Hok as [Ha Hb]
    end.
    split; [split|].
    + intros _. exists uout. split; [left; reflexivity | split; assumption].
    + intros _. rewrite !issued_app. do 5 right. unfold issued. simpl.
      left. reflexivity.
    + intros uo [<-|[]] [C|C]; [rewrite Ha in C | rewrite Hb in C];
        discriminate C.
  - quiet. rewrite upgrade_answers_one.
    change ([] ++ [] ++ [] ++ [uout] ++ [] ++ []) with [uout].
    pose proof (upgrade_segment path uout) as Hup.
    assert (Hnr : ~ issued reboot_cmd
                    (t ++ td ++ te ++ [Cmd (upgrade_cmd path) uout] ++ tx ++ tr))
      by unissued.
    split; [split|].
    + intros Hi. contradiction.
    + intros [uo [[<-|[]] Hab]]. apply upgrade_succeeded_markers in Hab.
      match goal with
      | Hok : upgrade_succeeded _ = false |- _ => rewrite Hok in Hab
      end. discriminate Hab.
    + intros uo _ _. split; [|split; [exact Hnr|]].
      * rewrite !issued_app. do 4 right. left. eapply mm_exit_issued; eassumption.
      * intros Hr.
        assert (Hrr : rr = Val tt).
        { match goal with
          | E : repower_loop _ _ = (rr, _, _) |- _ =>
              destruct (repower_segment_result _ _ _ _ _ E) as [->| ->]
          end; [reflexivity | discriminate Hr]. }
        subst rr. repeat split.
        intros v Hv. apply Hcomplete; [right; reflexivity|].
        apply restore_set_discovered. exact Hv.
Qed.

(* ----------------------------------------------------------------- *)
(** *** Leaving maintenance mode *)





(* ----------------------------------------------------------------- *)
(** *** Auto-start priorities in [main] *)

Lemma found_on_window vs pre td rest :
  (forall v, In v vs -> answers (summary_cmd v) pre = []) ->
  rest = [] \/ (forall v, In v vs -> answers (summary_cmd v) td <> []) ->
  found_on vs (pre ++ td ++ rest) = found_on vs td.
Proof.
  intros Hpre Hrest. apply found_on_ext. intros v Hv.
  rewrite first_reading_skip by (apply Hpre; exact Hv).
  destruct Hrest as [->|Hrest].
  - rewrite app_nil_r. reflexivity.
  - apply first_reading_keep. apply Hrest. exact Hv.
Qed.

Lemma seq_sorted len : forall start, StronglySorted lt (seq start len).
Proof.
  induction len as [|len IH]; intros start; simpl; constructor.
  - apply IH.
  - apply Forall_forall. intros x Hx. apply in_seq in Hx. lia.
Qed.

Lemma unquiesced_on (P : event -> Prop) v t :
  Forall P t -> (forall e, P e -> ~ quiesces v e) ->
  preceded_by (registers v) (quiesces v) t.
Proof.
  intros Ht Hf. apply preceded_by_none. eapply Forall_impl; [|exact Ht].
  exact Hf.
Qed.

Ltac unquiesced :=
  solve [ match goal with
          | H : Forall _ ?t |- preceded_by _ _ ?t =>
              apply (unquiesced_on _ _ _ H);
              let e := fresh in let He := fresh in let o := fresh in
              let C := fresh in
              intros e He [o [C|[C|C]]]; destruct He; discriminate C
          end ].

Lemma down_segment_registers_first vms n h r hd td v :
  power_down_loop vms n h = (r, hd, td) ->
  preceded_by (registers v) (quiesces v) td.
Proof.
  intros E. pose proof (power_down_loop_registers_first vms n h v) as H.
  rewrite E in H. exact H.
Qed.

Lemma down_segment_registrations vms h r hd td :
  power_down_loop vms 1 h = (r, hd, td) -> NoDup vms ->
  registrations td = registrations_from (found_on vms td) 1.
Proof.
  intros E Hnd. pose proof (power_down_loop_registrations vms 1 h Hnd) as H.
  rewrite E in H. exact H.
Qed.

Lemma down_segment_reads_all vms n h hd td v :
  power_down_loop vms n h = (Val tt, hd, td) -> In v vms ->
  answers (summary_cmd v) td <> [].
Proof.
  intros E Hin. pose proof (power_down_loop_reads_all vms n h v) as H.
  rewrite E in H. apply H; [reflexivity | exact Hin].
Qed.

(** The registrations of a run are those of the restore set, in discovery
    order, with the priorities 1, 2, ... *)
Lemma main_registrations h0 :
  registrations (trace (main h0))
  = registrations_from (restore_set (trace (main h0))) 1.
Proof.
  main_cases h0.
  - reflexivity.
  - destruct (prologue_discovered _ _ _ _ _ td H) as [Hd Hnd].
    unfold restore_set. rewrite Hd. fold (found_on (keys vms) (t ++ td)).
    rewrite <- (app_nil_r td) at 2.
    rewrite found_on_window; [|intros v _; quiet; reflexivity | left; reflexivity].
    quiet. simpl app. eapply down_segment_registrations; eassumption.
  - destruct (prologue_discovered _ _ _ _ _ (td ++ te ++ tr) H) as [Hd Hnd].
    unfold restore_set. rewrite Hd.
    fold (found_on (keys vms) (t ++ td ++ te ++ tr)).
    rewrite found_on_window;
      [|intros v _; quiet; reflexivity
       |right; intros v Hv; eapply down_segment_reads_all; eassumption].
    quiet. rewrite app_nil_r. simpl app.
    eapply down_segment_registrations; eassumption.
  - pose proof (upgrade_segment path uout) as Hup.
    pose proof (reboot_segment ro) as Hre.
    destruct (prologue_discovered _ _ _ _ _
                (td ++ te ++ [Cmd (upgrade_cmd path) uout] ++ tx
                   ++ [Cmd reboot_cmd ro]) H) as [Hd Hnd].
    unfold restore_set. rewrite Hd.
    fold (found_on (keys vms)
            (t ++ td ++ te ++ [Cmd (upgrade_cmd path) uout] ++ tx
               ++ [Cmd reboot_cmd ro])).
    rewrite found_on_window;
      [|intros v _; quiet; reflexivity
       |right; intros v Hv; eapply down_segment_reads_all; eassumption].
    quiet. rewrite app_nil_r. simpl app.
    eapply down_segment_registrations; eassumption.
  - pose proof (upgrade_segment path uout) as Hup.
    destruct (prologue_discovered _ _ _ _ _
                (td ++ te ++ [Cmd (upgrade_cmd path) uout] ++ tx ++ tr) H)
      as [Hd Hnd].
    unfold restore_set. rewrite Hd.
    fold (found_on (keys vms)
            (t ++ td ++ te ++ [Cmd (upgrade_cmd path) uout] ++ tx ++ tr)).
    rewrite found_on_window;
      [|intros v _; quiet; reflexivity
       |right; intros v Hv; eapply down_segment_reads_all; eassumption].
    quiet. rewrite app_nil_r. simpl app.
    eapply down_segment_registrations; eassumption.
Qed.

Lemma main_registers_first h0 v :
  preceded_by (registers v) (quiesces v) (trace (main h0)).
Proof.
  main_cases h0.
  - apply preceded_by_none. repeat constructor; intros [o [C|[C|C]]]; discriminate C.
  - apply preceded_by_app; [unquiesced|].
    eapply down_segment_registers_first; eassumption.
  - repeat apply preceded_by_app; try unquiesced.
    eapply down_segment_registers_first; eassumption.
  - pose proof (upgrade_segment path uout) as Hup.
    pose proof (reboot_segment ro) as Hre.
    repeat apply preceded_by_app; try unquiesced.
    eapply down_segment_registers_first; eassumption.
  - pose proof (upgrade_segment path uout) as Hup.
    repeat apply preceded_by_app; try unquiesced.
    eapply down_segment_registers_first; eassumption.
Qed.

(* ----------------------------------------------------------------- *)
(** *** Answers without the key *)

Lemma tools_status_in_keyless lines :
  existsb (Py.contains "toolsStatus") lines = false ->
  tools_status_in lines = Val None.
Proof.
  induction lines as [|line rest IH]; simpl; [reflexivity|].
  intros H. apply orb_false_iff in H. destruct H as [H1 H2].
  rewrite H1. apply IH. exact H2.
Qed.

Lemma power_state_in_keyless lines :
  existsb (Py.contains "powerState") lines = false ->
  power_state_in lines = Val "unknown".
Proof.
  induction lines as [|line rest IH]; simpl; [reflexivity|].
  intros H. apply orb_false_iff in H. destruct H as [H1 H2].
  rewrite H1. apply IH. exact H2.
Qed.

(** C7, as the code has it: an answer none of whose lines has the key is
    read without raising, as [None] for the tools status and as [unknown]
    for the power state.  [shutdownvm_onbox] takes [None] for unusable tools
    and forces the power-off; the power-down and the re-power loop leave a
    workload that reads [unknown] alone; [graceful_shutdown_onbox], however,
    takes [unknown] for the end of the shutdown and returns [True]. *)
Theorem keyless_answers_read_as_not_found v h n :
  (existsb (Py.contains "toolsStatus")
     (Py.splitlines (fst (exec (guest_cmd v) h))) = false ->
   outcome (check_vmware_tools_status v h) = Val None
   /\ outcome (shutdownvm_onbox v h) = Val tt
   /\ commands (trace (shutdownvm_onbox v h)) = [guest_cmd v; poweroff_cmd v])
  /\ (existsb (Py.contains "powerState")
        (Py.split NL (fst (exec (summary_cmd v) h))) = false ->
      outcome (getvmpowerstate_onbox v h) = Val "unknown"
      /\ commands (trace (power_down_loop [v] n h)) = [summary_cmd v]
      /\ commands (trace (repower_loop [v] h)) = [summary_cmd v])
  /\ (existsb (Py.contains "powerState")
        (Py.split NL (fst (exec (summary_cmd v) (snd (exec (shutdown_cmd v) h)))))
      = false ->
      outcome (graceful_shutdown_onbox v h) = Val true
      /\ commands (trace (graceful_shutdown_onbox v h))
         = [shutdown_cmd v; summary_cmd v]).
Proof.
  split; [|split].
  - intros H. apply tools_status_in_keyless in H.
    fold (tools_status_of (fst (exec (guest_cmd v) h))) in H.
    rewrite run_check_tools, run_shutdownvm. cbv zeta. rewrite H.
    repeat split.
  - intros H. apply power_state_in_keyless in H.
    fold (power_state_of (fst (exec (summary_cmd v) h))) in H.
    rewrite run_getvmpowerstate, power_down_loop_cons, repower_loop_cons.
    cbv zeta. rewrite H. repeat split.
  - intros H. apply power_state_in_keyless in H.
    rewrite run_graceful. cbv zeta.
    unfold SHUTDOWN_TIMEOUT_PER_VM. rewrite await_power_off_S. cbv zeta.
    unfold power_state_of. rewrite H. repeat split.
Qed.

(* ----------------------------------------------------------------- *)
(** *** The string methods on examples *)

Example strip_example :
  Py.strip (" /vmfs/volumes/ds1" +++ LF) = "/vmfs/volumes/ds1".
Proof. reflexivity. Qed.

Example split_example : Py.split "=" "a = b=c" = ["a "; " b"; "c"].
Proof. reflexivity. Qed.

Example split_without_separator : Py.split "=" "powerState" = ["powerState"].
Proof. reflexivity. Qed.

Example splitlines_example :
  Py.splitlines ("a" +++ LF +++ LF +++ "b" +++ String "013" LF +++ "c" +++ LF)
  = ["a"; ""; "b"; "c"].
Proof. reflexivity. Qed.

Example split_newline_example :
  Py.split NL ("a" +++ LF +++ "b" +++ LF) = ["a"; "b"; ""].
Proof. reflexivity. Qed.

Example contains_example :
  Py.contains "Reboot Required: true" upgrade_done = true
  /\ Py.contains "Reboot Required: true" upgrade_no_reboot = false.
Proof. split; reflexivity. Qed.

Example lower_example : Py.lower "ToolsOK" = "toolsok".
Proof. reflexivity. Qed.

Example isdigit_example :
  (Py.isdigit "12", Py.isdigit "", Py.isdigit "1a") = (true, false, false).
Proof. reflexivity. Qed.

Example str_of_nat_example : (Py.str_of_nat 0, Py.str_of_nat 12) = ("0", "12").
Proof. reflexivity. Qed.

Example power_state_example :
  power_state_of (summary_text "poweredOff") = Val "poweredOff"
  /\ power_state_of "" = Val "unknown"
  /\ power_state_of "powerState" = Raise IndexError.
Proof. repeat split. Qed.

Example tools_status_example :
  tools_status_of (guest_text "toolsOk") = Val (Some "toolsOk")
  /\ tools_status_of "" = Val None
  /\ tools_status_of "toolsStatus" = Raise IndexError.
Proof. repeat split. Qed.

(** [needle in hay] holds exactly when [hay] is some text, [needle], and
    some text. *)
Lemma startswith_spec p s :
  Py.startswith p s = true <-> exists rest, s = p +++ rest.
Proof.
  revert s. induction p as [|a p IH]; intros s; simpl.
  - split; [intros _; exists s; reflexivity | reflexivity].
  - destruct s as [|b s].
    + split; [discriminate | intros [rest H]; discriminate H].
    + rewrite andb_true_iff, IH. split.
      * intros [Hab [rest ->]]. apply Ascii.eqb_eq in Hab. subst b.
        exists rest. reflexivity.
      * intros [rest H]. injection H as -> ->.
        split; [apply Ascii.eqb_refl | exists rest; reflexivity].
Qed.

Lemma contains_spec needle hay :
  Py.contains needle hay = true
  <-> exists before rest, hay = before +++ needle +++ rest.
Proof.
  induction hay as [|c hay IH].
  - simpl. rewrite orb_false_r, startswith_spec. split.
    + intros [rest H]. exists "", rest. exact H.
    + intros [[|b before] [rest H]]; [exists rest; exact H | discriminate H].
  - cbn [Py.contains]. rewrite orb_true_iff, startswith_spec, IH. split.
    + intros [[rest H]|[before [rest H]]].
      * exists "", rest. exact H.
      * exists (String c before), rest. simpl. rewrite H. reflexivity.
    + intros [[|b before] [rest H]].
      * left. exists rest. exact H.
      * right. simpl in H. injection H as _ H. exists before, rest. exact H.
Qed.

Lemma unissued_existsb c t :
  existsb (String.eqb c) (commands t) = false -> ~ issued c t.
Proof.
  intros E Hi. unfold issued in Hi.
  assert (H : existsb (String.eqb c) (commands t) = true).
  { apply existsb_exists. exists c. split; [exact Hi | apply String.eqb_refl]. }
  rewrite E in H. discriminate H.
Qed.

(* ----------------------------------------------------------------- *)
(** *** Further properties: the enumeration of the workloads *)

Lemma filter_filter_comm {A} (f g : A -> bool) l :
  filter f (filter g l) = filter g (filter f l).
Proof.
  induction l as [|x l IH]; simpl; [reflexivity|].
  destruct (g x) eqn:Hg, (f x) eqn:Hf; simpl; rewrite ?Hg, ?Hf, IH; reflexivity.
Qed.

Lemma filter_all_true {A} (f : A -> bool) l :
  (forall x, In x l -> f x = true) -> filter f l = l.
Proof.
  induction l as [|x l IH]; simpl; intros H; [reflexivity|].
  rewrite (H x) by (left; reflexivity). f_equal. apply IH.
  intros y Hy. apply H. right. exact Hy.
Qed.

Lemma unseen_snoc seen x l :
  filter (unseen (seen ++ [x])) l
  = filter (unseen seen) (filter (fun y => negb (String.eqb y x)) l).
Proof.
  assert (Hu : forall y, unseen (seen ++ [x]) y
                         = unseen seen y && negb (String.eqb y x)).
  { intros y. unfold unseen. rewrite existsb_app. simpl.
    rewrite orb_false_r, negb_orb. reflexivity. }
  induction l as [|y l IH]; simpl; [reflexivity|]. rewrite Hu.
  destruct (String.eqb y x); simpl.
  - rewrite andb_false_r. exact IH.
  - rewrite andb_true_r. destruct (unseen seen y); rewrite IH; reflexivity.
Qed.

Lemma unseen_in seen x : In x seen -> unseen seen x = false.
Proof.
  intros H. unfold unseen. apply negb_false_iff. apply existsb_exists.
  exists x. split; [exact H | apply String.eqb_refl].
Qed.

Lemma unseen_notin seen x : ~ In x seen -> unseen seen x = true.
Proof.
  intros H. unfold unseen. apply negb_true_iff.
  destruct (existsb (String.eqb x) seen) eqn:E; [|reflexivity].
  apply existsb_exists in E. destruct E as [y [Hy Hxy]].
  apply String.eqb_eq in Hxy. subst y. contradiction.
Qed.

Lemma filter_drop_seen seen x l :
  In x seen ->
  filter (unseen seen) (filter (fun y => negb (String.eqb y x)) l)
  = filter (unseen seen) l.
Proof.
  intros Hx. induction l as [|y l IH]; simpl; [reflexivity|].
  destruct (String.eqb_spec y x) as [->|Hne]; simpl.
  - rewrite (unseen_in seen x Hx). exact IH.
  - rewrite IH. reflexivity.
Qed.

Lemma collect_vms_keys lines : forall d,
  keys (collect_vms lines d)
  = keys d ++ filter (unseen (keys d))
                (first_occurrences (filter Py.isdigit (map Py.strip lines))).
Proof.
  induction lines as [|line rest IH]; intros d; simpl.
  - rewrite app_nil_r. reflexivity.
  - destruct (Py.isdigit (Py.strip line)) eqn:Hd; [|apply IH].
    rewrite IH, keys_dict_set. simpl.
    destruct (in_dec string_dec (Py.strip line) (keys d)) as [Hin|Hout].
    + rewrite (unseen_in _ _ Hin). rewrite filter_drop_seen by exact Hin.
      reflexivity.
    + rewrite (unseen_notin _ _ Hout). rewrite <- app_assoc. simpl.
      rewrite unseen_snoc. reflexivity.
Qed.

Lemma collect_vms_self lines : forall d k v,
  (forall k' v', In (k', v') d -> v' = k') ->
  In (k, v) (collect_vms lines d) -> v = k.
Proof.
  induction lines as [|line rest IH]; intros d k v Hd Hin; simpl in Hin.
  - exact (Hd k v Hin).
  - destruct (Py.isdigit (Py.strip line)); [|exact (IH d k v Hd Hin)].
    apply (IH (dict_set d (Py.strip line) (Py.strip line)) k v); [|exact Hin].
    clear Hin IH.
    induction d as [|[k0 v0] d IHd]; simpl.
    + intros k' v' [H|[]]. injection H as <- <-. reflexivity.
    + destruct (String.eqb_spec k0 (Py.strip line)) as [->|Hne].
      * intros k' v' [H|H]; [injection H as <- <-; reflexivity|].
        apply Hd. right. exact H.
      * intros k' v' [H|H]; [apply Hd; left; exact H|].
        apply IHd; [|exact H]. intros a b Hab. apply Hd. right. exact Hab.
Qed.

(** X1: [getvms_onbox] always returns a dictionary; its keys are the
    identifiers the answer offers (the stripped lines that are digits only),
    each once, in the order of their first occurrence, and every key is
    mapped to itself.  Headers, names and blank lines never get in. *)
Theorem getvms_onbox_keys h :
  exists d,
    outcome (getvms_onbox h) = Val d
    /\ keys d = first_occurrences (offered_ids (fst (exec getallvms_cmd h)))
    /\ NoDup (keys d)
    /\ (forall k, In k (keys d) -> Py.isdigit k = true)
    /\ (forall k v, In (k, v) d -> v = k)
    /\ commands (trace (getvms_onbox h)) = [getallvms_cmd].
Proof.
  rewrite run_getvms. triples.
  set (resp := fst (exec getallvms_cmd h)).
  exists (vms_of resp).
  assert (Hkeys : keys (vms_of resp) = first_occurrences (offered_ids resp)).
  { unfold vms_of, offered_ids.
    destruct (Py.strip resp) eqn:E; simpl negb; cbv iota.
    - reflexivity.
    - rewrite collect_vms_keys. simpl keys. simpl app.
      apply filter_all_true. intros x _. reflexivity. }
  split; [reflexivity|]. split; [exact Hkeys|]. split; [apply vms_of_NoDup|].
  split; [|split; [|reflexivity]].
  - rewrite Hkeys. intros k Hk.
    assert (Hsub : forall l x, In x (first_occurrences l) -> In x l).
    { induction l as [|y l IH]; simpl; intros x Hx; [exact Hx|].
      destruct Hx as [Hx|Hx]; [left; exact Hx|].
      apply filter_In in Hx. right. apply IH. tauto. }
    apply Hsub in Hk. unfold offered_ids in Hk. apply filter_In in Hk. tauto.
  - intros k v Hin. unfold vms_of in Hin.
    destruct (negb (Py.truthy (Py.strip resp))); [destruct Hin|].
    apply (collect_vms_self (Py.split NL (Py.strip resp)) [] k v);
      [intros ? ? []|exact Hin].
Qed.

(* ----------------------------------------------------------------- *)
(** *** Further properties: the values read from an answer *)

Lemma remove_no_char c s : has_char c (Py.remove c s) = false.
Proof.
  induction s as [|d r IH]; simpl; [reflexivity|].
  destruct (Ascii.eqb d c) eqn:E; [exact IH|].
  simpl. rewrite E. exact IH.
Qed.

Lemma remove_keeps_absent c d s :
  has_char c s = false -> has_char c (Py.remove d s) = false.
Proof.
  induction s as [|a r IH]; simpl; [reflexivity|].
  intros H. apply orb_false_iff in H. destruct H as [Ha Hr].
  destruct (Ascii.eqb a d); [apply IH; exact Hr|].
  simpl. rewrite Ha. apply IH. exact Hr.
Qed.

Lemma lstrip_keeps_absent c s :
  has_char c s = false -> has_char c (Py.lstrip s) = false.
Proof.
  induction s as [|a r IH]; simpl; [reflexivity|].
  intros H. destruct (Py.isspace a); [|exact H].
  apply orb_false_iff in H. apply IH. tauto.
Qed.

Lemma rstrip_keeps_absent c s :
  has_char c s = false -> has_char c (Py.rstrip s) = false.
Proof.
  induction s as [|a r IH]; simpl; [reflexivity|].
  intros H. apply orb_false_iff in H. destruct H as [Ha Hr].
  specialize (IH Hr).
  destruct (Py.rstrip r) as [|b r'].
  - destruct (Py.isspace a); simpl; [reflexivity|]. rewrite Ha. reflexivity.
  - simpl in *. rewrite Ha. exact IH.
Qed.

Lemma rstrip_idempotent s : Py.rstrip (Py.rstrip s) = Py.rstrip s.
Proof.
  induction s as [|a r IH]; simpl; [reflexivity|].
  destruct (Py.rstrip r) as [|b r'] eqn:E.
  - destruct (Py.isspace a) eqn:Ha; simpl; [reflexivity|]. rewrite Ha. reflexivity.
  - simpl. simpl in IH. rewrite IH. reflexivity.
Qed.

Lemma lstrip_starts_clean s : starts_clean (Py.lstrip s) = true.
Proof.
  induction s as [|a r IH]; simpl; [reflexivity|].
  destruct (Py.isspace a) eqn:Ha; [exact IH|]. simpl. rewrite Ha. reflexivity.
Qed.

Lemma rstrip_starts_clean s :
  starts_clean s = true -> starts_clean (Py.rstrip s) = true.
Proof.
  destruct s as [|a r]; simpl; [reflexivity|]. intros Ha.
  destruct (Py.rstrip r); [|exact Ha].
  apply negb_true_iff in Ha. rewrite Ha. simpl. rewrite Ha. reflexivity.
Qed.

Lemma lstrip_of_clean s : starts_clean s = true -> Py.lstrip s = s.
Proof.
  destruct s as [|a r]; simpl; [reflexivity|]. intros Ha.
  apply negb_true_iff in Ha. rewrite Ha. reflexivity.
Qed.

Lemma strip_idempotent s : Py.strip (Py.strip s) = Py.strip s.
Proof.
  unfold Py.strip.
  rewrite (lstrip_of_clean (Py.rstrip (Py.lstrip s)))
    by (apply rstrip_starts_clean, lstrip_starts_clean).
  apply rstrip_idempotent.
Qed.

Lemma field_clean field :
  clean_value (Py.strip (Py.remove "," (Py.remove QUOTE field))).
Proof.
  split; [apply strip_idempotent|]. unfold Py.strip. split.
  - apply rstrip_keeps_absent, lstrip_keeps_absent, remove_keeps_absent,
      remove_no_char.
  - apply rstrip_keeps_absent, lstrip_keeps_absent, remove_no_char.
Qed.

Lemma power_state_in_clean lines s :
  power_state_in lines = Val s -> clean_value s.
Proof.
  induction lines as [|line rest IH]; simpl.
  - intros H. injection H as <-. repeat split.
  - destruct (Py.contains "powerState" line); [|exact IH].
    destruct (item (Py.split "=" line) 1); intros H; [|discriminate H ..].
    injection H as <-. apply field_clean.
Qed.

Lemma tools_status_in_clean lines s :
  tools_status_in lines = Val (Some s) -> clean_value s.
Proof.
  induction lines as [|line rest IH]; simpl; [discriminate|].
  destruct (Py.contains "toolsStatus" line); [|exact IH].
  destruct (item (Py.split "=" line) 1); intros H; [|discriminate H ..].
  injection H as <-. apply field_clean.
Qed.

(** X2: what [getvmpowerstate_onbox] and [check_vmware_tools_status]
    return is trimmed and has neither a double quote nor a comma, whatever
    the host answered. *)
Theorem readers_return_clean_values v h s :
  (outcome (getvmpowerstate_onbox v h) = Val s -> clean_value s)
  /\ (outcome (check_vmware_tools_status v h) = Val (Some s) -> clean_value s).
Proof.
  rewrite run_getvmpowerstate, run_check_tools. triples. split.
  - apply power_state_in_clean.
  - apply tools_status_in_clean.
Qed.

(** X3: both readers stop at the first line that has the key: the lines
    before it do not count, the lines after it are never looked at, and a
    first key line without [=] raises [IndexError] even when a later line is
    well formed. *)
Theorem first_key_line_decides before line rest :
  (existsb (Py.contains "powerState") before = false ->
   Py.contains "powerState" line = true ->
   power_state_in (before ++ line :: rest) = field_of line)
  /\ (existsb (Py.contains "toolsStatus") before = false ->
      Py.contains "toolsStatus" line = true ->
      tools_status_in (before ++ line :: rest)
      = match field_of line with
        | Val s => Val (Some s)
        | Exit k => Exit k
        | Raise e => Raise e
        end).
Proof.
  split; intros Hb Hl.
  - induction before as [|b before IH]; simpl in *.
    + rewrite Hl. unfold field_of, item.
      destruct (nth_error (Py.split "=" line) 1); reflexivity.
    + apply orb_false_iff in Hb. destruct Hb as [H1 H2]. rewrite H1.
      apply IH. exact H2.
  - induction before as [|b before IH]; simpl in *.
    + rewrite Hl. unfold field_of, item.
      destruct (nth_error (Py.split "=" line) 1); reflexivity.
    + apply orb_false_iff in Hb. destruct Hb as [H1 H2]. rewrite H1.
      apply IH. exact H2.
Qed.

(* ----------------------------------------------------------------- *)
(** *** Further properties: the wait for the maintenance state *)

Lemma sleeps_app t1 t2 : sleeps (t1 ++ t2) = sleeps t1 + sleeps t2.
Proof. unfold sleeps. rewrite filter_app, length_app. reflexivity. Qed.

Lemma sleeps_mm_misses misses : sleeps (mm_misses misses) = length misses.
Proof.
  induction misses as [|a l IH]; [reflexivity|].
  unfold sleeps in *. simpl. rewrite IH. reflexivity.
Qed.

(** X4: [maintenancemode_onbox] sends its request once, then polls the
    state: at most 45 times when entering and 5 when leaving, with one
    sleep of a second after every poll that missed and none after the hit.
    It returns [True] as soon as a poll, stripped and lowered, reads
    [enabled] (resp. [disabled]), and [False] after the last miss; it never
    raises and never exits. *)
Theorem maintenance_wait_bounded (enable : bool) (h : Host) :
  let wanted : string := if enable then "enabled" else "disabled" in
  let n : nat := if enable then 45 else 5 in
  let c : string := if enable then mm_enable_cmd else mm_disable_cmd in
  let x := maintenancemode_onbox enable h in
  exists o misses tail,
    trace x = Cmd c o :: mm_misses misses ++ tail
    /\ Forall (fun a => Py.lower (Py.strip a) <> wanted) misses
    /\ mm_end wanted n misses (outcome x) tail
    /\ length (answers mm_get_cmd (trace x)) <= n
    /\ sleeps (trace x) = length misses
    /\ (outcome x = Val false <-> length misses = n)
    /\ (outcome x = Val true <->
        exists a, last_opt (answers mm_get_cmd (trace x)) = Some a
                  /\ Py.lower (Py.strip a) = wanted).
Proof.
  cbv zeta.
  destruct (maintenancemode_shape enable h) as [o [misses [tail [Ht [Hm He]]]]].
  cbv zeta in Ht, Hm, He. unfold MAINTENANCE_MODE_TIMEOUT in He.
  set (n := if enable then 45 else 5) in *.
  exists o, misses, tail. split; [exact Ht|]. split; [exact Hm|].
  split; [exact He|].
  assert (E : answers mm_get_cmd (trace (maintenancemode_onbox enable h))
              = misses ++ answers mm_get_cmd tail).
  { rewrite Ht.
    change (Cmd ?c o :: ?l) with ([Cmd c o] ++ l).
    rewrite !answers_app, answers_mm_misses. destruct enable; reflexivity. }
  assert (S : sleeps (trace (maintenancemode_onbox enable h)) = length misses).
  { rewrite Ht.
    change (Cmd ?c o :: ?l) with ([Cmd c o] ++ l).
    rewrite !sleeps_app, sleeps_mm_misses.
    destruct He; unfold sleeps; simpl; lia. }
  rewrite E. split; [|split; [exact S|]].
  - rewrite length_app. destruct He; simpl; lia.
  - destruct He as [Hlen|a Hlen Hhit]; simpl; split.
    + split; [intros _; exact Hlen | reflexivity].
    + rewrite app_nil_r. split; [discriminate|].
      intros [a [Hlast Ha]].
      destruct (exists_last (l := misses)) as [l' [a' Hl']].
      { intros ->. simpl in Hlast. discriminate Hlast. }
      subst misses. rewrite last_opt_snoc in Hlast. injection Hlast as ->.
      rewrite Forall_app in Hm. destruct Hm as [_ Hm].
      inversion Hm. contradiction.
    + split; [discriminate | intros H; lia].
    + split; [|reflexivity]. intros _. exists a.
      rewrite last_opt_snoc. split; [reflexivity | exact Hhit].
Qed.

(* ----------------------------------------------------------------- *)
(** *** Further properties: how [main] ends *)

Lemma down_segment_result vms n h r hd td :
  power_down_loop vms n h = (r, hd, td) -> r = Val tt \/ r = Raise IndexError.
Proof.
  intros E. pose proof (power_down_loop_result vms n h) as H.
  rewrite E in H. exact H.
Qed.

Lemma prologue_listing h0 path vms h t :
  prologue h0 path vms h t ->
  Py.contains UPGRADE_FILENAME (listing_of h0) = true.
Proof.
  intros H. destruct H as [out h1 listing h2 o3 h3 o4 h4 resp h5 E1 E2 Hc].
  unfold listing_of. rewrite E1, E2. exact Hc.
Qed.

Lemma then_exit_cases rr n :
  rr = Val tt \/ rr = Raise IndexError ->
  then_exit rr n = Exit n \/ then_exit rr n = Raise IndexError.
Proof. intros [->| ->]; [left | right]; reflexivity. Qed.

(** X5: a run of [main] ends in one of five ways: it returns (status 0),
    it exits with 1, 2 or 3, or it dies of an [IndexError].  It returns
    exactly when it issued the reboot, which is then its last command and
    issued once; it exits with 1 exactly when the listing lacks the package;
    it exits with 2 only after the wait for maintenance mode timed out, and
    with 3 only after an upgrade whose answer lacks a marker. *)
Theorem main_exit_status h0 :
  (outcome (main h0) = Val tt \/ outcome (main h0) = Exit 1
   \/ outcome (main h0) = Exit 2 \/ outcome (main h0) = Exit 3
   \/ outcome (main h0) = Raise IndexError)
  /\ (outcome (main h0) = Val tt <-> issued reboot_cmd (trace (main h0)))
  /\ (issued reboot_cmd (trace (main h0)) ->
      exists pre o, trace (main h0) = pre ++ [Cmd reboot_cmd o]
                    /\ ~ issued reboot_cmd pre)
  /\ (outcome (main h0) = Exit 1
      <-> Py.contains UPGRADE_FILENAME (listing_of h0) = false)
  /\ (outcome (main h0) = Exit 2 -> mm_entry_timed_out (trace (main h0)) = true)
  /\ (outcome (main h0) = Exit 3 ->
      exists out, upgrade_answers (trace (main h0)) = [out]
                  /\ upgrade_succeeded out = false).
Proof.
  main_cases h0.
  - assert (Hl : Py.contains UPGRADE_FILENAME (listing_of h0) = false).
    { unfold listing_of.
      repeat match goal with E : exec _ _ = _ |- _ => rewrite E; clear E end.
      simpl. assumption. }
    assert (Hn : ~ issued reboot_cmd
                     [Cmd "pwd" out; Cmd (ls_cmd (Py.strip out)) listing]).
    { intros [C|[C|[]]]; discriminate C. }
    split; [tauto|]. split; [split; [discriminate | intros C; contradiction]|].
    split; [intros C; contradiction|].
    split; [split; [intros _; exact Hl | reflexivity]|].
    split; discriminate.
  - pose proof (prologue_listing _ _ _ _ _ H) as Hl.
    match goal with
    | E : power_down_loop _ _ _ = (Raise ?e, _, _) |- _ =>
        destruct (down_segment_result _ _ _ _ _ _ E) as [C|C];
        [discriminate C | injection C as ->]
    end.
    assert (Hn : ~ issued reboot_cmd (t ++ td)) by unissued.
    split; [tauto|]. split; [split; [discriminate | intros C; contradiction]|].
    split; [intros C; contradiction|].
    split; [split; [discriminate | rewrite Hl; discriminate]|].
    split; discriminate.
  - pose proof (prologue_listing _ _ _ _ _ H) as Hl.
    assert (Hrr : then_exit rr 2 = Exit 2 \/ then_exit rr 2 = Raise IndexError).
    { apply then_exit_cases. eapply repower_segment_result. eassumption. }
    assert (Hn : ~ issued reboot_cmd (t ++ td ++ te ++ tr)) by unissued.
    assert (Hto : mm_entry_timed_out (t ++ td ++ te ++ tr) = true).
    { unfold mm_entry_timed_out. apply andb_true_iff. split.
      - apply existsb_exists. exists mm_enable_cmd.
        split; [|apply String.eqb_refl].
        rewrite !commands_app. apply in_or_app. right. apply in_or_app. right.
        apply in_or_app. left.
        match goal with
        | E : maintenancemode_onbox true _ = _ |- _ =>
            destruct (maintenancemode_shape true hd) as [o [m [tl [Ht _]]]];
            rewrite E, trace_triple in Ht; cbv zeta in Ht; rewrite Ht
        end. left. reflexivity.
      - quiet. simpl app. rewrite app_nil_r. apply forallb_forall.
        intros a Ha. apply negb_true_iff. apply String.eqb_neq.
        match goal with
        | E : maintenancemode_onbox true _ = _ |- _ =>
            destruct (maintenancemode_answers true hd) as [_ [Hmiss _]];
            rewrite E in Hmiss; rewrite outcome_triple, trace_triple in Hmiss;
            destruct (Hmiss eq_refl) as [Hall _]
        end.
        rewrite Forall_forall in Hall. exact (Hall a Ha). }
    split; [destruct Hrr as [-> | ->]; tauto|].
    split; [split; [intros C; destruct Hrr as [Hr|Hr]; rewrite Hr in C; discriminate C
                   | intros C; contradiction]|].
    split; [intros C; contradiction|].
    split; [split; [intros C; destruct Hrr as [Hr|Hr]; rewrite Hr in C; discriminate C
                   | rewrite Hl; discriminate]|].
    split; [intros _; exact Hto|].
    intros C. destruct Hrr as [Hr|Hr]; rewrite Hr in C; discriminate C.
  - pose proof (prologue_listing _ _ _ _ _ H) as Hl.
    pose proof (upgrade_segment path uout) as Hup.
    assert (Hn : ~ issued reboot_cmd
                   (t ++ td ++ te ++ [Cmd (upgrade_cmd path) uout] ++ tx))
      by unissued.
    assert (Hi : issued reboot_cmd
                   (t ++ td ++ te ++ [Cmd (upgrade_cmd path) uout] ++ tx
                      ++ [Cmd reboot_cmd ro])).
    { rewrite !issued_app. do 5 right. unfold issued. simpl. left. reflexivity. }
    split; [tauto|]. split; [split; [intros _; exact Hi | reflexivity]|].
    split.
    { intros _.
      exists (t ++ td ++ te ++ [Cmd (upgrade_cmd path) uout] ++ tx), ro.
      split; [rewrite <- !app_assoc; reflexivity | exact Hn]. }
    split; [split; [discriminate | rewrite Hl; discriminate]|].
    split; discriminate.
  - pose proof (prologue_listing _ _ _ _ _ H) as Hl.
    pose proof (upgrade_segment path uout) as Hup.
    assert (Hrr : then_exit rr 3 = Exit 3 \/ then_exit rr 3 = Raise IndexError).
    { apply then_exit_cases. eapply repower_segment_result. eassumption. }
    assert (Hn : ~ issued reboot_cmd
                   (t ++ td ++ te ++ [Cmd (upgrade_cmd path) uout] ++ tx ++ tr))
      by unissued.
    split; [destruct Hrr as [-> | ->]; tauto|].
    split; [split; [intros C; destruct Hrr as [Hr|Hr]; rewrite Hr in C; discriminate C
                   | intros C; contradiction]|].
    split; [intros C; contradiction|].
    split; [split; [intros C; destruct Hrr as [Hr|Hr]; rewrite Hr in C; discriminate C
                   | rewrite Hl; discriminate]|].
    split; [intros C; destruct Hrr as [Hr|Hr]; rewrite Hr in C; discriminate C|].
    intros _. exists uout. quiet. rewrite upgrade_answers_one.
    split; [reflexivity | assumption].
Qed.

(* ----------------------------------------------------------------- *)
(** *** Further properties: where the upgrade sits *)

Lemma unique_split (P : event -> Prop) A B pre post e e' :
  P e' -> Forall (fun x => ~ P x) A -> Forall (fun x => ~ P x) B ->
  A ++ e :: B = pre ++ e' :: post ->
  pre = A /\ e' = e /\ post = B.
Proof.
  intros He' HA HB Heq.
  destruct (app_eq_mid _ _ _ _ _ Heq) as [[mid [E1 _]]|[mid [-> E2]]].
  - exfalso. rewrite Forall_forall in HA. apply (HA e'); [|exact He'].
    rewrite E1. apply in_or_app. right. left. reflexivity.
  - destruct mid as [|m mid]; simpl in E2.
    + injection E2 as -> ->. rewrite app_nil_r. auto.
    + exfalso. injection E2 as _ E2. rewrite Forall_forall in HB.
      apply (HB e'); [|exact He']. rewrite E2. apply in_or_app.
      right. left. reflexivity.
Qed.

Lemma no_upgrade_on (P : event -> Prop) t :
  Forall P t -> (forall e, P e -> upgrade_answers [e] = []) ->
  Forall (fun x => ~ upgrades x) t.
Proof.
  intros Ht Hf. eapply Forall_impl; [|exact Ht].
  intros e He [c [o [-> Hc]]]. specialize (Hf _ He). simpl in Hf.
  rewrite Hc in Hf. discriminate Hf.
Qed.

Ltac no_upgrades :=
  repeat (apply Forall_app; split);
  solve [ match goal with
          | H : Forall _ ?t |- Forall _ ?t =>
              apply (no_upgrade_on _ _ H); class_cases
          end ].

Lemma pwd_answer h0 path vms h t :
  prologue h0 path vms h t ->
  path = Py.strip (fst (exec "pwd" h0)) +++ "/" +++ UPGRADE_FILENAME.
Proof.
  intros H. destruct H as [out h1 listing h2 o3 h3 o4 h4 resp h5 E1].
  rewrite E1. reflexivity.
Qed.

Lemma unupgraded t c o :
  upgrade_answers t = [] -> In (Cmd c o) t -> is_upgrade_cmd c = true -> False.
Proof.
  intros Hn Hin Hc.
  assert (H : In o (upgrade_answers t)).
  { unfold upgrade_answers. apply in_flat_map. exists (Cmd c o).
    split; [exact Hin|]. rewrite Hc. left. reflexivity. }
  rewrite Hn in H. exact H.
Qed.

Lemma mm_entered_facts hd he te pre :
  maintenancemode_onbox true hd = (Val true, he, te) ->
  answers mm_get_cmd pre = [] ->
  issued mm_enable_cmd (pre ++ te)
  /\ exists a, last_opt (answers mm_get_cmd (pre ++ te)) = Some a
               /\ Py.lower (Py.strip a) = "enabled".
Proof.
  intros E Hpre.
  destruct (maintenancemode_shape true hd) as [o [m [tl [Ht [_ He]]]]].
  rewrite E in Ht, He. rewrite trace_triple in Ht.
  rewrite outcome_triple in He. cbv zeta in Ht, He. split.
  - apply issued_app. right. rewrite Ht. left. reflexivity.
  - rewrite answers_app, Hpre, Ht.
    change (Cmd mm_enable_cmd o :: ?l) with ([Cmd mm_enable_cmd o] ++ l).
    rewrite !answers_app, answers_mm_misses.
    inversion He as [|a Hlen Hhit]; subst.
    exists a. simpl. rewrite last_opt_snoc. split; [reflexivity | exact Hhit].
Qed.

Lemma upgrade_position A B u uo pre c o post :
  Forall (fun x => ~ upgrades x) A -> Forall (fun x => ~ upgrades x) B ->
  is_upgrade_cmd c = true ->
  A ++ [Cmd u uo] ++ B = pre ++ Cmd c o :: post ->
  pre = A /\ c = u /\ o = uo /\ post = B.
Proof.
  intros HA HB Hc Heq. simpl in Heq.
  apply (unique_split upgrades) in Heq; [|exists c, o; auto|exact HA|exact HB].
  destruct Heq as [-> [Hev ->]]. injection Hev as -> ->. auto.
Qed.

(** X6: an upgrade command of a run of [main] is the one for the package
    in the working directory ([pwd], stripped, then the file name); it is
    issued only when the listing had the package, after the request to
    enter maintenance mode and right after a poll that read [enabled],
    before any request to leave it; and a run issues it at most once. *)
Theorem upgrade_only_in_maintenance_mode h0 pre c o post :
  trace (main h0) = pre ++ Cmd c o :: post ->
  is_upgrade_cmd c = true ->
  c = upgrade_cmd (Py.strip (fst (exec "pwd" h0)) +++ "/" +++ UPGRADE_FILENAME)
  /\ Py.contains UPGRADE_FILENAME (listing_of h0) = true
  /\ issued mm_enable_cmd pre
  /\ (exists a, last_opt (answers mm_get_cmd pre) = Some a
                /\ Py.lower (Py.strip a) = "enabled")
  /\ ~ issued mm_disable_cmd pre
  /\ upgrade_answers pre = [] /\ upgrade_answers post = [].
Proof.
  main_cases h0; intros Heq Hc.
  - exfalso. apply (unupgraded _ c o (eq_refl : upgrade_answers
        [Cmd "pwd" out; Cmd (ls_cmd (Py.strip out)) listing] = [])); [|exact Hc].
    rewrite Heq. apply in_or_app. right. left. reflexivity.
  - exfalso. apply (unupgraded (t ++ td) c o); [quiet; reflexivity| |exact Hc].
    rewrite Heq. apply in_or_app. right. left. reflexivity.
  - exfalso. apply (unupgraded (t ++ td ++ te ++ tr) c o);
      [quiet; reflexivity| |exact Hc].
    rewrite Heq. apply in_or_app. right. left. reflexivity.
  - pose proof (reboot_segment ro) as Hre.
    rewrite (app_assoc t td), (app_assoc (t ++ td) te) in Heq.
    apply upgrade_position in Heq; [|no_upgrades|no_upgrades|exact Hc].
    destruct Heq as [-> [-> [-> ->]]].
    rewrite (pwd_answer _ _ _ _ _ H).
    split; [reflexivity|]. split; [eapply prologue_listing; eassumption|].
    match goal with
    | E : maintenancemode_onbox true _ = _ |- _ =>
        destruct (mm_entered_facts _ _ _ (t ++ td) E) as [Hen Hlast];
        [quiet; reflexivity|]
    end.
    split; [exact Hen|]. split; [exact Hlast|].
    split; [unissued|]. split; quiet; reflexivity.
  - rewrite (app_assoc t td), (app_assoc (t ++ td) te) in Heq.
    apply upgrade_position in Heq; [|no_upgrades|no_upgrades|exact Hc].
    destruct Heq as [-> [-> [-> ->]]].
    rewrite (pwd_answer _ _ _ _ _ H).
    split; [reflexivity|]. split; [eapply prologue_listing; eassumption|].
    match goal with
    | E : maintenancemode_onbox true _ = _ |- _ =>
        destruct (mm_entered_facts _ _ _ (t ++ td) E) as [Hen Hlast];
        [quiet; reflexivity|]
    end.
    split; [exact Hen|]. split; [exact Hlast|].
    split; [unissued|]. split; quiet; reflexivity.
Qed.

(* ----------------------------------------------------------------- *)
(** *** Further properties: which workloads are shut down *)

Lemma shutdownvm_starts_with_query v h :
  issued (guest_cmd v) (trace (shutdownvm_onbox v h)).
Proof.
  rewrite run_shutdownvm. cbv zeta.
  destruct (tools_status_of (fst (exec (guest_cmd v) h))) as [s|k|e];
    [|left; reflexivity ..].
  destruct (tools_usable s); [|left; reflexivity].
  destruct (outcome (graceful_shutdown_onbox v _)) as [[|]|k|e];
    triples; left; reflexivity.
Qed.

Lemma quiesce_event_same v0 v e :
  quiesce_event v0 e -> quiesces v e -> v0 = v.
Proof.
  intros He Hq. destruct (string_dec v0 v) as [E|Hne]; [exact E|].
  exfalso. exact (quiesce_event_other v0 v e He Hne Hq).
Qed.

(** The workloads the power-down loop shuts down are those it found
    [poweredOn]. *)
Lemma power_down_loop_quiesced vms : forall n h v e,
  NoDup vms ->
  In e (trace (power_down_loop vms n h)) -> quiesces v e ->
  In v (found_on vms (trace (power_down_loop vms n h))).
Proof.
  induction vms as [|v0 rest IH]; intros n h v e Hnd; [intros []|].
  inversion Hnd as [|? ? Hnotin Hnd']; subst.
  rewrite power_down_loop_cons. cbv zeta.
  set (out := fst (exec (summary_cmd v0) h)).
  set (h1 := snd (exec (summary_cmd v0) h)).
  assert (Hother : forall w, In w rest -> String.eqb v0 w = false).
  { intros w Hw. apply String.eqb_neq. intros ->. contradiction. }
  destruct (power_state_of out) as [ps|k|ex] eqn:Hps.
  - destruct (String.eqb_spec ps "poweredOn") as [->|Hoff].
    + set (ea := Cmd (cmd_auto_start v0 n) _).
      set (s := shutdownvm_onbox v0 _).
      pose proof (shutdownvm_quiesce_events v0
                    (snd (exec (cmd_auto_start v0 n) h1))) as Hq. fold s in Hq.
      assert (Hpre : forall w, In w rest ->
                 answers (summary_cmd w)
                   (Cmd (summary_cmd v0) out :: ea :: trace s) = []).
      { intros w Hw.
        change (Cmd ?a ?b :: ea :: ?l) with ([Cmd a b; ea] ++ l).
        rewrite answers_app, (quiesce_answers_other v0 w _ Hq).
        - simpl. rewrite (Hother w Hw). reflexivity.
        - intros ->. contradiction. }
      assert (Hround : forall e', In e' (Cmd (summary_cmd v0) out :: ea :: trace s) ->
                 quiesces v e' -> v0 = v).
      { intros e' [<-|[<-|Hin]] Hqv.
        - exfalso. exact (summary_not_quiesces _ _ _ Hqv).
        - exfalso. exact (registration_not_quiesces _ _ _ _ Hqv).
        - rewrite Forall_forall in Hq. exact (quiesce_event_same _ _ _ (Hq _ Hin) Hqv). }
      destruct (outcome s) as [[]|k|ex]; triples;
        rewrite found_on_cons;
        try (rewrite first_reading_head, Hps, reads_val, String.eqb_refl;
             intros Hin Hqv; left; exact (Hround _ Hin Hqv)).
      change (Cmd ?a ?b :: ea :: ?l ++ ?t) with ((Cmd a b :: ea :: l) ++ t).
      change ((Cmd ?a ?b :: ea :: ?l) ++ ?t) with (Cmd a b :: (ea :: l) ++ t) at 2.
      rewrite first_reading_head, Hps, reads_val, String.eqb_refl.
      cbn [app].
      change (Cmd ?a ?b :: ea :: ?l ++ ?t) with ((Cmd a b :: ea :: l) ++ t).
      rewrite (found_on_ext rest _ (trace (power_down_loop rest (n + 1) (final s))))
        by (intros w Hw;
            apply (first_reading_skip w (Cmd (summary_cmd v0) out :: ea :: trace s));
            apply Hpre; exact Hw).
      intros Hin Hqv. apply in_app_or in Hin. destruct Hin as [Hin|Hin].
      * left. exact (Hround _ Hin Hqv).
      * right. eapply IH; eassumption.
    + triples. rewrite found_on_cons, first_reading_head, Hps, reads_val.
      replace (String.eqb ps "poweredOn") with false
        by (symmetry; apply String.eqb_neq; exact Hoff).
      change (Cmd ?a ?b :: ?t) with ([Cmd a b] ++ t).
      rewrite (found_on_ext rest _ (trace (power_down_loop rest n h1)))
        by (intros w Hw; apply (first_reading_skip w [Cmd (summary_cmd v0) out]);
            simpl; rewrite (Hother w Hw); reflexivity).
      intros [<-|Hin] Hqv.
      * exfalso. exact (summary_not_quiesces _ _ _ Hqv).
      * eapply IH; eassumption.
  - triples. intros [<-|[]] Hqv. exfalso. exact (summary_not_quiesces _ _ _ Hqv).
  - triples. intros [<-|[]] Hqv. exfalso. exact (summary_not_quiesces _ _ _ Hqv).
Qed.

(** Every workload the loop found [poweredOn] had its tools status asked. *)
Lemma power_down_loop_queries vms : forall n h v,
  NoDup vms ->
  In v (found_on vms (trace (power_down_loop vms n h))) ->
  issued (guest_cmd v) (trace (power_down_loop vms n h)).
Proof.
  induction vms as [|v0 rest IH]; intros n h v Hnd; [intros []|].
  inversion Hnd as [|? ? Hnotin Hnd']; subst.
  rewrite power_down_loop_cons. cbv zeta.
  set (out := fst (exec (summary_cmd v0) h)).
  set (h1 := snd (exec (summary_cmd v0) h)).
  assert (Hother : forall w, In w rest -> String.eqb v0 w = false).
  { intros w Hw. apply String.eqb_neq. intros ->. contradiction. }
  assert (Hone : forall w, In w rest ->
                 answers (summary_cmd w) [Cmd (summary_cmd v0) out] = []).
  { intros w Hw. simpl. rewrite (Hother w Hw). reflexivity. }
  destruct (power_state_of out) as [ps|k|ex] eqn:Hps.
  - destruct (String.eqb_spec ps "poweredOn") as [->|Hoff].
    + set (ea := Cmd (cmd_auto_start v0 n) _).
      set (s := shutdownvm_onbox v0 _).
      pose proof (shutdownvm_quiesce_events v0
                    (snd (exec (cmd_auto_start v0 n) h1))) as Hq. fold s in Hq.
      pose proof (shutdownvm_starts_with_query v0
                    (snd (exec (cmd_auto_start v0 n) h1))) as Hg. fold s in Hg.
      assert (Hpre : forall w, In w rest ->
                 answers (summary_cmd w)
                   (Cmd (summary_cmd v0) out :: ea :: trace s) = []).
      { intros w Hw.
        change (Cmd ?a ?b :: ea :: ?l) with ([Cmd a b; ea] ++ l).
        rewrite answers_app, (quiesce_answers_other v0 w _ Hq).
        - simpl. rewrite (Hother w Hw). reflexivity.
        - intros ->. contradiction. }
      assert (Hround : forall tl, issued (guest_cmd v0)
                 ((Cmd (summary_cmd v0) out :: ea :: trace s) ++ tl)).
      { intros tl. apply issued_app. left.
        change (Cmd ?a ?b :: ea :: ?l) with ([Cmd a b; ea] ++ l).
        apply issued_app. right. exact Hg. }
      destruct (outcome s) as [[]|k|ex]; triples;
        rewrite found_on_cons;
        try (rewrite first_reading_head, Hps, reads_val, String.eqb_refl;
             rewrite found_on_none by exact Hpre;
             intros [<-|[]]; specialize (Hround []); rewrite app_nil_r in Hround;
             exact Hround).
      change (Cmd ?a ?b :: ea :: ?l ++ ?t) with ((Cmd a b :: ea :: l) ++ t).
      change ((Cmd ?a ?b :: ea :: ?l) ++ ?t) with (Cmd a b :: (ea :: l) ++ t) at 1.
      rewrite first_reading_head, Hps, reads_val, String.eqb_refl.
      cbn [app].
      change (Cmd ?a ?b :: ea :: ?l ++ ?t) with ((Cmd a b :: ea :: l) ++ t).
      rewrite (found_on_ext rest _ (trace (power_down_loop rest (n + 1) (final s))))
        by (intros w Hw;
            apply (first_reading_skip w (Cmd (summary_cmd v0) out :: ea :: trace s));
            apply Hpre; exact Hw).
      intros [<-|Hin]; [apply Hround|].
      apply issued_app. right. apply IH; assumption.
    + triples. rewrite found_on_cons, first_reading_head, Hps, reads_val.
      replace (String.eqb ps "poweredOn") with false
        by (symmetry; apply String.eqb_neq; exact Hoff).
      change (Cmd ?a ?b :: ?t) with ([Cmd a b] ++ t).
      rewrite (found_on_ext rest _ (trace (power_down_loop rest n h1)))
        by (intros w Hw; apply (first_reading_skip w [Cmd (summary_cmd v0) out]);
            apply Hone; exact Hw).
      intros Hin. apply issued_app. right. apply IH; assumption.
  - triples. rewrite found_on_cons, first_reading_head, Hps.
    rewrite found_on_none by exact Hone. intros [].
  - triples. rewrite found_on_cons, first_reading_head, Hps.
    rewrite found_on_none by exact Hone. intros [].
Qed.

(** The restore set of a run is what the power-down loop found
    [poweredOn]. *)
Lemma restore_set_window h0 path vms h t n r hd td rest :
  prologue h0 path vms h t ->
  power_down_loop (keys vms) n h = (r, hd, td) ->
  rest = [] \/ r = Val tt ->
  restore_set (t ++ td ++ rest) = found_on (keys vms) td.
Proof.
  intros Hp Ed Hrest.
  pose proof (prologue_segment _ _ _ _ _ Hp) as Hseg.
  destruct (prologue_discovered _ _ _ _ _ (td ++ rest) Hp) as [Hd Hnd].
  unfold restore_set. rewrite Hd. fold (found_on (keys vms) (t ++ td ++ rest)).
  apply found_on_window; [intros v _; quiet; reflexivity|].
  destruct Hrest as [->| ->]; [left; reflexivity|].
  right. intros v Hv. eapply down_segment_reads_all; eassumption.
Qed.

Lemma quiesces_in_segment (P : event -> Prop) v t e :
  Forall P t -> (forall e', P e' -> ~ quiesces v e') -> In e t -> quiesces v e ->
  False.
Proof.
  intros Ht Hf Hin Hq. rewrite Forall_forall in Ht. exact (Hf e (Ht e Hin) Hq).
Qed.

Ltac not_quiescing :=
  let e := fresh in let He := fresh in let o := fresh in let C := fresh in
  intros e He [o [C|[C|C]]]; destruct He; discriminate C.

(** X7: [main] asks for the tools status of exactly the workloads of the
    restore set, and what shuts a workload down (that query, the graceful
    request, the forced power-off) is sent for workloads of the restore set
    only: a workload whose first reading is anything but [poweredOn] is
    left as it was found. *)
Theorem only_restore_set_is_shut_down h0 v :
  (issued (guest_cmd v) (trace (main h0))
   <-> In v (restore_set (trace (main h0))))
  /\ (forall e, In e (trace (main h0)) -> quiesces v e ->
      In v (restore_set (trace (main h0)))).
Proof.
  assert (Hboth : (In v (restore_set (trace (main h0)))
                   -> issued (guest_cmd v) (trace (main h0)))
                  /\ (forall e, In e (trace (main h0)) -> quiesces v e ->
                      In v (restore_set (trace (main h0))))).
  { main_cases h0.
    - split; [intros []|].
      intros e [<-|[<-|[]]] [o [C|[C|C]]]; discriminate C.
    - destruct (prologue_discovered _ _ _ _ _ td H) as [_ Hnd].
      rewrite <- (app_nil_r td).
      rewrite (restore_set_window _ _ _ _ _ _ _ _ _ [] H H0) by (left; reflexivity).
      rewrite app_nil_r. split.
      + intros Hin. apply issued_app. right.
        pose proof (power_down_loop_queries (keys vms) 1 h v Hnd) as Hq.
        rewrite H0, trace_triple in Hq. exact (Hq Hin).
      + intros ev Hin Hqv. apply in_app_or in Hin. destruct Hin as [Hin|Hin].
        * exfalso. eapply (quiesces_in_segment _ v t ev); eauto. not_quiescing.
        * pose proof (power_down_loop_quiesced (keys vms) 1 h v ev Hnd) as Hq.
          rewrite H0, trace_triple in Hq. exact (Hq Hin Hqv).
    - destruct (prologue_discovered _ _ _ _ _ td H) as [_ Hnd].
      rewrite (restore_set_window _ _ _ _ _ _ _ _ _ (te ++ tr) H H0)
        by (right; reflexivity).
      split.
      + intros Hin. apply issued_app. right. apply issued_app. left.
        pose proof (power_down_loop_queries (keys vms) 1 h v Hnd) as Hq.
        rewrite H0, trace_triple in Hq. exact (Hq Hin).
      + intros ev Hin Hqv.
        repeat (apply in_app_or in Hin; destruct Hin as [Hin|Hin]);
          try (exfalso;
               match goal with
               | Hs : Forall _ ?s, Hi : In ev ?s |- _ =>
                   apply (quiesces_in_segment _ v s ev Hs); [not_quiescing|exact Hi|exact Hqv]
               end).
        pose proof (power_down_loop_quiesced (keys vms) 1 h v ev Hnd) as Hq.
        rewrite H0, trace_triple in Hq. exact (Hq Hin Hqv).
    - pose proof (upgrade_segment path uout) as Hup.
      pose proof (reboot_segment ro) as Hre.
      destruct (prologue_discovered _ _ _ _ _ td H) as [_ Hnd].
      rewrite (restore_set_window _ _ _ _ _ _ _ _ _
                 (te ++ [Cmd (upgrade_cmd path) uout] ++ tx ++ [Cmd reboot_cmd ro])
                 H H0) by (right; reflexivity).
      split.
      + intros Hin. apply issued_app. right. apply issued_app. left.
        pose proof (power_down_loop_queries (keys vms) 1 h v Hnd) as Hq.
        rewrite H0, trace_triple in Hq. exact (Hq Hin).
      + intros ev Hin Hqv.
        repeat (apply in_app_or in Hin; destruct Hin as [Hin|Hin]);
          try (exfalso;
               match goal with
               | Hs : Forall _ ?s, Hi : In ev ?s |- _ =>
                   apply (quiesces_in_segment _ v s ev Hs); [not_quiescing|exact Hi|exact Hqv]
               end).
        pose proof (power_down_loop_quiesced (keys vms) 1 h v ev Hnd) as Hq.
        rewrite H0, trace_triple in Hq. exact (Hq Hin Hqv).
    - pose proof (upgrade_segment path uout) as Hup.
      destruct (prologue_discovered _ _ _ _ _ td H) as [_ Hnd].
      rewrite (restore_set_window _ _ _ _ _ _ _ _ _
                 (te ++ [Cmd (upgrade_cmd path) uout] ++ tx ++ tr)
                 H H0) by (right; reflexivity).
      split.
      + intros Hin. apply issued_app. right. apply issued_app. left.
        pose proof (power_down_loop_queries (keys vms) 1 h v Hnd) as Hq.
        rewrite H0, trace_triple in Hq. exact (Hq Hin).
      + intros ev Hin Hqv.
        repeat (apply in_app_or in Hin; destruct Hin as [Hin|Hin]);
          try (exfalso;
               match goal with
               | Hs : Forall _ ?s, Hi : In ev ?s |- _ =>
                   apply (quiesces_in_segment _ v s ev Hs); [not_quiescing|exact Hi|exact Hqv]
               end).
        pose proof (power_down_loop_quiesced (keys vms) 1 h v ev Hnd) as Hq.
        rewrite H0, trace_triple in Hq. exact (Hq Hin Hqv). }
  destruct Hboth as [Hq Hs]. split; [|exact Hs].
  split; [|exact Hq].
  intros Hi. apply issued_inv in Hi. destruct Hi as [o Hin].
  apply (Hs _ Hin). exists o. left. reflexivity.
Qed.

(* ----------------------------------------------------------------- *)
(** *** The original script: dictionaries *)

Lemma dict_get_in {V} (d : dict V) k :
  In k (keys d) -> exists v, dict_get d k = Some v /\ In (k, v) d.
Proof.
  induction d as [|[k' v'] d IH]; simpl; [intros []|]. intros Hin.
  destruct (String.eqb_spec k' k) as [->|Hne].
  - exists v'. split; [reflexivity | left; reflexivity].
  - destruct Hin as [E|Hin]; [contradiction|].
    destruct (IH Hin) as [v [Hg Hi]].
    exists v. split; [exact Hg | right; exact Hi].
Qed.

Lemma dict_get_set_same {V} (d : dict V) k v : dict_get (dict_set d k v) k = Some v.
Proof.
  induction d as [|[k' v'] d IH]; simpl.
  - rewrite String.eqb_refl. reflexivity.
  - destruct (String.eqb_spec k' k) as [->|Hne]; simpl.
    + rewrite String.eqb_refl. reflexivity.
    + destruct (String.eqb_spec k' k); [contradiction | exact IH].
Qed.

Lemma dict_get_set_other {V} (d : dict V) k k' v :
  k <> k' -> dict_get (dict_set d k v) k' = dict_get d k'.
Proof.
  intros Hne. induction d as [|[k0 v0] d IH]; simpl.
  - destruct (String.eqb_spec k k'); [contradiction | reflexivity].
  - destruct (String.eqb_spec k0 k) as [->|Hk]; simpl.
    + destruct (String.eqb_spec k k'); [contradiction | reflexivity].
    + rewrite IH. reflexivity.
Qed.

Lemma subscript_self d k : self_keyed d -> In k (keys d) -> subscript d k = Val k.
Proof.
  intros Hs Hin. destruct (dict_get_in d k Hin) as [v [Hg Hi]].
  unfold subscript. rewrite Hg, (Hs k v Hi). reflexivity.
Qed.

Lemma dict_set_self d k : self_keyed d -> self_keyed (dict_set d k k).
Proof.
  unfold self_keyed. intros Hd.
  induction d as [|[k0 v0] d IHd]; simpl.
  - intros k' v' [H|[]]. injection H as <- <-. reflexivity.
  - destruct (String.eqb_spec k0 k) as [->|Hne].
    + intros k' v' [H|H]; [injection H as <- <-; reflexivity|].
      apply Hd. right. exact H.
    + intros k' v' [H|H]; [apply Hd; left; exact H|].
      apply IHd; [|exact H]. intros a b Hab. apply Hd. right. exact Hab.
Qed.

Lemma legacy_collect_vms_self lines : forall d,
  self_keyed d -> self_keyed (legacy_collect_vms lines d).
Proof.
  induction lines as [|i rest IH]; intros d Hd; simpl; [exact Hd|].
  destruct (Py.int_parses (hd EmptyString (Py.split ":" i))); apply IH;
    [apply dict_set_self|]; exact Hd.
Qed.

Lemma legacy_collect_vms_NoDup lines : forall d,
  NoDup (keys d) -> NoDup (keys (legacy_collect_vms lines d)).
Proof.
  induction lines as [|i rest IH]; intros d H; simpl; [exact H|].
  destruct (Py.int_parses (hd EmptyString (Py.split ":" i))); apply IH;
    [apply dict_set_NoDup|]; exact H.
Qed.

Lemma legacy_collect_vms_keys lines : forall d,
  keys (legacy_collect_vms lines d)
  = keys d ++ filter (unseen (keys d))
                (first_occurrences
                   (filter Py.int_parses
                      (map (fun i => hd EmptyString (Py.split ":" i)) lines))).
Proof.
  induction lines as [|i rest IH]; intros d; simpl.
  - rewrite app_nil_r. reflexivity.
  - destruct (Py.int_parses (hd EmptyString (Py.split ":" i))) eqn:Hd; [|apply IH].
    rewrite IH, keys_dict_set. simpl.
    destruct (in_dec string_dec (hd EmptyString (Py.split ":" i)) (keys d))
      as [Hin|Hout].
    + rewrite (unseen_in _ _ Hin). rewrite filter_drop_seen by exact Hin.
      reflexivity.
    + rewrite (unseen_notin _ _ Hout). rewrite <- app_assoc. simpl.
      rewrite unseen_snoc. reflexivity.
Qed.

Lemma legacy_vms_of_sound resp d :
  legacy_vms_of resp = Some d -> self_keyed d /\ NoDup (keys d).
Proof.
  unfold legacy_vms_of. destruct (String.eqb resp ""); [discriminate|].
  intros H. injection H as <-. split.
  - apply legacy_collect_vms_self. intros k v [].
  - apply legacy_collect_vms_NoDup. constructor.
Qed.


Lemma first_occurrences_incl l x : In x (first_occurrences l) -> In x l.
Proof.
  induction l as [|y l IH]; simpl; intros Hx; [exact Hx|].
  destruct Hx as [Hx|Hx]; [left; exact Hx|].
  apply filter_In in Hx. right. apply IH. tauto.
Qed.

(* ----------------------------------------------------------------- *)
(** *** The original script: the steps *)

Lemma run_legacy_getvms h :
  legacy_getvms_onbox h
  = (Val (legacy_vms_of (fst (exec legacy_getallvms_cmd h))),
     snd (exec legacy_getallvms_cmd h),
     [Cmd legacy_getallvms_cmd (fst (exec legacy_getallvms_cmd h))]).
Proof.
  unfold legacy_getvms_onbox. rewrite bind_send. fold legacy_getallvms_cmd.
  unfold legacy_vms_of.
  destruct (String.eqb (fst (exec legacy_getallvms_cmd h)) ""); reflexivity.
Qed.

Lemma run_legacy_getvmpowerstate vm h :
  legacy_getvmpowerstate_onbox vm h
  = (legacy_power_state_of (fst (exec (summary_cmd vm) h)),
     snd (exec (summary_cmd vm) h),
     [Cmd (summary_cmd vm) (fst (exec (summary_cmd vm) h))]).
Proof.
  unfold legacy_getvmpowerstate_onbox. rewrite bind_send. reflexivity.
Qed.

Lemma run_legacy_poweroff vm h :
  legacy_poweroffvm_onbox vm h
  = (Val (fst (exec (poweroff_cmd vm) h)), snd (exec (poweroff_cmd vm) h),
     [Cmd (poweroff_cmd vm) (fst (exec (poweroff_cmd vm) h))]).
Proof.
  unfold legacy_poweroffvm_onbox. rewrite bind_send. reflexivity.
Qed.

Lemma legacy_power_state_in_cases lines :
  (exists r, legacy_power_state_in lines = Val r)
  \/ legacy_power_state_in lines = Raise IndexError.
Proof.
  induction lines as [|i rest IH]; simpl; [left; eexists; reflexivity|].
  destruct (Py.contains "powerState" i); [|exact IH].
  unfold item. destruct (nth_error (Py.split "=" i) 1);
    [left; eexists; reflexivity | right; reflexivity].
Qed.

Lemma legacy_powerstate_loop_cons vms i rest ps h :
  subscript vms i = Val i ->
  legacy_powerstate_loop vms (i :: rest) ps h
  = let a := fst (exec (summary_cmd i) h) in
    let h1 := snd (exec (summary_cmd i) h) in
    match legacy_power_state_of a with
    | Val r =>
        let x := legacy_powerstate_loop vms rest (dict_set ps i r) h1 in
        (outcome x, final x, Cmd (summary_cmd i) a :: trace x)
    | Exit k => (Exit k, h1, [Cmd (summary_cmd i) a])
    | Raise e => (Raise e, h1, [Cmd (summary_cmd i) a])
    end.
Proof.
  intros Hs. cbn [legacy_powerstate_loop]. rewrite Hs.
  change (lift (Val i)) with (ret i). rewrite bind_ret.
  unfold bind at 1. rewrite run_legacy_getvmpowerstate. cbv zeta.
  destruct (legacy_power_state_of (fst (exec (summary_cmd i) h))) as [r|k|e];
    try reflexivity.
  destruct (legacy_powerstate_loop vms rest _ _) as [[r0 h2] t2]. reflexivity.
Qed.

Lemma legacy_powerstate_loop_events vms all ks : forall ps h,
  (forall k, In k ks -> subscript vms k = Val k) -> incl ks all ->
  Forall (legacy_read_event all) (trace (legacy_powerstate_loop vms ks ps h)).
Proof.
  induction ks as [|i rest IH]; intros ps h Hs Hincl; [constructor|].
  assert (Hi : In i all) by (apply Hincl; left; reflexivity).
  rewrite legacy_powerstate_loop_cons by (apply Hs; left; reflexivity).
  cbv zeta.
  destruct (legacy_power_state_of (fst (exec (summary_cmd i) h))) as [r|k|e];
    triples; [|repeat constructor; exact Hi ..].
  constructor; [constructor; exact Hi|].
  apply IH; [intros k Hk; apply Hs; right; exact Hk|].
  intros k Hk. apply Hincl. right. exact Hk.
Qed.

Lemma legacy_read_answers_other vs k t :
  Forall (legacy_read_event vs) t -> ~ In k vs -> answers (summary_cmd k) t = [].
Proof.
  intros Ht Hk. induction Ht as [|e t He _ IH]; [reflexivity|].
  change (e :: t) with ([e] ++ t). rewrite answers_app, IH, app_nil_r.
  destruct He as [v o Hv]. simpl.
  destruct (String.eqb_spec v k) as [->|_]; [contradiction | reflexivity].
Qed.

(** The table the readings fill: a key for each workload, in order, with
    what its one summary read. *)
Lemma legacy_powerstate_loop_spec vms ks : forall ps h,
  (forall k, In k ks -> subscript vms k = Val k) ->
  NoDup ks -> (forall k, In k ks -> ~ In k (keys ps)) ->
  match outcome (legacy_powerstate_loop vms ks ps h) with
  | Val ps' =>
      keys ps' = keys ps ++ ks
      /\ (forall k, ~ In k ks -> dict_get ps' k = dict_get ps k)
      /\ (forall k, In k ks ->
          exists a r,
            answers (summary_cmd k) (trace (legacy_powerstate_loop vms ks ps h)) = [a]
            /\ legacy_power_state_of a = Val r
            /\ dict_get ps' k = Some r)
  | Raise e => e = IndexError
  | Exit _ => False
  end.
Proof.
  induction ks as [|i rest IH]; intros ps h Hs Hnd Hfresh.
  - simpl. unfold ret. triples. rewrite app_nil_r.
    split; [reflexivity|]. split; [reflexivity | intros k []].
  - inversion Hnd as [|? ? Hnotin Hnd']; subst.
    assert (Hs' : forall k, In k rest -> subscript vms k = Val k)
      by (intros k Hk; apply Hs; right; exact Hk).
    pose proof (legacy_powerstate_loop_events vms rest rest) as Hev.
    rewrite legacy_powerstate_loop_cons by (apply Hs; left; reflexivity).
    cbv zeta.
    set (a := fst (exec (summary_cmd i) h)).
    set (h1 := snd (exec (summary_cmd i) h)).
    destruct (legacy_power_state_in_cases (Py.split NL a)) as [[r Hr]|Hr];
      fold (legacy_power_state_of a) in Hr; rewrite Hr; triples;
      [|reflexivity].
    specialize (Hev (dict_set ps i r) h1 Hs' (incl_refl _)).
    assert (Hkeys : keys (dict_set ps i r) = keys ps ++ [i]).
    { rewrite keys_dict_set.
      destruct (in_dec string_dec i (keys ps)) as [Hin|_]; [|reflexivity].
      exfalso. exact (Hfresh i (or_introl eq_refl) Hin). }
    assert (Hfresh' : forall k, In k rest -> ~ In k (keys (dict_set ps i r))).
    { intros k Hk. rewrite Hkeys. intros Hin. apply in_app_or in Hin.
      destruct Hin as [Hin|[<-|[]]]; [|contradiction].
      exact (Hfresh k (or_intror Hk) Hin). }
    specialize (IH (dict_set ps i r) h1 Hs' Hnd' Hfresh').
    destruct (outcome (legacy_powerstate_loop vms rest (dict_set ps i r) h1))
      as [ps'|k|e]; [|exact IH ..].
    destruct IH as [Hk [Hkeep Hread]]. split; [|split].
    + rewrite Hk, Hkeys, <- app_assoc. reflexivity.
    + intros k Hk'. rewrite Hkeep by (intros Hin; apply Hk'; right; exact Hin).
      apply dict_get_set_other. intros ->. apply Hk'. left. reflexivity.
    + intros k [<-|Hin].
      * exists a, r. split; [|split; [exact Hr|]].
        -- change (Cmd ?c ?o :: ?t) with ([Cmd c o] ++ t).
           rewrite answers_app, (legacy_read_answers_other rest i _ Hev Hnotin).
           simpl. rewrite String.eqb_refl. reflexivity.
        -- rewrite Hkeep by exact Hnotin. apply dict_get_set_same.
      * destruct (Hread k Hin) as [a' [r' [Ha [Hr' Hg]]]].
        exists a', r'. split; [|split; assumption].
        change (Cmd ?c ?o :: ?t) with ([Cmd c o] ++ t).
        rewrite answers_app, Ha. simpl.
        destruct (String.eqb_spec i k) as [->|_]; [contradiction | reflexivity].
Qed.

Lemma legacy_print_loop_run ps ks h :
  incl ks (keys ps) ->
  legacy_print_loop ps ks h
  = ((if forallb (legacy_known ps) ks then Val tt else Raise TypeError), h, []).
Proof.
  induction ks as [|i rest IH]; intros Hincl; [reflexivity|].
  destruct (dict_get_in ps i (Hincl i (or_introl eq_refl))) as [v [Hg _]].
  cbn [legacy_print_loop forallb]. unfold subscript, legacy_known at 1.
  rewrite Hg. change (lift (Val v)) with (ret v). rewrite bind_ret.
  destruct v as [s|]; [|reflexivity].
  cbn [andb]. apply IH. intros k Hk. apply Hincl. right. exact Hk.
Qed.

Lemma match_poweredOn {T} (s : string) (a b : T) :
  match s with
  | "poweredOn" => a
  | _ => b
  end = if String.eqb s "poweredOn" then a else b.
Proof.
  do 9 (destruct s as [|[[] [] [] [] [] [] [] []] s]; try reflexivity).
  destruct s; reflexivity.
Qed.

Lemma legacy_power_down_loop_cons vms ps i rest n h :
  In i (keys ps) -> subscript vms i = Val i ->
  legacy_power_down_loop vms ps (i :: rest) n h
  = if legacy_on ps i then
      let h1 := snd (exec (cmd_auto_start i n) h) in
      let x := legacy_power_down_loop vms ps rest (n + 1)
                 (snd (exec (poweroff_cmd i) h1)) in
      (outcome x, final x,
       Cmd (cmd_auto_start i n) (fst (exec (cmd_auto_start i n) h))
         :: Cmd (poweroff_cmd i) (fst (exec (poweroff_cmd i) h1)) :: trace x)
    else legacy_power_down_loop vms ps rest n h.
Proof.
  intros Hin Hs. destruct (dict_get_in ps i Hin) as [r [Hg _]].
  cbn [legacy_power_down_loop]. unfold subscript at 1, legacy_on. rewrite Hg.
  change (lift (Val r)) with (ret r). rewrite bind_ret.
  destruct r as [s|]; [|reflexivity].
  rewrite match_poweredOn.
  destruct (String.eqb s "poweredOn"); [|reflexivity].
  rewrite Hs. change (lift (Val i)) with (ret i). rewrite bind_ret.
  rewrite bind_send. cbv zeta.
  erewrite bind_val by apply run_legacy_poweroff.
  triples. reflexivity.
Qed.

Lemma legacy_down_commands_cons v vs n :
  legacy_down_commands (v :: vs) n
  = cmd_auto_start v n :: poweroff_cmd v :: legacy_down_commands vs (n + 1).
Proof.
  unfold legacy_down_commands. simpl. rewrite Nat.add_1_r. reflexivity.
Qed.

(** The power-off loop of the original script never raises, and sends a
    registration and a power-off for each key whose table entry is
    [poweredOn], and nothing else. *)
Lemma legacy_power_down_loop_spec vms ps all ks : forall n h,
  incl ks (keys ps) -> incl ks all ->
  (forall k, In k ks -> subscript vms k = Val k) ->
  outcome (legacy_power_down_loop vms ps ks n h) = Val tt
  /\ commands (trace (legacy_power_down_loop vms ps ks n h))
     = legacy_down_commands (filter (legacy_on ps) ks) n
  /\ Forall (legacy_down_event all) (trace (legacy_power_down_loop vms ps ks n h)).
Proof.
  induction ks as [|i rest IH]; intros n h Hk Hall Hs.
  - split; [reflexivity|]. split; [reflexivity | constructor].
  - assert (Hk' : incl rest (keys ps)) by (intros k Hin; apply Hk; right; exact Hin).
    assert (Hall' : incl rest all) by (intros k Hin; apply Hall; right; exact Hin).
    assert (Hs' : forall k, In k rest -> subscript vms k = Val k)
      by (intros k Hin; apply Hs; right; exact Hin).
    rewrite legacy_power_down_loop_cons
      by (first [apply Hk; left; reflexivity | apply Hs; left; reflexivity]).
    cbn [filter]. destruct (legacy_on ps i).
    + cbv zeta. triples.
      match goal with
      | |- context [legacy_power_down_loop vms ps rest (n + 1) ?h'] =>
          destruct (IH (n + 1) h' Hk' Hall' Hs') as [Ho [Hc He]]
      end.
      split; [exact Ho|]. split.
      * rewrite legacy_down_commands_cons.
        change (Cmd ?c ?o :: Cmd ?c' ?o' :: ?t) with ([Cmd c o; Cmd c' o'] ++ t).
        rewrite commands_app, Hc. reflexivity.
      * constructor; [constructor; apply Hall; left; reflexivity|].
        constructor; [constructor; apply Hall; left; reflexivity | exact He].
    + apply IH; assumption.
Qed.

Lemma run_legacy_read_phase d h :
  legacy_read_phase (Some d) h
  = let x := legacy_powerstate_loop d (keys d) [] h in
    match outcome x with
    | Val ps =>
        (if forallb (legacy_known ps) (keys ps) then Val ps else Raise TypeError,
         final x, trace x)
    | Exit k => (Exit k, final x, trace x)
    | Raise e => (Raise e, final x, trace x)
    end.
Proof.
  unfold legacy_read_phase. cbv zeta.
  destruct (legacy_powerstate_loop d (keys d) [] h) as [[[ps|k|e] hp] tp] eqn:E;
    triples.
  - rewrite (bind_val _ _ _ _ _ _ E).
    pose proof (legacy_print_loop_run ps (keys ps) hp (incl_refl _)) as Hp.
    destruct (forallb (legacy_known ps) (keys ps)).
    + rewrite (bind_val _ _ _ _ _ _ Hp). unfold ret. triples.
      rewrite !app_nil_r. reflexivity.
    + rewrite (bind_raise _ _ _ _ _ _ Hp). triples.
      rewrite app_nil_r. reflexivity.
  - apply bind_exit. exact E.
  - apply bind_raise. exact E.
Qed.

(** The readings of the original script: a summary for each workload, in
    order; an [IndexError] from a key line without [=], a [TypeError] from
    the printing when a summary had no key line. *)
Lemma legacy_read_phase_spec vms h :
  (forall d, vms = Some d -> self_keyed d /\ NoDup (keys d)) ->
  Forall (legacy_read_event (workloads_of vms)) (trace (legacy_read_phase vms h))
  /\ match outcome (legacy_read_phase vms h) with
     | Val ps =>
         keys ps = workloads_of vms
         /\ forallb (legacy_known ps) (keys ps) = true
         /\ (forall k, In k (keys ps) ->
             exists a r,
               answers (summary_cmd k) (trace (legacy_read_phase vms h)) = [a]
               /\ legacy_power_state_of a = Val r
               /\ dict_get ps k = Some r)
     | Raise e => e = IndexError \/ e = TypeError
     | Exit _ => False
     end.
Proof.
  intros Hok. destruct vms as [d|].
  2:{ unfold legacy_read_phase, ret. triples. split; [constructor|].
      split; [reflexivity|]. split; [reflexivity | intros k []]. }
  destruct (Hok d eq_refl) as [Hself Hnd].
  assert (Hs : forall k, In k (keys d) -> subscript d k = Val k)
    by (intros; apply subscript_self; assumption).
  pose proof (legacy_powerstate_loop_events d (keys d) (keys d) [] h Hs
                (incl_refl _)) as Hev.
  pose proof (legacy_powerstate_loop_spec d (keys d) [] h Hs Hnd
                (fun k _ H => H)) as Hsp.
  rewrite run_legacy_read_phase. cbv zeta. cbn [workloads_of].
  destruct (outcome (legacy_powerstate_loop d (keys d) [] h)) as [ps|k|e];
    triples; [|destruct Hsp | split; [exact Hev | left; exact Hsp]].
  split; [exact Hev|].
  destruct Hsp as [Hk [_ Hread]]. simpl in Hk.
  destruct (forallb (legacy_known ps) (keys ps)) eqn:Hf; [|right; reflexivity].
  split; [exact Hk|]. split; [exact Hf|].
  intros k Hin. apply Hread. rewrite <- Hk. exact Hin.
Qed.

Lemma legacy_down_phase_spec vms ps h :
  (forall d, vms = Some d -> self_keyed d /\ NoDup (keys d)) ->
  keys ps = workloads_of vms ->
  outcome (legacy_down_phase vms ps h) = Val tt
  /\ commands (trace (legacy_down_phase vms ps h))
     = legacy_down_commands (filter (legacy_on ps) (workloads_of vms)) 1
  /\ Forall (legacy_down_event (workloads_of vms))
       (trace (legacy_down_phase vms ps h)).
Proof.
  intros Hok Hk. destruct vms as [d|].
  2:{ unfold legacy_down_phase, ret. triples.
      split; [reflexivity|]. split; [reflexivity | constructor]. }
  destruct (Hok d eq_refl) as [Hself Hnd]. cbn [workloads_of legacy_down_phase] in *.
  rewrite Hk. apply legacy_power_down_loop_spec.
  - rewrite Hk. apply incl_refl.
  - apply incl_refl.
  - intros k Hin. apply subscript_self; assumption.
Qed.

(* ----------------------------------------------------------------- *)
(** *** The original script: the ways through its top level *)

Lemma raise_case {A} (m : M A) (f : A -> M unit) h e h1 t1
    (P : res unit * Host * list event -> Prop) :
  m h = (Raise e, h1, t1) -> P (Raise e, h1, t1) -> P (bind m f h).
Proof. intros E H. rewrite (bind_raise m f h e h1 t1 E). exact H. Qed.

Lemma legacy_main_paths h0 : legacy_path h0 (legacy_main h0).
Proof.
  unfold legacy_main.
  apply send_case. destruct (exec "pwd" h0) as [out h1] eqn:E1. cbn [fst snd].
  cbv zeta.
  apply send_case. fold (legacy_ls_cmd out).
  destruct (exec (legacy_ls_cmd out) h1) as [listing h2] eqn:E2. cbn [fst snd].
  fold legacy_file_name.
  destruct (Py.contains legacy_file_name listing) eqn:Hpkg.
  2:{ rewrite bind_stop by (intros a; discriminate). unfold sys_exit. finish_path.
      eapply legacy_no_package; eassumption. }
  rewrite bind_ret.
  apply send_case.
  destruct (exec "vim-cmd hostsvc/enable_ssh" h2) as [o3 h3] eqn:E3. cbn [fst snd].
  apply send_case.
  destruct (exec "vim-cmd hostsvc/autostartmanager/enable_autostart 1" h3)
    as [o4 h4] eqn:E4. cbn [fst snd].
  eapply val_case; [apply run_legacy_getvms|].
  destruct (exec legacy_getallvms_cmd h4) as [resp h5] eqn:E5. cbn [fst snd].
  eapply val_case; [reflexivity|].
  fold (legacy_path_of out).
  assert (Hpro : legacy_prologue h0 (legacy_path_of out) (legacy_vms_of resp)
                   (elapse 1 h5)
                   [Cmd "pwd" out; Cmd (legacy_ls_cmd out) listing;
                    Cmd "vim-cmd hostsvc/enable_ssh" o3;
                    Cmd "vim-cmd hostsvc/autostartmanager/enable_autostart 1" o4;
                    Cmd legacy_getallvms_cmd resp; Sleep 1])
    by (econstructor; eassumption).
  pose proof (legacy_vms_of_sound resp) as Hok.
  set (vms := legacy_vms_of resp) in *.
  set (path := legacy_path_of out) in *.
  destruct (legacy_read_phase_spec vms (elapse 1 h5) Hok) as [_ Hrp].
  destruct (legacy_read_phase vms (elapse 1 h5)) as [[rp hp] tp] eqn:Ep.
  rewrite outcome_triple in Hrp.
  destruct rp as [ps|k|e]; [|destruct Hrp|].
  2:{ eapply (raise_case (legacy_read_phase vms)); [exact Ep|]. finish_path.
      exact (legacy_reading_raises h0 path vms (elapse 1 h5) _ e hp tp Hpro Ep). }
  destruct Hrp as [Hkeys _].
  eapply (val_case (legacy_read_phase vms)); [exact Ep|].
  eapply val_case; [reflexivity|].
  destruct (legacy_down_phase_spec vms ps (elapse 1 hp) Hok Hkeys) as [Hd _].
  destruct (legacy_down_phase vms ps (elapse 1 hp)) as [[rd hd] td] eqn:Ed.
  rewrite outcome_triple in Hd. subst rd.
  eapply (val_case (legacy_down_phase vms ps)); [exact Ed|].
  eapply val_case; [reflexivity|].
  unfold legacy_maintenancemode_onbox at 1.
  eapply val_case; [rewrite bind_send; unfold ret; triples; reflexivity|].
  fold mm_enable_cmd.
  destruct (exec mm_enable_cmd (elapse 1 hd)) as [o1 hm] eqn:Em. cbn [fst snd].
  eapply val_case; [reflexivity|].
  unfold legacy_upgradehost_onbox.
  eapply val_case; [rewrite bind_send; unfold ret; triples; reflexivity|].
  fold (legacy_upgrade_cmd path).
  destruct (exec (legacy_upgrade_cmd path) (elapse 1 hm)) as [o2 hu] eqn:Eu.
  cbn [fst snd].
  unfold legacy_maintenancemode_onbox.
  eapply val_case; [rewrite bind_send; unfold ret; triples; reflexivity|].
  fold mm_disable_cmd.
  destruct (exec mm_disable_cmd hu) as [ox hx] eqn:Ex. cbn [fst snd].
  unfold legacy_reboothost_onbox.
  eapply val_case; [rewrite bind_send; unfold ret; triples; reflexivity|].
  fold reboot_cmd.
  destruct (exec reboot_cmd hx) as [oz hz] eqn:Ez. cbn [fst snd].
  unfold ret. finish_path.
  exact (legacy_completes h0 path vms (elapse 1 h5) _ ps hp tp hd td hz _
           Hpro Ep Ed
           (legacy_epilogue_intro path hd o1 hm o2 hu ox hx oz hz Em Eu Ex Ez)).
Qed.

Lemma legacy_prologue_sound h0 path vms h t :
  legacy_prologue h0 path vms h t ->
  forall d, vms = Some d -> self_keyed d /\ NoDup (keys d).
Proof. intros H. destruct H. apply legacy_vms_of_sound. Qed.

Lemma legacy_prologue_segment h0 path vms h t :
  legacy_prologue h0 path vms h t -> Forall legacy_prologue_event t.
Proof. intros H. destruct H. repeat constructor. Qed.

Lemma legacy_prologue_listing h0 path vms h t :
  legacy_prologue h0 path vms h t ->
  Py.contains legacy_file_name (legacy_listing_of h0) = true.
Proof.
  intros H. destruct H as [out h1 listing h2 o3 h3 o4 h4 resp h5 E1 E2 Hc].
  unfold legacy_listing_of. rewrite E1. fold (legacy_ls_cmd out). rewrite E2.
  exact Hc.
Qed.

Lemma legacy_prologue_discovered h0 path vms h t rest :
  legacy_prologue h0 path vms h t ->
  legacy_discovered (t ++ rest) = workloads_of vms.
Proof. intros H. destruct H. reflexivity. Qed.

Lemma legacy_prologue_path h0 path vms h t :
  legacy_prologue h0 path vms h t -> path = legacy_path_of (fst (exec "pwd" h0)).
Proof.
  intros H. destruct H as [out h1 listing h2 o3 h3 o4 h4 resp h5 E1].
  rewrite E1. reflexivity.
Qed.

Lemma legacy_epilogue_segment path h hz te :
  legacy_epilogue path h hz te -> Forall legacy_epilogue_event te.
Proof. intros H. destruct H. repeat constructor. Qed.

Lemma legacy_read_segment h0 path vms h t r hp tp :
  legacy_prologue h0 path vms h t ->
  legacy_read_phase vms h = (r, hp, tp) ->
  Forall (legacy_read_event (workloads_of vms)) tp.
Proof.
  intros Hp E.
  destruct (legacy_read_phase_spec vms h (legacy_prologue_sound _ _ _ _ _ Hp))
    as [H _].
  rewrite E in H. exact H.
Qed.

Lemma legacy_read_raise h0 path vms h t e hp tp :
  legacy_prologue h0 path vms h t ->
  legacy_read_phase vms h = (Raise e, hp, tp) ->
  e = IndexError \/ e = TypeError.
Proof.
  intros Hp E.
  destruct (legacy_read_phase_spec vms h (legacy_prologue_sound _ _ _ _ _ Hp))
    as [_ H].
  rewrite E in H. exact H.
Qed.

Lemma legacy_read_table h0 path vms h t ps hp tp :
  legacy_prologue h0 path vms h t ->
  legacy_read_phase vms h = (Val ps, hp, tp) ->
  keys ps = workloads_of vms
  /\ forallb (legacy_known ps) (keys ps) = true
  /\ (forall k, In k (keys ps) ->
      exists a r, answers (summary_cmd k) tp = [a]
                  /\ legacy_power_state_of a = Val r
                  /\ dict_get ps k = Some r).
Proof.
  intros Hp E.
  destruct (legacy_read_phase_spec vms h (legacy_prologue_sound _ _ _ _ _ Hp))
    as [_ H].
  rewrite E in H. exact H.
Qed.

Lemma legacy_down_segment h0 path vms h t ps h' r hd td :
  legacy_prologue h0 path vms h t ->
  keys ps = workloads_of vms ->
  legacy_down_phase vms ps h' = (r, hd, td) ->
  commands td = legacy_down_commands (filter (legacy_on ps) (workloads_of vms)) 1
  /\ Forall (legacy_down_event (workloads_of vms)) td.
Proof.
  intros Hp Hk E.
  destruct (legacy_down_phase_spec vms ps h' (legacy_prologue_sound _ _ _ _ _ Hp) Hk)
    as [_ H].
  rewrite E in H. exact H.
Qed.

(** The cases of a run of the original top level, with what is known of
    each segment of its trace. *)
Ltac legacy_cases h0 :=
  let Hp := fresh "Hp" in
  pose proof (legacy_main_paths h0) as Hp;
  generalize dependent (legacy_main h0);
  let x := fresh "x" in
  intros x Hp; destruct Hp; triples;
  repeat match goal with
    | E : legacy_prologue _ _ _ _ ?t |- _ =>
        lazymatch goal with
        | _ : Forall legacy_prologue_event t |- _ => fail
        | _ => pose proof (legacy_prologue_segment _ _ _ _ _ E)
        end
    | P : legacy_prologue _ _ ?vms _ _,
      E : legacy_read_phase ?vms _ = (_, _, ?t) |- _ =>
        lazymatch goal with
        | _ : Forall (legacy_read_event _) t |- _ => fail
        | _ => pose proof (legacy_read_segment _ _ _ _ _ _ _ _ P E)
        end
    | E : legacy_epilogue _ _ _ ?t |- _ =>
        lazymatch goal with
        | _ : Forall legacy_epilogue_event t |- _ => fail
        | _ => pose proof (legacy_epilogue_segment _ _ _ _ E)
        end
    end.

Lemma commands_safe_on (P : event -> Prop) (f : string -> bool) t :
  Forall P t -> (forall c o, P (Cmd c o) -> f c = false) ->
  Forall (fun c => f c = false) (commands t).
Proof.
  intros Ht Hf. induction Ht as [|e t He _ IH]; [constructor|].
  destruct e as [c o|n]; simpl; [|exact IH].
  constructor; [exact (Hf c o He) | exact IH].
Qed.

Lemma filter_commands_none (P : event -> Prop) (f : string -> bool) t :
  Forall P t -> (forall c o, P (Cmd c o) -> f c = false) ->
  filter f (commands t) = [].
Proof.
  intros Ht Hf. induction Ht as [|e t He _ IH]; [reflexivity|].
  destruct e as [c o|n]; simpl; [|exact IH].
  rewrite (Hf c o He). exact IH.
Qed.

Lemma filter_commands_all (P : event -> Prop) (f : string -> bool) t :
  Forall P t -> (forall c o, P (Cmd c o) -> f c = true) ->
  filter f (commands t) = commands t.
Proof.
  intros Ht Hf. induction Ht as [|e t He _ IH]; [reflexivity|].
  destruct e as [c o|n]; simpl; [|exact IH].
  rewrite (Hf c o He), IH. reflexivity.
Qed.

Ltac by_class := let c := fresh in let o := fresh in let C := fresh in
  intros c o C; inversion C; reflexivity.

(** X8: a run of the original top level ends in one of four ways: it
    returns, it exits with 0, or it dies of an [IndexError] or of a
    [TypeError].  It exits with 0 exactly when the listing lacks the
    package, and returns exactly when it issued the reboot.  When it does
    not return it has sent no command that powers a workload off, touches
    maintenance mode, upgrades or reboots; and when it returns, every
    summary it read had a [powerState] line. *)
Theorem legacy_main_exit_status h0 :
  (outcome (legacy_main h0) = Val tt \/ outcome (legacy_main h0) = Exit 0
   \/ outcome (legacy_main h0) = Raise IndexError
   \/ outcome (legacy_main h0) = Raise TypeError)
  /\ (outcome (legacy_main h0) = Exit 0
      <-> Py.contains legacy_file_name (legacy_listing_of h0) = false)
  /\ (outcome (legacy_main h0) = Val tt
      <-> issued reboot_cmd (trace (legacy_main h0)))
  /\ (outcome (legacy_main h0) <> Val tt ->
      Forall (fun c => is_risky_cmd c = false) (commands (trace (legacy_main h0))))
  /\ (outcome (legacy_main h0) = Val tt ->
      forall v a, In (Cmd (summary_cmd v) a) (trace (legacy_main h0)) ->
        exists s, legacy_power_state_of a = Val (Some s)).
Proof.
  legacy_cases h0.
  - assert (Hl : Py.contains legacy_file_name (legacy_listing_of h0) = false).
    { unfold legacy_listing_of. rewrite H. fold (legacy_ls_cmd out). rewrite H0.
      assumption. }
    split; [tauto|]. split; [split; [intros _; exact Hl | reflexivity]|].
    split; [split; [discriminate | intros [C|[C|[]]]; discriminate C]|].
    split; [intros _; repeat constructor | discriminate].
  - pose proof (legacy_prologue_listing _ _ _ _ _ H) as Hl.
    assert (He : e = IndexError \/ e = TypeError)
      by (eapply legacy_read_raise; eassumption).
    split; [destruct He as [->| ->]; tauto|].
    split; [split; [discriminate | rewrite Hl; discriminate]|].
    split; [split; [discriminate | intros C; exfalso; revert C; unissued]|].
    split; [|discriminate].
    intros _. rewrite commands_app. apply Forall_app. split.
    + apply (commands_safe_on _ _ _ H1). by_class.
    + apply (commands_safe_on _ _ _ H2). by_class.
  - pose proof (legacy_prologue_listing _ _ _ _ _ H) as Hl.
    destruct (legacy_read_table _ _ _ _ _ _ _ _ H H0) as [Hk [Hknown Hread]].
    destruct (legacy_down_segment _ _ _ _ _ _ _ _ _ _ H Hk H1) as [_ Hdown].
    split; [tauto|].
    split; [split; [discriminate | rewrite Hl; discriminate]|].
    split.
    { split; [intros _ | reflexivity].
      apply issued_app. right. apply issued_app. right.
      apply issued_app. right. apply issued_app. right.
      destruct H2. unfold issued. simpl. tauto. }
    split; [intros C; contradiction|].
    intros _ v a Hin.
    assert (Hin' : In (Cmd (summary_cmd v) a) tp).
    { repeat (apply in_app_or in Hin; destruct Hin as [Hin|Hin]);
        try exact Hin; exfalso;
        match goal with
        | Hs : Forall _ ?s, Hi : In _ ?s |- _ =>
            rewrite Forall_forall in Hs; specialize (Hs _ Hi); inversion Hs
        | Hi : In _ [Sleep 1] |- _ => destruct Hi as [C|[]]; discriminate C
        end. }
    assert (Hv : In v (keys ps)).
    { rewrite Hk. rewrite Forall_forall in H4. specialize (H4 _ Hin').
      inversion H4. assumption. }
    destruct (Hread v Hv) as [a' [r [Ha [Hr Hg]]]].
    apply in_answers in Hin'. rewrite Ha in Hin'. destruct Hin' as [<-|[]].
    rewrite forallb_forall in Hknown. specialize (Hknown v Hv).
    unfold legacy_known in Hknown. rewrite Hg in Hknown.
    destruct r as [s|]; [|discriminate]. exists s. exact Hr.
Qed.

(* ----------------------------------------------------------------- *)
(** *** The original script: the path of the package *)

Lemma rstrip_char_keep c d s :
  Ascii.eqb d c = false ->
  Py.rstrip_char c (s +++ String d EmptyString) = s +++ String d EmptyString.
Proof.
  intros Hd. induction s as [|a s IH]; simpl.
  - rewrite Hd. reflexivity.
  - rewrite IH. destruct s; reflexivity.
Qed.

Lemma rstrip_char_quoted s :
  Py.rstrip_char APOSTROPHE (s +++ "/'") = s +++ "/".
Proof.
  induction s as [|a s IH]; [reflexivity|].
  simpl. rewrite IH. destruct s; reflexivity.
Qed.

Lemma lstrip_char_keep c d s t :
  Ascii.eqb d c = false ->
  Py.lstrip_char c (s +++ String d t) = Py.lstrip_char c s +++ String d t.
Proof.
  intros Hd. induction s as [|a s IH]; simpl.
  - rewrite Hd. reflexivity.
  - destruct (Ascii.eqb a c); [exact IH | reflexivity].
Qed.

Lemma append_assoc_string (a b c : string) : (a +++ b) +++ c = a +++ (b +++ c).
Proof. induction a as [|x a IH]; simpl; [reflexivity | rewrite IH; reflexivity]. Qed.

(** The two strips of the original script undo its quoting: what is left
    is the directory, without blanks at its end and apostrophes at its
    start, a slash and the file name. *)
Lemma legacy_path_of_eq out :
  legacy_path_of out
  = Py.lstrip_char APOSTROPHE (Py.rstrip out) +++ "/" +++ legacy_file_name.
Proof.
  unfold legacy_path_of.
  change ("'" +++ Py.rstrip out +++ "/'")
    with (String APOSTROPHE (Py.rstrip out +++ "/'")).
  assert (H1 : Py.rstrip_char APOSTROPHE (String APOSTROPHE (Py.rstrip out +++ "/'"))
               = String APOSTROPHE (Py.rstrip out +++ "/")).
  { cbn [Py.rstrip_char]. rewrite rstrip_char_quoted.
    destruct (Py.rstrip out); reflexivity. }
  rewrite H1. unfold Py.strip_char. cbn [Py.lstrip_char].
  change (Ascii.eqb APOSTROPHE APOSTROPHE) with true. cbv iota.
  rewrite (lstrip_char_keep APOSTROPHE "/" (Py.rstrip out) EmptyString)
    by reflexivity.
  rewrite rstrip_char_keep by reflexivity.
  apply append_assoc_string.
Qed.

Ltac legacy_unissued :=
  repeat apply not_issued_app;
  first [ solve [ match goal with
                  | H : Forall _ ?t |- ~ issued _ ?t =>
                      apply (not_issued_on _ _ _ H);
                      let o := fresh in let C := fresh in
                      intros o C; inversion C
                  end ]
        | solve [ unfold issued; simpl; intuition discriminate ] ].

(** X9: the original script never looks at what the host answers to its
    requests: it never asks for the maintenance state, for the tools status
    or for a graceful shutdown, and never powers a workload on; and a run
    that returns ends with the request to enter maintenance mode, a sleep of
    one second, the upgrade from the package in the working directory, the
    request to leave maintenance mode and the reboot, none of which occurs
    earlier in the run. *)
Theorem legacy_upgrade_unchecked h0 :
  ~ issued mm_get_cmd (trace (legacy_main h0))
  /\ (forall v, ~ issued (guest_cmd v) (trace (legacy_main h0))
                /\ ~ issued (shutdown_cmd v) (trace (legacy_main h0))
                /\ ~ issued (poweron_cmd v) (trace (legacy_main h0)))
  /\ (outcome (legacy_main h0) = Val tt ->
      exists pre o1 o2 o3 o4,
        trace (legacy_main h0)
        = pre ++ [Cmd mm_enable_cmd o1; Sleep 1;
                  Cmd (legacy_upgrade_cmd
                         (Py.lstrip_char APOSTROPHE (Py.rstrip (fst (exec "pwd" h0)))
                          +++ "/" +++ legacy_file_name)) o2;
                  Cmd mm_disable_cmd o3; Cmd reboot_cmd o4]
        /\ ~ issued mm_enable_cmd pre /\ upgrade_answers pre = []
        /\ ~ issued mm_disable_cmd pre /\ ~ issued reboot_cmd pre).
Proof.
  legacy_cases h0.
  - split; [legacy_unissued|]. split; [|discriminate].
    intros v. repeat split; legacy_unissued.
  - split; [legacy_unissued|]. split; [|discriminate].
    intros v. repeat split; legacy_unissued.
  - destruct (legacy_read_table _ _ _ _ _ _ _ _ H H0) as [Hk _].
    destruct (legacy_down_segment _ _ _ _ _ _ _ _ _ _ H Hk H1) as [_ Hdown].
    split; [legacy_unissued|]. split; [intros v; repeat split; legacy_unissued|].
    intros _. destruct H2 as [o1 hm o2 hu o3 hx o4 hz Em Eu Ex Ez].
    exists (t ++ tp ++ [Sleep 1] ++ td ++ [Sleep 1]), o1, o2, o3, o4.
    split.
    { rewrite <- !app_assoc. rewrite (legacy_prologue_path _ _ _ _ _ H).
      rewrite legacy_path_of_eq. reflexivity. }
    split; [legacy_unissued|]. split.
    { rewrite !upgrade_answers_app.
      rewrite (upgrade_answers_nil_on _ t H3) by class_cases.
      rewrite (upgrade_answers_nil_on _ tp H4) by class_cases.
      rewrite (upgrade_answers_nil_on _ td Hdown) by class_cases.
      reflexivity. }
    split; legacy_unissued.
Qed.


(* ----------------------------------------------------------------- *)
(** *** The original script: [getvms] *)






(* ----------------------------------------------------------------- *)
(** *** Further properties: the commands of [main] *)

Lemma vms_of_digits resp k : In k (keys (vms_of resp)) -> Py.isdigit k = true.
Proof.
  unfold vms_of. destruct (negb (Py.truthy (Py.strip resp))); [intros []|].
  rewrite collect_vms_keys. simpl keys. simpl app.
  rewrite filter_all_true by (intros x _; reflexivity).
  intros Hk. apply first_occurrences_incl in Hk. apply filter_In in Hk. tauto.
Qed.

Lemma known_down out vs e : down_event vs e -> known out vs e.
Proof.
  intros He. destruct He; simpl; [right; exists v; split; [assumption | constructor] .. | exact I].
Qed.

Lemma known_repower out vs e : repower_event vs e -> known out vs e.
Proof.
  intros He. destruct He; simpl; right; exists v; split; [assumption | constructor | assumption | constructor].
Qed.

Lemma known_mm out vs (b : bool) e : mm_event b e -> known out vs e.
Proof. intros He. destruct He; simpl; try (left; constructor); exact I. Qed.

Lemma known_prologue h0 path vms h t :
  prologue h0 path vms h t -> Forall (known (fst (exec "pwd" h0)) (keys vms)) t.
Proof.
  intros H. destruct H as [out h1 listing h2 o3 h3 o4 h4 resp h5 E1].
  rewrite E1. repeat constructor.
Qed.

Lemma prologue_digits h0 path vms h t v :
  prologue h0 path vms h t -> In v (keys vms) -> Py.isdigit v = true.
Proof. intros H. destruct H. apply vms_of_digits. Qed.

Lemma known_segment (P : event -> Prop) out vs t :
  Forall P t -> (forall e, P e -> known out vs e) -> Forall (known out vs) t.
Proof. intros Ht Hf. eapply Forall_impl; [exact Hf | exact Ht]. Qed.

Ltac all_known :=
  repeat (apply Forall_app; split);
  first [ eapply known_prologue; eassumption
        | solve [ match goal with
                  | H : Forall (down_event _) ?t |- Forall _ ?t =>
                      apply (known_segment _ _ _ _ H); intros ? ?;
                      apply known_down; assumption
                  | H : Forall (repower_event _) ?t |- Forall _ ?t =>
                      apply (known_segment _ _ _ _ H); intros ? ?;
                      apply known_repower; assumption
                  | H : Forall (mm_event _) ?t |- Forall _ ?t =>
                      apply (known_segment _ _ _ _ H); intros ? ?;
                      eapply known_mm; eassumption
                  end ]
        | solve [ repeat constructor ] ].

(** X13: every command of a run of [main] is one of ten commands of the
    host, in which the only text from outside is the stripped answer of
    [pwd], or one of six commands for a workload; and the workload such a
    command names was discovered by the enumeration of this run and is made
    of digits only. *)
Theorem main_command_vocabulary h0 c :
  issued c (trace (main h0)) ->
  host_cmd (fst (exec "pwd" h0)) c
  \/ exists v, In v (discovered (trace (main h0)))
               /\ Py.isdigit v = true /\ workload_cmd v c.
Proof.
  assert (Hall : exists vs,
            Forall (known (fst (exec "pwd" h0)) vs) (trace (main h0))
            /\ forall v, In v vs ->
                 In v (discovered (trace (main h0))) /\ Py.isdigit v = true).
  { main_cases h0.
    - exists []. split; [|intros v []].
      rewrite H. repeat constructor.
    - exists (keys vms). split; [all_known|].
      intros v Hv. rewrite (proj1 (prologue_discovered _ _ _ _ _ td H)).
      split; [exact Hv | eapply prologue_digits; eassumption].
    - exists (keys vms). split; [all_known|].
      intros v Hv.
      rewrite (proj1 (prologue_discovered _ _ _ _ _ (td ++ te ++ tr) H)).
      split; [exact Hv | eapply prologue_digits; eassumption].
    - exists (keys vms). split.
      + rewrite (pwd_answer _ _ _ _ _ H). all_known.
      + intros v Hv.
        rewrite (proj1 (prologue_discovered _ _ _ _ _
                          (td ++ te ++ [Cmd (upgrade_cmd path) uout] ++ tx
                             ++ [Cmd reboot_cmd ro]) H)).
        split; [exact Hv | eapply prologue_digits; eassumption].
    - exists (keys vms). split.
      + rewrite (pwd_answer _ _ _ _ _ H). all_known.
      + intros v Hv.
        rewrite (proj1 (prologue_discovered _ _ _ _ _
                          (td ++ te ++ [Cmd (upgrade_cmd path) uout] ++ tx ++ tr) H)).
        split; [exact Hv | eapply prologue_digits; eassumption]. }
  destruct Hall as [vs [Hk Hvs]]. intros Hi.
  apply issued_inv in Hi. destruct Hi as [o Hin].
  rewrite Forall_forall in Hk. specialize (Hk _ Hin). simpl in Hk.
  destruct Hk as [Hh|[v [Hv Hw]]]; [left; exact Hh|].
  right. exists v. destruct (Hvs v Hv) as [Hd Hdig]. auto.
Qed.

(* ----------------------------------------------------------------- *)
(** *** Further properties: how [shutdownvm_onbox] ends *)

Lemma commands_polls_on v ons :
  commands (polls_on v ons) = map (fun _ => summary_cmd v) ons.
Proof. induction ons as [|a ons IH]; simpl; [reflexivity | rewrite IH; reflexivity]. Qed.

Lemma sleeps_polls_on v ons : sleeps (polls_on v ons) = length ons.
Proof.
  unfold sleeps. induction ons as [|a ons IH]; simpl; [reflexivity|].
  rewrite IH. reflexivity.
Qed.

Lemma polls_on_no_poweroff v ons : ~ issued (poweroff_cmd v) (polls_on v ons).
Proof.
  unfold issued. rewrite commands_polls_on. intros H. apply in_map_iff in H.
  destruct H as [a [C _]]. discriminate C.
Qed.

(** X14: [shutdownvm_onbox] returns or dies of an [IndexError]; it sends
    at most 13 commands and sleeps at most 10 times.  When it returns, its
    last command is either the one forced power-off of the call, whose
    effect it does not check, or a summary that read something other than
    [poweredOn], and then no power-off was sent; when it raises, no power-off
    was sent. *)
Theorem shutdownvm_ends_after_off_or_reading v h :
  (outcome (shutdownvm_onbox v h) = Val tt
   \/ outcome (shutdownvm_onbox v h) = Raise IndexError)
  /\ length (commands (trace (shutdownvm_onbox v h))) <= 13
  /\ sleeps (trace (shutdownvm_onbox v h)) <= 10
  /\ (outcome (shutdownvm_onbox v h) = Val tt ->
      (exists pre o,
          trace (shutdownvm_onbox v h) = pre ++ [Cmd (poweroff_cmd v) o]
          /\ ~ issued (poweroff_cmd v) pre)
      \/ (exists pre a s,
             trace (shutdownvm_onbox v h) = pre ++ [Cmd (summary_cmd v) a]
             /\ power_state_of a = Val s /\ s <> "poweredOn"
             /\ ~ issued (poweroff_cmd v) (trace (shutdownvm_onbox v h))))
  /\ (outcome (shutdownvm_onbox v h) = Raise IndexError ->
      ~ issued (poweroff_cmd v) (trace (shutdownvm_onbox v h))).
Proof.
  rewrite run_shutdownvm. cbv zeta.
  set (og := fst (exec (guest_cmd v) h)). set (hg := snd (exec (guest_cmd v) h)).
  destruct (tools_status_in_cases (Py.splitlines og)) as [[s Hs]|Hr];
    fold (tools_status_of og) in *.
  2:{ rewrite Hr. triples. split; [right; reflexivity|].
      split; [simpl; lia|]. split; [unfold sleeps; simpl; lia|].
      split; [discriminate|]. intros _ [C|[]]. discriminate C. }
  rewrite Hs. destruct (tools_usable s).
  2:{ triples. split; [left; reflexivity|].
      split; [simpl; lia|]. split; [unfold sleeps; simpl; lia|].
      split; [|discriminate]. intros _. left.
      exists [Cmd (guest_cmd v) og], (fst (exec (poweroff_cmd v) hg)).
      split; [reflexivity|]. intros [C|[]]. discriminate C. }
  destruct (graceful_shape v hg) as [o [ons [tail [Ht [_ He]]]]].
  unfold SHUTDOWN_TIMEOUT_PER_VM in He.
  assert (Hno : ~ issued (poweroff_cmd v)
                    (Cmd (guest_cmd v) og :: Cmd (shutdown_cmd v) o
                       :: polls_on v ons)).
  { change (Cmd ?a ?b :: Cmd ?c ?d :: ?l) with ([Cmd a b; Cmd c d] ++ l).
    apply not_issued_app; [|apply polls_on_no_poweroff].
    intros [C|[C|[]]]; discriminate C. }
  destruct He as [Hlen|a s' Hlen Ha Hne|a Hlen Ha].
  - (* the wait ran out *)
    rewrite app_nil_r in Ht.
    triples. rewrite Ht.
    split; [left; reflexivity|]. split; [|split; [|split; [|discriminate]]].
    + change (Cmd ?a ?b :: (Cmd ?c ?d :: ?l) ++ ?r)
        with ([Cmd a b; Cmd c d] ++ l ++ r).
      rewrite !commands_app, !length_app, commands_polls_on, length_map.
      simpl. lia.
    + change (Cmd ?a ?b :: (Cmd ?c ?d :: ?l) ++ ?r)
        with ([Cmd a b; Cmd c d] ++ l ++ r).
      rewrite !sleeps_app, sleeps_polls_on. unfold sleeps. simpl. lia.
    + intros _. left.
      exists (Cmd (guest_cmd v) og :: Cmd (shutdown_cmd v) o :: polls_on v ons).
      eexists. split; [reflexivity | exact Hno].
  - (* a reading other than poweredOn *)
    triples. rewrite Ht.
    assert (Hno' : ~ issued (poweroff_cmd v)
                     (Cmd (guest_cmd v) og :: Cmd (shutdown_cmd v) o
                        :: polls_on v ons ++ [Cmd (summary_cmd v) a])).
    { change (Cmd ?x ?b :: Cmd ?c ?d :: ?l ++ ?r)
        with ((Cmd x b :: Cmd c d :: l) ++ r).
      apply not_issued_app; [exact Hno|]. intros [C|[]]. discriminate C. }
    split; [left; reflexivity|]. split; [|split; [|split; [|discriminate]]].
    + change (Cmd ?x ?b :: Cmd ?c ?d :: ?l ++ ?r)
        with ([Cmd x b; Cmd c d] ++ l ++ r).
      rewrite !commands_app, !length_app, commands_polls_on, length_map.
      simpl. lia.
    + change (Cmd ?x ?b :: Cmd ?c ?d :: ?l ++ ?r)
        with ([Cmd x b; Cmd c d] ++ l ++ r).
      rewrite !sleeps_app, sleeps_polls_on. unfold sleeps. simpl. lia.
    + intros _. right.
      exists (Cmd (guest_cmd v) og :: Cmd (shutdown_cmd v) o :: polls_on v ons),
        a, s'.
      split; [reflexivity|]. split; [exact Ha|]. split; [exact Hne | exact Hno'].
  - (* a reading that raises *)
    triples. rewrite Ht.
    split; [right; reflexivity|]. split; [|split; [|split; [discriminate|]]].
    + change (Cmd ?x ?b :: Cmd ?c ?d :: ?l ++ ?r)
        with ([Cmd x b; Cmd c d] ++ l ++ r).
      rewrite !commands_app, !length_app, commands_polls_on, length_map.
      simpl. lia.
    + change (Cmd ?x ?b :: Cmd ?c ?d :: ?l ++ ?r)
        with ([Cmd x b; Cmd c d] ++ l ++ r).
      rewrite !sleeps_app, sleeps_polls_on. unfold sleeps. simpl. lia.
    + intros _.
      change (Cmd ?x ?b :: Cmd ?c ?d :: ?l ++ ?r)
        with ((Cmd x b :: Cmd c d :: l) ++ r).
      apply not_issued_app; [exact Hno|]. intros [C|[]]. discriminate C.
Qed.

(* ----------------------------------------------------------------- *)
(** *** Reading the registrations back *)

Lemma has_char_app c a b : has_char c (a +++ b) = has_char c a || has_char c b.
Proof.
  induction a as [|d a IH]; simpl; [reflexivity|].
  rewrite IH, orb_assoc. reflexivity.
Qed.

Lemma split_no_sep sep x : has_char sep x = false -> Py.split sep x = [x].
Proof.
  induction x as [|c x IH]; simpl; [reflexivity|]. intros H.
  apply orb_false_iff in H. destruct H as [Hc Hx]. rewrite Hc, (IH Hx).
  reflexivity.
Qed.

Lemma split_app_sep sep x y :
  has_char sep x = false ->
  Py.split sep (x +++ String sep y) = x :: Py.split sep y.
Proof.
  induction x as [|c x IH]; simpl; intros H.
  - rewrite Ascii.eqb_refl. reflexivity.
  - apply orb_false_iff in H. destruct H as [Hc Hx]. rewrite Hc, (IH Hx).
    reflexivity.
Qed.

Lemma split_join sep l :
  l <> [] -> Forall (fun x => has_char sep x = false) l ->
  Py.split sep (join sep l) = l.
Proof.
  induction l as [|x l IH]; [contradiction|]. intros _ Hf.
  inversion Hf as [|? ? Hx Hl]; subst. destruct l as [|y l].
  - simpl. apply split_no_sep. exact Hx.
  - change (join sep (x :: y :: l)) with (x +++ String sep (join sep (y :: l))).
    rewrite split_app_sep by exact Hx. f_equal.
    apply IH; [discriminate | exact Hl].
Qed.

Lemma all_chars_no_char (p : ascii -> bool) c s :
  p c = false -> Py.all_chars p s = true -> has_char c s = false.
Proof.
  intros Hc. induction s as [|d s IH]; simpl; [reflexivity|]. intros H.
  apply andb_true_iff in H. destruct H as [Hd Hs]. rewrite (IH Hs), orb_false_r.
  destruct (Ascii.eqb_spec d c) as [->|]; [|reflexivity].
  rewrite Hc in Hd. discriminate Hd.
Qed.

Lemma isdigit_no_quote v : Py.isdigit v = true -> has_char QUOTE v = false.
Proof.
  unfold Py.isdigit. destruct v as [|c v]; [reflexivity|].
  apply all_chars_no_char. reflexivity.
Qed.

Lemma string_of_uint_no_quote d :
  has_char QUOTE (NilEmpty.string_of_uint d) = false.
Proof. induction d; simpl; [reflexivity | assumption ..]. Qed.

Lemma decimal_value_string_of_uint d : forall acc,
  decimal_value acc (NilEmpty.string_of_uint d) = Some (Nat.of_uint_acc d acc).
Proof.
  induction d as [|d IH|d IH|d IH|d IH|d IH|d IH|d IH|d IH|d IH|d IH];
    intros acc; [reflexivity|..];
    cbn [NilEmpty.string_of_uint decimal_value Nat.of_uint_acc];
    match goal with
    | |- context [Py.isdecimal_char ?c] => change (Py.isdecimal_char c) with true
    end;
    cbv iota; rewrite IH; do 2 f_equal; rewrite Nat.tail_mul_spec;
    match goal with
    | |- context [Py.code ?c] =>
        let n := eval vm_compute in (Py.code c) in change (Py.code c) with n
    end; lia.
Qed.

Lemma to_uint_not_nil n : Nat.to_uint n <> Decimal.Nil.
Proof.
  intros H. pose proof (Unsigned.to_of (Nat.to_uint n)) as E.
  rewrite Unsigned.of_to, H in E. discriminate E.
Qed.

(** The number [str(n)] writes is [n]. *)
Lemma number_of_str_of_nat n : number_of (Py.str_of_nat n) = Some n.
Proof.
  unfold Py.str_of_nat, number_of.
  pose proof (decimal_value_string_of_uint (Nat.to_uint n) 0) as H.
  pose proof (Unsigned.of_to n) as Hn. unfold Nat.of_uint in Hn.
  rewrite Hn in H. clear Hn.
  destruct (Nat.to_uint n) eqn:E; [exfalso; exact (to_uint_not_nil n E)|..];
    exact H.
Qed.

Lemma same_fields_refl l : same_fields l l = true.
Proof.
  unfold same_fields. destruct (list_eq_dec string_dec l l); [reflexivity|].
  contradiction.
Qed.

(** What the format call of the scripts writes for a workload without
    double quote reads back as the registration of that workload with that
    priority. *)
Lemma cmd_auto_start_read_back v n :
  has_char QUOTE v = false ->
  registration_of (cmd_auto_start v n) v n = true
  /\ registered_priority (cmd_auto_start v n) = Some n.
Proof.
  intros Hv.
  assert (Hs : Py.split QUOTE (cmd_auto_start v n)
               = registration_fields v (Py.str_of_nat n)).
  { replace (cmd_auto_start v n)
      with (join QUOTE (registration_fields v (Py.str_of_nat n))).
    - apply split_join; [discriminate|]. unfold registration_fields.
      repeat (apply Forall_cons || apply Forall_nil);
        first [ reflexivity
              | apply string_of_uint_no_quote
              | rewrite !has_char_app, Hv; reflexivity ].
    - unfold cmd_auto_start, registration_fields. cbn [join].
      rewrite !append_assoc_string. reflexivity. }
  unfold registration_of, registered_priority. rewrite Hs.
  cbn [nth_error registration_fields]. fold (registration_fields v (Py.str_of_nat n)).
  rewrite same_fields_refl, number_of_str_of_nat, Nat.eqb_refl. split; reflexivity.
Qed.

Lemma registrations_read_back vs : forall n,
  (forall v, In v vs -> has_char QUOTE v = false) ->
  Forall2 (fun c p => registration_of c (fst p) (snd p) = true)
    (registrations_from vs n) (combine vs (seq n (length vs)))
  /\ map registered_priority (registrations_from vs n)
     = map Some (seq n (length vs)).
Proof.
  induction vs as [|v vs IH]; intros n Hq.
  - split; [constructor | reflexivity].
  - rewrite registrations_from_cons.
    destruct (cmd_auto_start_read_back v n (Hq v (or_introl eq_refl))) as [Hr Hp].
    destruct (IH (n + 1) (fun w Hw => Hq w (or_intror Hw))) as [Hf Hm].
    replace (S n) with (n + 1) in * by lia.
    cbn [length seq combine map]. replace (S n) with (n + 1) by lia. split.
    + constructor; [exact Hr | exact Hf].
    + rewrite Hp, Hm. reflexivity.
Qed.

Lemma discovered_digits h0 v :
  In v (discovered (trace (main h0))) -> Py.isdigit v = true.
Proof.
  main_cases h0.
  - intros [].
  - rewrite (proj1 (prologue_discovered _ _ _ _ _ td H)).
    eapply prologue_digits; eassumption.
  - rewrite (proj1 (prologue_discovered _ _ _ _ _ (td ++ te ++ tr) H)).
    eapply prologue_digits; eassumption.
  - rewrite (proj1 (prologue_discovered _ _ _ _ _
                      (td ++ te ++ [Cmd (upgrade_cmd path) uout] ++ tx
                         ++ [Cmd reboot_cmd ro]) H)).
    eapply prologue_digits; eassumption.
  - rewrite (proj1 (prologue_discovered _ _ _ _ _
                      (td ++ te ++ [Cmd (upgrade_cmd path) uout] ++ tx ++ tr) H)).
    eapply prologue_digits; eassumption.
Qed.

(** C8: the auto-start registrations of a run are those of the workloads of
    the restore set, in discovery order, with the priorities 1, 2, ..., a
    strictly increasing sequence.  This is what the commands say when they
    are read back: split at its double quotes, each of them is
    [update_autostartentry], the workload, [PowerOn], [15], the priority in
    decimal digits and three times [systemDefault].  And whatever shuts a
    workload down (the query of its tools status, the graceful request, the
    forced power-off) comes after the registration of that workload. *)
Theorem autostart_priorities_follow_discovery h0 :
  (exists prios,
      registrations (trace (main h0))
      = map (fun p => cmd_auto_start (fst p) (snd p))
          (combine (restore_set (trace (main h0))) prios)
      /\ prios = seq 1 (length (restore_set (trace (main h0))))
      /\ StronglySorted lt prios
      /\ Forall2 (fun c p => registration_of c (fst p) (snd p) = true)
           (registrations (trace (main h0)))
           (combine (restore_set (trace (main h0))) prios)
      /\ map registered_priority (registrations (trace (main h0)))
         = map Some prios)
  /\ forall v, preceded_by (registers v) (quiesces v) (trace (main h0)).
Proof.
  split.
  - exists (seq 1 (length (restore_set (trace (main h0))))).
    split; [apply main_registrations|]. split; [reflexivity|].
    split; [apply seq_sorted|].
    rewrite main_registrations. apply registrations_read_back.
    intros v Hv. apply isdigit_no_quote. apply (discovered_digits h0).
    unfold restore_set in Hv. apply filter_In in Hv. tauto.
  - intros v. apply main_registers_first.
Qed.

(* ----------------------------------------------------------------- *)
(** *** The original script: what it registers and powers off *)

Lemma int_isspace_not_quote c : Py.int_isspace c = true -> Ascii.eqb c QUOTE = false.
Proof.
  intros H. destruct (Ascii.eqb_spec c QUOTE) as [->|]; [discriminate H | reflexivity].
Qed.

Lemma digits_from_no_quote s : forall b,
  Py.digits_from b s = true -> has_char QUOTE s = false.
Proof.
  induction s as [|c s IH]; intros b; simpl; [reflexivity|].
  destruct (Ascii.eqb_spec c QUOTE) as [->|_]; [discriminate|]. simpl.
  destruct (Py.isdecimal_char c); [apply IH|].
  destruct (Ascii.eqb c "_"); [|discriminate].
  intros H. apply andb_true_iff in H. destruct H as [_ H]. exact (IH _ H).
Qed.

Lemma int_lstrip_no_quote s :
  has_char QUOTE (Py.int_lstrip s) = false -> has_char QUOTE s = false.
Proof.
  induction s as [|c s IH]; simpl; [reflexivity|].
  destruct (Py.int_isspace c) eqn:E; [|exact (fun H => H)].
  intros H. rewrite (IH H), (int_isspace_not_quote c E). reflexivity.
Qed.

Lemma int_rstrip_no_quote s :
  has_char QUOTE (Py.int_rstrip s) = false -> has_char QUOTE s = false.
Proof.
  induction s as [|c s IH]; simpl; [reflexivity|].
  destruct (Py.int_rstrip s) as [|d r].
  - rewrite (IH eq_refl), orb_false_r.
    destruct (Py.int_isspace c) eqn:E; [intros _; exact (int_isspace_not_quote c E)|].
    simpl. rewrite orb_false_r. exact (fun H => H).
  - intros H. change (has_char QUOTE (String c (String d r)))
      with (Ascii.eqb c QUOTE || has_char QUOTE (String d r)) in H.
    apply orb_false_iff in H. destruct H as [Hc Hr].
    rewrite Hc, (IH Hr). reflexivity.
Qed.

(** What [int] accepts has no double quote. *)
Lemma int_parses_no_quote s : Py.int_parses s = true -> has_char QUOTE s = false.
Proof.
  unfold Py.int_parses. intros H.
  apply int_lstrip_no_quote, int_rstrip_no_quote.
  destruct (Py.int_rstrip (Py.int_lstrip s)) as [|c r]; [reflexivity|].
  destruct (Ascii.eqb c "+" || Ascii.eqb c "-") eqn:Es.
  - simpl. rewrite (digits_from_no_quote r false H), orb_false_r.
    apply orb_true_iff in Es.
    destruct Es as [E|E]; apply Ascii.eqb_eq in E; subst c; reflexivity.
  - exact (digits_from_no_quote _ false H).
Qed.

Lemma legacy_vms_of_keys_parse resp d k :
  legacy_vms_of resp = Some d -> In k (keys d) -> Py.int_parses k = true.
Proof.
  unfold legacy_vms_of. destruct (String.eqb resp ""); [discriminate|].
  intros H. injection H as <-. rewrite legacy_collect_vms_keys. simpl keys.
  simpl app. rewrite filter_all_true by (intros x _; reflexivity).
  intros Hk. apply first_occurrences_incl in Hk. apply filter_In in Hk. tauto.
Qed.

Lemma legacy_prologue_keys_parse h0 path vms h t k :
  legacy_prologue h0 path vms h t -> In k (workloads_of vms) ->
  Py.int_parses k = true.
Proof.
  intros H. destruct H as [out h1 listing h2 o3 h3 o4 h4 resp h5].
  destruct (legacy_vms_of resp) as [d|] eqn:E; [|intros []].
  apply (legacy_vms_of_keys_parse resp d k E).
Qed.

Lemma filter_filter_weaken {A} (f g : A -> bool) l :
  (forall x, f x = true -> g x = true) -> filter f (filter g l) = filter f l.
Proof.
  intros Hfg. induction l as [|x l IH]; simpl; [reflexivity|].
  destruct (g x) eqn:Hg; simpl.
  - rewrite IH. reflexivity.
  - destruct (f x) eqn:Hf; [rewrite (Hfg x Hf) in Hg; discriminate Hg | exact IH].
Qed.

Lemma legacy_down_commands_registrations vs : forall n,
  filter is_autostart_cmd (legacy_down_commands vs n) = registrations_from vs n.
Proof.
  induction vs as [|v vs IH]; intros n; [reflexivity|].
  rewrite legacy_down_commands_cons, registrations_from_cons.
  cbn [filter]. rewrite is_autostart_cmd_auto_start.
  change (is_autostart_cmd (poweroff_cmd v)) with false. cbv iota.
  rewrite IH. reflexivity.
Qed.

Lemma legacy_down_commands_poweroffs vs : forall n,
  filter is_poweroff_cmd (legacy_down_commands vs n) = map poweroff_cmd vs.
Proof.
  induction vs as [|v vs IH]; intros n; [reflexivity|].
  rewrite legacy_down_commands_cons. cbn [filter map].
  change (is_poweroff_cmd (cmd_auto_start v n)) with false.
  change (is_poweroff_cmd (poweroff_cmd v)) with true. cbv iota.
  rewrite IH. reflexivity.
Qed.

(** X10: in a run of the original script that returns, the registrations
    and power-offs are, in discovery order, one registration followed by one
    power-off for each discovered workload whose summary read [poweredOn],
    and nothing for any other workload.  Read back from their text, split at
    the double quotes, the registrations are [update_autostartentry], the
    workload, [PowerOn], [15], the priority in decimal digits and three
    times [systemDefault], the priorities being 1, 2, ... in this order. *)
Theorem legacy_powers_off_what_it_read_on h0 :
  outcome (legacy_main h0) = Val tt ->
  filter (fun c => is_autostart_cmd c || is_poweroff_cmd c)
    (commands (trace (legacy_main h0)))
  = legacy_down_commands (legacy_found_on (trace (legacy_main h0))) 1
  /\ Forall2 (fun c p => registration_of c (fst p) (snd p) = true)
       (filter is_autostart_cmd (commands (trace (legacy_main h0))))
       (combine (legacy_found_on (trace (legacy_main h0)))
          (seq 1 (length (legacy_found_on (trace (legacy_main h0))))))
  /\ map registered_priority
       (filter is_autostart_cmd (commands (trace (legacy_main h0))))
     = map Some (seq 1 (length (legacy_found_on (trace (legacy_main h0)))))
  /\ filter is_poweroff_cmd (commands (trace (legacy_main h0)))
     = map poweroff_cmd (legacy_found_on (trace (legacy_main h0))).
Proof.
  intros Hval.
  assert (Hall : filter (fun c => is_autostart_cmd c || is_poweroff_cmd c)
                   (commands (trace (legacy_main h0)))
                 = legacy_down_commands (legacy_found_on (trace (legacy_main h0))) 1
                 /\ forall v, In v (legacy_found_on (trace (legacy_main h0))) ->
                      has_char QUOTE v = false).
  { revert Hval. unfold legacy_found_on.
    legacy_cases h0; intros Hval; try discriminate Hval.
    destruct (legacy_read_table _ _ _ _ _ _ _ _ H H0) as [Hk [_ Hread]].
    destruct (legacy_down_segment _ _ _ _ _ _ _ _ _ _ H Hk H1) as [Hcmds Hdown].
    rewrite (legacy_prologue_discovered _ _ _ _ _ _ H).
    split.
    - rewrite !commands_app, !filter_app.
      rewrite (filter_commands_none _ _ _ H3) by by_class.
      rewrite (filter_commands_none _ _ _ H4) by by_class.
      rewrite (filter_commands_all _ _ _ Hdown) by by_class.
      rewrite (filter_commands_none _ _ _ H5) by by_class.
      change (commands [Sleep 1]) with (@nil string).
      cbn [app filter]. rewrite app_nil_r, Hcmds. f_equal.
      apply filter_ext_in. intros v Hv.
      rewrite <- Hk in Hv. destruct (Hread v Hv) as [a [r [Ha [Hr Hg]]]].
      unfold legacy_reads_on, legacy_on. rewrite !answers_app.
      rewrite (answers_nil_on _ (summary_cmd v) t H3) by class_cases.
      rewrite Ha, Hg. cbn [app hd_error]. rewrite Hr. reflexivity.
    - intros v Hv. apply filter_In in Hv. destruct Hv as [Hv _].
      apply int_parses_no_quote.
      eapply legacy_prologue_keys_parse; eassumption. }
  destruct Hall as [Hcmds Hq]. split; [exact Hcmds|].
  assert (Hreg : filter is_autostart_cmd (commands (trace (legacy_main h0)))
                 = registrations_from (legacy_found_on (trace (legacy_main h0))) 1).
  { rewrite <- (filter_filter_weaken is_autostart_cmd
                  (fun c => is_autostart_cmd c || is_poweroff_cmd c))
      by (intros x Hx; rewrite Hx; reflexivity).
    rewrite Hcmds. apply legacy_down_commands_registrations. }
  destruct (registrations_read_back _ 1 Hq) as [Hf Hm].
  rewrite Hreg. split; [exact Hf|]. split; [exact Hm|].
  rewrite <- (filter_filter_weaken is_poweroff_cmd
                (fun c => is_autostart_cmd c || is_poweroff_cmd c))
    by (intros x Hx; rewrite Hx; apply orb_true_r).
  rewrite Hcmds. apply legacy_down_commands_poweroffs.
Qed.

End Script.

(* ================================================================= *)
(** ** The properties on simulated hosts *)

(** A run of the revised script on a simulated host where workload 1 is
    running. *)
Local Abbreviation run c := (main (sim_exec c) sim_elapse one_running).

(** C1 does not hold of the code.  On a host that never enters
    maintenance mode, with workload 1 running and workload 2 off when the
    run starts, the run ends with the status 2.  The restore set is workload
    1: workload 2 was read [poweredOff] by the power-down loop and got
    neither a registration nor a command that shuts it down.  The re-power
    loop goes through both discovered workloads, reads [poweredOff] for
    both, and powers both on: workload 2, which the run found off and never
    touched, is switched on by the rollback. *)
Theorem rollback_powers_on_workload_outside_restore_set :
  outcome (run stuck_host) = Exit 2
  /\ discovered (trace (run stuck_host)) = ["1"; "2"]
  /\ restore_set (trace (run stuck_host)) = ["1"]
  /\ first_reading "2" (trace (run stuck_host)) = Some (Val "poweredOff")
  /\ map (Py.split QUOTE) (registrations (trace (run stuck_host)))
     = [registration_fields "1" "1"]
  /\ ~ issued "vim-cmd vmsvc/get.guest 2" (trace (run stuck_host))
  /\ ~ issued "vim-cmd vmsvc/power.shutdown 2" (trace (run stuck_host))
  /\ ~ issued "vim-cmd vmsvc/power.off 2" (trace (run stuck_host))
  /\ filter is_poweron_cmd (commands (trace (run stuck_host)))
     = ["vim-cmd vmsvc/power.on 1"; "vim-cmd vmsvc/power.on 2"]
  /\ ~ (forall v, issued (poweron_cmd v) (trace (run stuck_host))
                  <-> In v (restore_set (trace (run stuck_host)))).
Proof.
  split; [vm_compute; reflexivity|]. split; [vm_compute; reflexivity|].
  split; [vm_compute; reflexivity|]. split; [vm_compute; reflexivity|].
  split; [vm_compute; reflexivity|].
  split; [apply unissued_existsb; vm_compute; reflexivity|].
  split; [apply unissued_existsb; vm_compute; reflexivity|].
  split; [apply unissued_existsb; vm_compute; reflexivity|].
  split; [vm_compute; reflexivity|].
  intros H. destruct (H "2") as [Hi _].
  assert (Hon : issued (poweron_cmd "2") (trace (run stuck_host))).
  { apply (issued_cmd _ ("Powering on VM:" +++ LF)). vm_compute.
    repeat (first [left; reflexivity | right]). }
  specialize (Hi Hon). vm_compute in Hi. destruct Hi as [C|[]]. discriminate C.
Qed.

(** A key line without [=] makes the run end with an uncaught
    [IndexError], status 1. *)
Lemma garbled_answer_raises :
  outcome (run garbled_host) = Raise IndexError
  /\ exit_status (outcome (run garbled_host)) = 1.
Proof. split; vm_compute; reflexivity. Qed.

(** C2 fails as stated: with the success marker alone the run ends with
    the status 3 and without reboot, but workload 1 of the restore set, whose
    summary has no [powerState] line once it is off, gets no power-on. *)
Lemma success_marker_alone_leaves_workload_off :
  upgrade_answers (trace (run half_done_host)) = [upgrade_no_reboot]
  /\ Py.contains "The update completed successfully" upgrade_no_reboot = true
  /\ Py.contains "Reboot Required: true" upgrade_no_reboot = false
  /\ outcome (run half_done_host) = Exit 3
  /\ In "1" (restore_set (trace (run half_done_host)))
  /\ ~ issued (poweron_cmd "1") (trace (run half_done_host)).
Proof.
  repeat split; try (vm_compute; reflexivity).
  - vm_compute. left. reflexivity.
  - apply unissued_existsb. vm_compute. reflexivity.
Qed.

Lemma reboot_iff_both_markers_witness :
  In upgrade_no_reboot (upgrade_answers (trace (run no_reboot_host)))
  /\ Py.contains "Reboot Required: true" upgrade_no_reboot = false
  /\ raised (outcome (run no_reboot_host)) = false
  /\ In "1" (restore_set (trace (run no_reboot_host)))
  /\ reads "poweredOff" (last_reading "1" (trace (run no_reboot_host))) = true
  /\ outcome (run no_reboot_host) = Exit 3
  /\ issued mm_disable_cmd (trace (run no_reboot_host))
  /\ ~ issued reboot_cmd (trace (run no_reboot_host))
  /\ issued (poweron_cmd "1") (trace (run no_reboot_host)).
Proof.
  assert (Hin : In upgrade_no_reboot (upgrade_answers (trace (run no_reboot_host))))
    by (vm_compute; left; reflexivity).
  assert (Hmark : Py.contains "Reboot Required: true" upgrade_no_reboot = false)
    by (vm_compute; reflexivity).
  assert (Hr : raised (outcome (run no_reboot_host)) = false)
    by (vm_compute; reflexivity).
  assert (Hv : In "1" (restore_set (trace (run no_reboot_host))))
    by (vm_compute; left; reflexivity).
  assert (Hoff : reads "poweredOff"
                   (last_reading "1" (trace (run no_reboot_host))) = true)
    by (vm_compute; reflexivity).
  destruct (reboot_iff_both_markers (sim_exec no_reboot_host) sim_elapse
              one_running) as [_ H].
  destruct (H upgrade_no_reboot Hin (or_intror Hmark)) as [Hd [Hn Hx]].
  destruct (Hx Hr) as [He [_ Hp]].
  repeat split; try assumption. exact (Hp "1" Hv Hoff).
Defined.

(** C3 fails as stated: on a host that never enters maintenance mode, the
    run ends with the status 2, but workload 1 of the restore set, whose
    summary has no [powerState] line once it is off, gets no power-on. *)
Lemma unreadable_workload_not_repowered_after_timeout :
  mm_entry_timed_out (trace (run blind_host)) = true
  /\ outcome (run blind_host) = Exit 2
  /\ In "1" (restore_set (trace (run blind_host)))
  /\ reads "unknown" (last_reading "1" (trace (run blind_host))) = true
  /\ ~ issued (poweron_cmd "1") (trace (run blind_host)).
Proof.
  repeat split; try (vm_compute; reflexivity).
  - vm_compute. left. reflexivity.
  - apply unissued_existsb. vm_compute. reflexivity.
Qed.

Lemma mm_timeout_rolls_back_witness :
  mm_entry_timed_out (trace (run stuck_host)) = true
  /\ raised (outcome (run stuck_host)) = false
  /\ In "1" (restore_set (trace (run stuck_host)))
  /\ reads "poweredOff" (last_reading "1" (trace (run stuck_host))) = true
  /\ Forall (fun c => is_upgrade_cmd c = false) (commands (trace (run stuck_host)))
  /\ outcome (run stuck_host) = Exit 2
  /\ issued (poweron_cmd "1") (trace (run stuck_host)).
Proof.
  assert (Hto : mm_entry_timed_out (trace (run stuck_host)) = true)
    by (vm_compute; reflexivity).
  assert (Hr : raised (outcome (run stuck_host)) = false)
    by (vm_compute; reflexivity).
  assert (Hv : In "1" (restore_set (trace (run stuck_host))))
    by (vm_compute; left; reflexivity).
  assert (Hoff : reads "poweredOff" (last_reading "1" (trace (run stuck_host))) = true)
    by (vm_compute; reflexivity).
  destruct (mm_timeout_rolls_back (sim_exec stuck_host) sim_elapse one_running Hto)
    as [Hu [_ Hx]].
  destruct (Hx Hr) as [He [_ Hp]].
  repeat split; try assumption. exact (Hp "1" Hv Hoff).
Defined.

Lemma shutdown_graceful_before_forced_witness :
  outcome (check_vmware_tools_status (sim_exec deaf_guest_host) "1" one_running)
  = Val (Some "toolsOk")
  /\ tools_usable (Some "toolsOk") = true
  /\ preceded_by (fun e => exists o, e = Cmd (shutdown_cmd "1") o)
                 (fun e => exists w o, e = Cmd (poweroff_cmd w) o)
                 (trace (shutdownvm_onbox (sim_exec deaf_guest_host) sim_elapse
                           "1" one_running)).
Proof.
  assert (Hs : outcome (check_vmware_tools_status (sim_exec deaf_guest_host) "1"
                          one_running) = Val (Some "toolsOk"))
    by (vm_compute; reflexivity).
  destruct (shutdown_graceful_before_forced (sim_exec deaf_guest_host) sim_elapse
              "1" one_running (Some "toolsOk") Hs) as [H _].
  split; [exact Hs|]. split; [reflexivity|]. apply H. reflexivity.
Defined.

Lemma graceful_shutdown_bounded_polling_witness :
  snd (sim_exec deaf_guest_host (guest_cmd "1") one_running) = one_running
  /\ outcome (check_vmware_tools_status (sim_exec deaf_guest_host) "1" one_running)
     = Val (Some "toolsOk")
  /\ outcome (graceful_shutdown_onbox (sim_exec deaf_guest_host) sim_elapse "1"
                one_running) = Val false
  /\ length (answers (summary_cmd "1")
               (trace (graceful_shutdown_onbox (sim_exec deaf_guest_host)
                         sim_elapse "1" one_running))) = 10
  /\ outcome (shutdownvm_onbox (sim_exec deaf_guest_host) sim_elapse "1"
                one_running) = Val tt
  /\ exists og oo,
       trace (shutdownvm_onbox (sim_exec deaf_guest_host) sim_elapse "1" one_running)
       = Cmd (guest_cmd "1") og
           :: trace (graceful_shutdown_onbox (sim_exec deaf_guest_host) sim_elapse
                       "1" one_running)
           ++ [Cmd (poweroff_cmd "1") oo].
Proof.
  assert (Hh : snd (sim_exec deaf_guest_host (guest_cmd "1") one_running)
               = one_running) by reflexivity.
  assert (Hs : outcome (check_vmware_tools_status (sim_exec deaf_guest_host) "1"
                          one_running) = Val (Some "toolsOk"))
    by (vm_compute; reflexivity).
  assert (Hg : outcome (graceful_shutdown_onbox (sim_exec deaf_guest_host)
                          sim_elapse "1" one_running) = Val false)
    by (vm_compute; reflexivity).
  destruct (graceful_shutdown_bounded_polling (sim_exec deaf_guest_host) sim_elapse
              "1" one_running one_running (Some "toolsOk")) as [_ [_ [_ H]]].
  destruct (H Hh Hs eq_refl Hg) as [Ho Ht].
  repeat split; try assumption; vm_compute; reflexivity.
Defined.


(** C7 fails as stated: on a host whose workload shows no [powerState] line
    once the graceful request took effect, the first poll reads [unknown],
    [graceful_shutdown_onbox] returns [True], and [shutdownvm_onbox] forces
    no power-off. *)
Lemma graceful_path_takes_unknown_for_off :
  tools_usable (Some "toolsOk") = true
  /\ outcome (getvmpowerstate_onbox (sim_exec vanishing_host) "1"
                (snd (sim_exec vanishing_host (shutdown_cmd "1") one_running)))
     = Val "unknown"
  /\ outcome (graceful_shutdown_onbox (sim_exec vanishing_host) sim_elapse "1"
                one_running) = Val true
  /\ commands (trace (shutdownvm_onbox (sim_exec vanishing_host) sim_elapse "1"
                        one_running))
     = [guest_cmd "1"; shutdown_cmd "1"; summary_cmd "1"].
Proof. repeat split; vm_compute; reflexivity. Qed.

Lemma keyless_answers_read_as_not_found_witness :
  existsb (Py.contains "toolsStatus")
    (Py.splitlines (fst (sim_exec mute_host (guest_cmd "1") all_off))) = false
  /\ existsb (Py.contains "powerState")
       (Py.split NL (fst (sim_exec mute_host (summary_cmd "1") all_off))) = false
  /\ existsb (Py.contains "powerState")
       (Py.split NL
          (fst (sim_exec mute_host (summary_cmd "1")
                  (snd (sim_exec mute_host (shutdown_cmd "1") all_off))))) = false
  /\ outcome (check_vmware_tools_status (sim_exec mute_host) "1" all_off) = Val None
  /\ commands (trace (shutdownvm_onbox (sim_exec mute_host) sim_elapse "1" all_off))
     = [guest_cmd "1"; poweroff_cmd "1"]
  /\ outcome (getvmpowerstate_onbox (sim_exec mute_host) "1" all_off) = Val "unknown"
  /\ outcome (graceful_shutdown_onbox (sim_exec mute_host) sim_elapse "1" all_off)
     = Val true.
Proof.
  assert (H1 : existsb (Py.contains "toolsStatus")
                 (Py.splitlines (fst (sim_exec mute_host (guest_cmd "1") all_off)))
               = false) by (vm_compute; reflexivity).
  assert (H2 : existsb (Py.contains "powerState")
                 (Py.split NL (fst (sim_exec mute_host (summary_cmd "1") all_off)))
               = false) by (vm_compute; reflexivity).
  assert (H3 : existsb (Py.contains "powerState")
                 (Py.split NL
                    (fst (sim_exec mute_host (summary_cmd "1")
                            (snd (sim_exec mute_host (shutdown_cmd "1") all_off)))))
               = false) by (vm_compute; reflexivity).
  destruct (keyless_answers_read_as_not_found (sim_exec mute_host) sim_elapse "1"
              all_off 1) as [Ha [Hb Hc]].
  destruct (Ha H1) as [Ha1 [_ Ha2]]. destruct (Hb H2) as [Hb1 _].
  destruct (Hc H3) as [Hc1 _].
  repeat split; assumption.
Defined.

(** C9 on the original script: a listing without the package ends the run
    with the status 0, not 1, after [pwd] and [ls -l]. *)
Lemma legacy_missing_package_exit_status_0 :
  Py.contains "VMware-ESXi-7.0U2c-18426014-depot.zip"
    (legacy_listing_of (sim_exec good_host) one_running) = false
  /\ outcome (legacy_main (sim_exec good_host) sim_elapse one_running) = Exit 0
  /\ exit_status (outcome (legacy_main (sim_exec good_host) sim_elapse one_running))
     = 0
  /\ commands (trace (legacy_main (sim_exec good_host) sim_elapse one_running))
     = ["pwd"; "ls -l '/vmfs/volumes/datastore1/'"].
Proof. repeat split; vm_compute; reflexivity. Qed.

Lemma poweron_only_after_powered_off_reading_witness :
  issued (poweron_cmd "1") (trace (run stuck_host))
  /\ reads "poweredOff" (last_reading "1" (trace (run stuck_host))) = true
  /\ reads "unknown" (last_reading "1" (trace (run blind_host))) = true
  /\ ~ issued (poweron_cmd "1") (trace (run blind_host)).
Proof.
  assert (Hi : issued (poweron_cmd "1") (trace (run stuck_host))).
  { apply (issued_cmd _ ("Powering on VM:" +++ LF)). vm_compute.
    repeat (first [left; reflexivity | right]). }
  assert (Hu : reads "unknown" (last_reading "1" (trace (run blind_host))) = true)
    by (vm_compute; reflexivity).
  destruct (poweron_only_after_powered_off_reading (sim_exec stuck_host) sim_elapse
              one_running "1") as [_ [H1 _]].
  destruct (poweron_only_after_powered_off_reading (sim_exec blind_host) sim_elapse
              one_running "1") as [_ [_ H2]].
  split; [exact Hi|]. split; [exact (H1 Hi)|]. split; [exact Hu | exact (H2 Hu)].
Defined.

(** On the good host workload 1, the restore set, is registered with the
    priority 1. *)
Example registrations_of_good_run :
  restore_set (trace (run good_host)) = ["1"]
  /\ registrations (trace (run good_host)) = [cmd_auto_start "1" 1].
Proof. split; vm_compute; reflexivity. Qed.

(* ----------------------------------------------------------------- *)
(** *** The further properties on simulated hosts *)

Lemma readers_return_clean_values_witness :
  outcome (getvmpowerstate_onbox (sim_exec good_host) "1" one_running)
  = Val "poweredOn"
  /\ clean_value "poweredOn"
  /\ outcome (check_vmware_tools_status (sim_exec good_host) "1" one_running)
     = Val (Some "toolsOk")
  /\ clean_value "toolsOk".
Proof.
  assert (Hp : outcome (getvmpowerstate_onbox (sim_exec good_host) "1" one_running)
               = Val "poweredOn") by (vm_compute; reflexivity).
  assert (Ht : outcome (check_vmware_tools_status (sim_exec good_host) "1"
                          one_running) = Val (Some "toolsOk"))
    by (vm_compute; reflexivity).
  split; [exact Hp|]. split.
  - exact (proj1 (readers_return_clean_values (sim_exec good_host) "1"
                    one_running "poweredOn") Hp).
  - split; [exact Ht|].
    exact (proj2 (readers_return_clean_values (sim_exec good_host) "1"
                    one_running "toolsOk") Ht).
Defined.

Lemma first_key_line_decides_witness :
  power_state_in (["Listsummary:"] ++ "   powerState: poweredOn"
                    :: ["   powerState = poweredOff,"])
  = Raise IndexError
  /\ tools_status_in (["Guest information:"] ++ "   toolsStatus = toolsOld, "
                        :: ["   toolsStatus = toolsOk,"])
     = Val (Some "toolsOld").
Proof.
  destruct (first_key_line_decides ["Listsummary:"] "   powerState: poweredOn"
              ["   powerState = poweredOff,"]) as [Hp _].
  destruct (first_key_line_decides ["Guest information:"]
              "   toolsStatus = toolsOld, " ["   toolsStatus = toolsOk,"])
    as [_ Ht].
  split.
  - rewrite Hp; reflexivity.
  - rewrite Ht; reflexivity.
Defined.

Lemma main_exit_status_witness :
  outcome (run stuck_host) = Exit 2
  /\ mm_entry_timed_out (trace (run stuck_host)) = true
  /\ outcome (run no_reboot_host) = Exit 3
  /\ (exists out, upgrade_answers (trace (run no_reboot_host)) = [out]
                  /\ upgrade_succeeded out = false)
  /\ outcome (run good_host) = Val tt
  /\ issued reboot_cmd (trace (run good_host)).
Proof.
  assert (H2 : outcome (run stuck_host) = Exit 2) by (vm_compute; reflexivity).
  assert (H3 : outcome (run no_reboot_host) = Exit 3) by (vm_compute; reflexivity).
  assert (H0 : outcome (run good_host) = Val tt) by (vm_compute; reflexivity).
  destruct (main_exit_status (sim_exec stuck_host) sim_elapse one_running)
    as (_ & _ & _ & _ & Hto & _).
  destruct (main_exit_status (sim_exec no_reboot_host) sim_elapse one_running)
    as (_ & _ & _ & _ & _ & Hup).
  destruct (main_exit_status (sim_exec good_host) sim_elapse one_running)
    as (_ & [Hre _] & _).
  split; [exact H2|]. split; [exact (Hto H2)|].
  split; [exact H3|]. split; [exact (Hup H3)|].
  split; [exact H0 | exact (Hre H0)].
Defined.

Lemma upgrade_only_in_maintenance_mode_witness :
  exists pre post,
    trace (run good_host)
    = pre ++ Cmd (upgrade_cmd ("/vmfs/volumes/datastore1/" +++ UPGRADE_FILENAME))
               (upgrade_out good_host) :: post
    /\ issued mm_enable_cmd pre
    /\ (exists a, last_opt (answers mm_get_cmd pre) = Some a
                  /\ Py.lower (Py.strip a) = "enabled")
    /\ ~ issued mm_disable_cmd pre
    /\ upgrade_answers pre = [] /\ upgrade_answers post = [].
Proof.
  exists (firstn 14 (trace (run good_host))), (skipn 15 (trace (run good_host))).
  assert (Heq : trace (run good_host)
                = firstn 14 (trace (run good_host))
                    ++ Cmd (upgrade_cmd ("/vmfs/volumes/datastore1/"
                                           +++ UPGRADE_FILENAME))
                         (upgrade_out good_host)
                    :: skipn 15 (trace (run good_host)))
    by (vm_compute; reflexivity).
  split; [exact Heq|].
  destruct (upgrade_only_in_maintenance_mode (sim_exec good_host) sim_elapse
              one_running _ _ _ _ Heq eq_refl) as (_ & _ & H).
  exact H.
Defined.

Lemma only_restore_set_is_shut_down_witness :
  In "1" (restore_set (trace (run stuck_host)))
  /\ issued (guest_cmd "1") (trace (run stuck_host))
  /\ ~ In "2" (restore_set (trace (run stuck_host)))
  /\ ~ issued (poweroff_cmd "2") (trace (run stuck_host)).
Proof.
  assert (H1 : In "1" (restore_set (trace (run stuck_host))))
    by (vm_compute; left; reflexivity).
  assert (H2 : ~ In "2" (restore_set (trace (run stuck_host))))
    by (vm_compute; intros [H|[]]; discriminate H).
  destruct (only_restore_set_is_shut_down (sim_exec stuck_host) sim_elapse
              one_running "1") as [[_ Hq] _].
  destruct (only_restore_set_is_shut_down (sim_exec stuck_host) sim_elapse
              one_running "2") as [_ Hs].
  split; [exact H1|]. split; [exact (Hq H1)|]. split; [exact H2|].
  intros Hi. apply issued_inv in Hi. destruct Hi as [o Hin].
  apply H2. apply (Hs _ Hin). exists o. right. right. reflexivity.
Defined.

(** A run of the original script on a simulated host where workload 1 is
    running and workload 2 is off. *)
Local Abbreviation legacy_run c := (legacy_main (sim_exec c) sim_elapse one_running).

Lemma legacy_main_exit_status_witness :
  outcome (legacy_run legacy_blind_host) = Raise TypeError
  /\ Forall (fun c => is_risky_cmd c = false)
       (commands (trace (legacy_run legacy_blind_host)))
  /\ outcome (legacy_run legacy_host) = Val tt
  /\ issued reboot_cmd (trace (legacy_run legacy_host))
  /\ exists s, legacy_power_state_of (summary_text "poweredOff") = Val (Some s).
Proof.
  assert (Hb : outcome (legacy_run legacy_blind_host) = Raise TypeError)
    by (vm_compute; reflexivity).
  assert (Hg : outcome (legacy_run legacy_host) = Val tt)
    by (vm_compute; reflexivity).
  assert (Hin : In (Cmd (summary_cmd "2") (summary_text "poweredOff"))
                  (trace (legacy_run legacy_host)))
    by (vm_compute; do 7 right; left; reflexivity).
  destruct (legacy_main_exit_status (sim_exec legacy_blind_host) sim_elapse
              one_running) as (_ & _ & _ & Hsafe & _).
  destruct (legacy_main_exit_status (sim_exec legacy_host) sim_elapse
              one_running) as (_ & _ & [Hre _] & _ & Hread).
  split; [exact Hb|]. split.
  - apply Hsafe. rewrite Hb. discriminate.
  - split; [exact Hg|]. split; [exact (Hre Hg)|].
    exact (Hread Hg "2" _ Hin).
Defined.

Lemma legacy_upgrade_unchecked_witness :
  outcome (legacy_run legacy_host) = Val tt
  /\ upgrade_answers (trace (legacy_run legacy_host)) = ["[InstallationError]" +++ LF]
  /\ ~ issued mm_get_cmd (trace (legacy_run legacy_host))
  /\ exists pre o1 o2 o3 o4,
       trace (legacy_run legacy_host)
       = pre ++ [Cmd mm_enable_cmd o1; Sleep 1;
                 Cmd (legacy_upgrade_cmd
                        ("/vmfs/volumes/datastore1/" +++ legacy_file_name)) o2;
                 Cmd mm_disable_cmd o3; Cmd reboot_cmd o4]
       /\ ~ issued mm_enable_cmd pre /\ upgrade_answers pre = []
       /\ ~ issued mm_disable_cmd pre /\ ~ issued reboot_cmd pre.
Proof.
  assert (Hg : outcome (legacy_run legacy_host) = Val tt)
    by (vm_compute; reflexivity).
  destruct (legacy_upgrade_unchecked (sim_exec legacy_host) sim_elapse
              one_running) as (Hget & _ & Htail).
  split; [exact Hg|]. split; [vm_compute; reflexivity|]. split; [exact Hget|].
  exact (Htail Hg).
Defined.



Lemma main_command_vocabulary_witness :
  issued (shutdown_cmd "1") (trace (run good_host))
  /\ (host_cmd (fst (sim_exec good_host "pwd" one_running)) (shutdown_cmd "1")
      \/ exists v, In v (discovered (trace (run good_host)))
                   /\ Py.isdigit v = true /\ workload_cmd v (shutdown_cmd "1")).
Proof.
  assert (Hi : issued (shutdown_cmd "1") (trace (run good_host)))
    by (vm_compute; do 8 right; left; reflexivity).
  split; [exact Hi|].
  exact (main_command_vocabulary (sim_exec good_host) sim_elapse one_running
           (shutdown_cmd "1") Hi).
Defined.

Lemma shutdownvm_ends_after_off_or_reading_witness :
  outcome (shutdownvm_onbox (sim_exec deaf_guest_host) sim_elapse "1" one_running)
  = Val tt
  /\ ((exists pre o,
          trace (shutdownvm_onbox (sim_exec deaf_guest_host) sim_elapse "1"
                   one_running)
          = pre ++ [Cmd (poweroff_cmd "1") o]
          /\ ~ issued (poweroff_cmd "1") pre)
      \/ (exists pre a s,
             trace (shutdownvm_onbox (sim_exec deaf_guest_host) sim_elapse "1"
                      one_running)
             = pre ++ [Cmd (summary_cmd "1") a]
             /\ power_state_of a = Val s /\ s <> "poweredOn"
             /\ ~ issued (poweroff_cmd "1")
                  (trace (shutdownvm_onbox (sim_exec deaf_guest_host) sim_elapse
                            "1" one_running)))).
Proof.
  assert (Hv : outcome (shutdownvm_onbox (sim_exec deaf_guest_host) sim_elapse
                          "1" one_running) = Val tt)
    by (vm_compute; reflexivity).
  split; [exact Hv|].
  destruct (shutdownvm_ends_after_off_or_reading (sim_exec deaf_guest_host)
              sim_elapse "1" one_running) as (_ & _ & _ & Hend & _).
  exact (Hend Hv).
Defined.

(* ----------------------------------------------------------------- *)
(** *** The registrations on hosts with two running workloads *)

(** What [int] accepts: blanks around the number but not the separator FS,
    one sign, single underscores between digits. *)
Example int_parses_example :
  map Py.int_parses
    [" 12 "; "+7"; "-0"; "1_000"; String "028" "5"; "1__0"; "_1"; "1_";
     "+ 1"; "12:"; EmptyString; "0x10"]
  = [true; true; true; true; false; false; false; false;
     false; false; false; false].
Proof. vm_compute. reflexivity. Qed.

(** The two registrations of a run of the revised script that finds both
    workloads running, split at their double quotes. *)
Example registrations_of_two_running :
  map (Py.split QUOTE)
    (registrations (trace (main (sim_exec good_host) sim_elapse both_running)))
  = [["vim-cmd hostsvc/autostartmanager/update_autostartentry 1 ";
      "PowerOn"; " "; "15"; " "; "1"; " ";
      "systemDefault"; " "; "systemDefault"; " "; "systemDefault"; EmptyString];
     ["vim-cmd hostsvc/autostartmanager/update_autostartentry 2 ";
      "PowerOn"; " "; "15"; " "; "2"; " ";
      "systemDefault"; " "; "systemDefault"; " "; "systemDefault"; EmptyString]].
Proof. vm_compute. reflexivity. Qed.

Lemma autostart_priorities_follow_discovery_witness :
  restore_set (trace (main (sim_exec good_host) sim_elapse both_running))
  = ["1"; "2"]
  /\ map registered_priority
       (registrations (trace (main (sim_exec good_host) sim_elapse both_running)))
     = [Some 1; Some 2]
  /\ Forall2 (fun c p => registration_of c (fst p) (snd p) = true)
       (registrations (trace (main (sim_exec good_host) sim_elapse both_running)))
       [("1", 1); ("2", 2)].
Proof.
  assert (Hr : restore_set
                 (trace (main (sim_exec good_host) sim_elapse both_running))
               = ["1"; "2"]) by (vm_compute; reflexivity).
  destruct (autostart_priorities_follow_discovery (sim_exec good_host) sim_elapse
              both_running) as [[prios (_ & Hp & _ & Hf & Hm)] _].
  rewrite Hr in Hp, Hf. simpl in Hp. subst prios.
  split; [exact Hr|]. split; [exact Hm | exact Hf].
Defined.

Lemma legacy_powers_off_what_it_read_on_witness :
  outcome (legacy_main (sim_exec legacy_host) sim_elapse both_running) = Val tt
  /\ legacy_found_on
       (trace (legacy_main (sim_exec legacy_host) sim_elapse both_running))
     = ["1"; "2"]
  /\ map registered_priority
       (filter is_autostart_cmd
          (commands
             (trace (legacy_main (sim_exec legacy_host) sim_elapse both_running))))
     = [Some 1; Some 2]
  /\ Forall2 (fun c p => registration_of c (fst p) (snd p) = true)
       (filter is_autostart_cmd
          (commands
             (trace (legacy_main (sim_exec legacy_host) sim_elapse both_running))))
       [("1", 1); ("2", 2)]
  /\ filter is_poweroff_cmd
       (commands
          (trace (legacy_main (sim_exec legacy_host) sim_elapse both_running)))
     = ["vim-cmd vmsvc/power.off 1"; "vim-cmd vmsvc/power.off 2"].
Proof.
  assert (Hg : outcome (legacy_main (sim_exec legacy_host) sim_elapse both_running)
               = Val tt) by (vm_compute; reflexivity).
  assert (Hon : legacy_found_on
                  (trace (legacy_main (sim_exec legacy_host) sim_elapse
                            both_running)) = ["1"; "2"])
    by (vm_compute; reflexivity).
  destruct (legacy_powers_off_what_it_read_on (sim_exec legacy_host) sim_elapse
              both_running Hg) as (_ & Hf & Hm & Hoff).
  rewrite Hon in Hf, Hm, Hoff.
  split; [exact Hg|]. split; [exact Hon|]. split; [exact Hm|].
  split; [exact Hf | exact Hoff].
Defined.

(** The two registrations of that run of the original script, split at
    their double quotes. *)
Example legacy_registrations_of_two_running :
  map (Py.split QUOTE)
    (filter is_autostart_cmd
       (commands
          (trace (legacy_main (sim_exec legacy_host) sim_elapse both_running))))
  = [["vim-cmd hostsvc/autostartmanager/update_autostartentry 1 ";
      "PowerOn"; " "; "15"; " "; "1"; " ";
      "systemDefault"; " "; "systemDefault"; " "; "systemDefault"; EmptyString];
     ["vim-cmd hostsvc/autostartmanager/update_autostartentry 2 ";
      "PowerOn"; " "; "15"; " "; "2"; " ";
      "systemDefault"; " "; "systemDefault"; " "; "systemDefault"; EmptyString]].
Proof. vm_compute. reflexivity. Qed.

(** A line that begins with the separator FS gives no key: [int] does not
    take FS for a blank. *)
Example legacy_getvms_onbox_drops_fs_line :
  outcome (legacy_getvms_onbox (sim_exec legacy_fs_host) one_running)
  = Val (Some [])
  /\ getvms (fun _ => String "028" "7:web") = Val (Some []).
Proof. split; vm_compute; reflexivity. Qed.
